(** * Percipio depth-camera test harness: a shallow embedding

    The development follows [percipio_camera_test.py]: the [TestResult]
    record, the tester object, the acquisition helper
    [capture_single_frame], the harness ([run_test], [run_all_tests]) and
    the analysis procedures ([test_basic_functionality],
    [test_repeatability], [test_stability], [test_noise]).

    Conventions.
    - Raw depth samples (numpy [uint16]) are integers in [Z].
    - Every [float]/[np.float64] quantity lives in a carrier [F] with the
      operations of the class [Float64].  Two instances are given: IEEE
      binary64 (the kernel's primitive floats), on which the procedures
      run, and the real numbers, the usual idealisation in which the
      general statements are proved.
    - The camera SDK, the wall clock and numpy's random generator are the
      environment: a [World] value scripts what they answer.
    - A Python exception (a subclass of [Exception]) is the [Raises]
      outcome of a procedure.  [KeyboardInterrupt] and [SystemExit] are
      not modelled.
    - Logging, printing, the progress bars and the registration of the
      device-event callback have no effect on what is returned and are
      left out.  The values of [test_params] are Python ints, as
      [__init__] sets them. *)

From Stdlib Require Import Floats Uint63.
From Stdlib Require Import ZArith String List Bool Lia Reals Lra Sorted.
Import ListNotations.

Set Implicit Arguments.
Set Warnings "-register-all,-inexact-float".

(* ------------------------------------------------------------------ *)
(** * Floating-point carrier *)

Class Float64 (F : Type) := {
  of_int : Z -> F;            (* int -> float, astype(np.float64) *)
  fadd : F -> F -> F;
  fsub : F -> F -> F;
  fmul : F -> F -> F;
  fdiv : F -> F -> F;
  fsqrt : F -> F;
  fabs : F -> F;
  fltb : F -> F -> bool;      (* x < y *)
  ftrunc : F -> Z             (* int(x): truncation toward zero *)
}.

(** ** IEEE binary64 *)

Definition b64_of_int (z : Z) : float :=
  if (z <? 0)%Z then PrimFloat.opp (PrimFloat.of_uint63 (Uint63.of_Z (- z)))
  else PrimFloat.of_uint63 (Uint63.of_Z z).

(** [int(x)] on a finite float; Python raises on infinities and NaN, which
    no call site of the harness can produce (the argument is an integer
    duration divided by 1.0). *)
Definition b64_trunc (x : float) : Z :=
  match Prim2SF x with
  | S754_finite s m e =>
      let v := if (0 <=? e)%Z then Z.shiftl (Zpos m) e
               else Z.shiftr (Zpos m) (- e) in
      if s then (- v)%Z else v
  | _ => 0%Z
  end.

#[export] Instance Binary64 : Float64 float := {|
  of_int := b64_of_int;
  fadd := PrimFloat.add;
  fsub := PrimFloat.sub;
  fmul := PrimFloat.mul;
  fdiv := PrimFloat.div;
  fsqrt := PrimFloat.sqrt;
  fabs := PrimFloat.abs;
  fltb := PrimFloat.ltb;
  ftrunc := b64_trunc
|}.

(** ** Real numbers *)

Definition Rltb (x y : R) : bool := if Rlt_dec x y then true else false.

Definition Rtrunc (x : R) : Z :=
  if Rle_dec 0 x then Int_part x else (- Int_part (- x))%Z.

#[export] Instance Exact : Float64 R := {|
  of_int := IZR;
  fadd := Rplus;
  fsub := Rminus;
  fmul := Rmult;
  fdiv := Rdiv;
  fsqrt := R_sqrt.sqrt;
  fabs := Rabs;
  fltb := Rltb;
  ftrunc := Rtrunc
|}.

(* ------------------------------------------------------------------ *)
(** * Python values: the contents of a result dictionary *)

Inductive key : Type :=
| KStr (s : string)
| KInt (i : Z).

Inductive value (F : Type) : Type :=
| VNone
| VBool (b : bool)
| VInt (z : Z)
| VFloat (x : F)
| VStr (s : string)
| VList (l : list (value F))
| VTuple (l : list (value F))
| VDict (d : list (key * value F)).

Arguments VNone {F}.
Arguments VBool {F} b.
Arguments VInt {F} z.
Arguments VStr {F} s.

(** A [dict] keeps its entries in insertion order, as Python does. *)
Definition dict (F : Type) : Type := list (key * value F).

Definition key_eqb (a b : key) : bool :=
  match a, b with
  | KStr s, KStr t => String.eqb s t
  | KInt i, KInt j => Z.eqb i j
  | _, _ => false
  end.

Fixpoint lookup {F} (k : key) (d : dict F) : option (value F) :=
  match d with
  | [] => None
  | (k', v) :: rest => if key_eqb k k' then Some v else lookup k rest
  end.

Definition keys {F} (d : dict F) : list key := map fst d.

(** A procedure either returns its dictionary or raises. *)
Inductive Outcome (T : Type) : Type :=
| Returns (x : T)
| Raises (msg : string).

Arguments Raises {T} msg.

(** [a / b] on two Python ints: true division, [ZeroDivisionError] on a
    zero divisor. *)
Definition py_truediv {F} `{Float64 F} (a b : Z) : Outcome F :=
  if (b =? 0)%Z then Raises "division by zero"
  else Returns (fdiv (of_int a) (of_int b)).

(* ------------------------------------------------------------------ *)
(** * numpy reductions *)

Section Numpy.
Context {F : Type} `{Float64 F}.

(** The literals of the source. *)
Definition lit_0_016 : F := fdiv (of_int 16) (of_int 1000).
Definition lit_0_5 : F := fdiv (of_int 1) (of_int 2).
Definition lit_1_0 : F := of_int 1.

Definition np_sum (xs : list F) : F := fold_left fadd xs (of_int 0).

Definition np_mean (xs : list F) : F :=
  fdiv (np_sum xs) (of_int (Z.of_nat (length xs))).

(** [np.std]: the population standard deviation (ddof = 0). *)
Definition np_std (xs : list F) : F :=
  let m := np_mean xs in
  fsqrt (np_mean (map (fun x => let d := fsub x m in fmul d d) xs)).

Definition fmax (a b : F) : F := if fltb a b then b else a.
Definition fmin (a b : F) : F := if fltb b a then b else a.

(** [np.max] and [np.min]; numpy raises on an empty array, a case the
    guards of every caller exclude. *)
Definition np_max (xs : list F) : F :=
  match xs with
  | [] => of_int 0
  | x :: rest => fold_left fmax rest x
  end.

Definition np_min (xs : list F) : F :=
  match xs with
  | [] => of_int 0
  | x :: rest => fold_left fmin rest x
  end.

End Numpy.

(* ------------------------------------------------------------------ *)
(** * Depth frames and the validity mask *)

(** A frame is a 2-D grid of raw samples, stored by rows. *)
Definition Frame : Type := list (list Z).

Definition shape {T} (a : list (list T)) : nat * nat :=
  (length a, length (hd [] a)).

Definition pixel (f : Frame) (y x : nat) : Z := nth x (nth y f []) 0%Z.

(** [(v > 0) & (v < 65535)] *)
Definition valid_raw (v : Z) : bool := ((0 <? v) && (v <? 65535))%Z.

Definition valid_mask (depth_data : Frame) : list (list bool) :=
  map (map valid_raw) depth_data.

Definition np_any (mask : list (list bool)) : bool :=
  existsb (existsb (fun b => b)) mask.

(** [np.sum(mask)] and [mask.size] *)
Definition mask_count (mask : list (list bool)) : nat :=
  length (filter (fun b => b) (concat mask)).

Definition mask_size (mask : list (list bool)) : nat :=
  length (concat mask).

(** [a[mask]]: the entries under a true mask bit, in row-major order. *)
Definition masked {T} (a : list (list T)) (mask : list (list bool)) : list T :=
  map fst (filter snd (combine (concat a) (concat mask))).

(** [np.where(mask)]: the coordinates of the true bits, row-major, as the
    pair (row indices, column indices). *)
Fixpoint where_row (y x : nat) (row : list bool) : list (nat * nat) :=
  match row with
  | [] => []
  | b :: rest => (if b then [(y, x)] else []) ++ where_row y (S x) rest
  end.

Fixpoint where_rows (y : nat) (rows : list (list bool)) : list (nat * nat) :=
  match rows with
  | [] => []
  | r :: rest => where_row y 0 r ++ where_rows (S y) rest
  end.

Definition np_where (mask : list (list bool)) : list nat * list nat :=
  let ps := where_rows 0 mask in (map fst ps, map snd ps).

(* ------------------------------------------------------------------ *)
(** * The tester object and its environment *)

Record TestParams : Type := {
  frame_rate_test_duration : Z;
  repeatability_test_count : Z;
  stability_test_duration : Z;
  noise_test_count : Z
}.

(** The values [__init__] stores in [self.test_params]. *)
Definition default_params : TestParams := {|
  frame_rate_test_duration := 10;
  repeatability_test_count := 1000;
  stability_test_duration := 10;
  noise_test_count := 5
|}.

Record Device : Type := {
  dev_id : string;
  dev_modelName : string;
  dev_ip : option string;     (* getattr(dev, 'ip', 'Unknown') *)
  dev_sn : option string
}.

Inductive StreamID : Type :=
| PERCIPIO_STREAM_DEPTH
| PERCIPIO_STREAM_OTHER (n : Z).

Record SdkFrame : Type := {
  streamID : StreamID;
  as_nparray : Frame
}.

(** What an SDK call answers: a value, or an exception. *)
Inductive SdkResult (T : Type) : Type :=
| SdkOk (x : T)
| SdkError (msg : string).

Arguments SdkError {T} msg.

Definition TY_STATUS_OK : Z := 0.

Section Harness.
Context {F : Type} `{Float64 F}.

Record TestResult : Type := {
  test_name : string;
  success : bool;
  data : dict F;
  error_message : option string;
  execution_time : F
}.

Record Tester : Type := {
  device_id : string;
  handle : option Z;
  is_connected : bool;
  test_results : list TestResult;
  depth_scale_factor : option F;
  test_params : TestParams
}.

(** [PercipioCameraTester.__init__] *)
Definition new_tester (id : string) : Tester := {|
  device_id := id;
  handle := None;
  is_connected := false;
  test_results := [];
  depth_scale_factor := None;
  test_params := default_params
|}.

(** The environment.  [now] is what [time.time()] reads; [reads] scripts
    the successive answers of [DeviceStreamRead], each with the time the
    call takes; once the script is used up every read times out (5000 ms)
    with no frame.  [random_choice n k] is the next answer of
    [np.random.choice(n, k, replace=False)]. *)
Record World : Type := {
  now : F;
  sdk_ListDevice : SdkResult (list Device);
  sdk_Open : string -> SdkResult Z;
  sdk_isValidHandle : Z -> bool;
  sdk_ReadCalibDepthScaleUnit : SdkResult F;
  sdk_StreamEnable : SdkResult Z;
  sdk_StreamOn : SdkResult Z;
  reads : list (F * SdkResult (list SdkFrame));
  random_choice : nat -> nat -> list nat
}.

Definition set_clock (w : World) (t : F) (rs : list (F * SdkResult (list SdkFrame)))
  : World := {|
  now := t;
  sdk_ListDevice := sdk_ListDevice w;
  sdk_Open := sdk_Open w;
  sdk_isValidHandle := sdk_isValidHandle w;
  sdk_ReadCalibDepthScaleUnit := sdk_ReadCalibDepthScaleUnit w;
  sdk_StreamEnable := sdk_StreamEnable w;
  sdk_StreamOn := sdk_StreamOn w;
  reads := rs;
  random_choice := random_choice w
|}.

(** [time.sleep(d)] *)
Definition sleep (d : F) (w : World) : World :=
  set_clock w (fadd (now w) d) (reads w).

(** [self.sdk.DeviceStreamRead(self.handle, 5000)] *)
Definition DeviceStreamRead (w : World) : SdkResult (list SdkFrame) * World :=
  match reads w with
  | [] => (SdkOk [], set_clock w (fadd (now w) (of_int 5)) [])
  | (latency, answer) :: rest => (answer, set_clock w (fadd (now w) latency) rest)
  end.

Fixpoint first_depth_frame (frames : list SdkFrame) : option Frame :=
  match frames with
  | [] => None
  | frame :: rest =>
      match streamID frame with
      | PERCIPIO_STREAM_DEPTH => Some (as_nparray frame)
      | PERCIPIO_STREAM_OTHER _ => first_depth_frame rest
      end
  end.

Definition capture_single_frame (self : Tester) (w : World)
  : option Frame * World :=
  if negb (is_connected self) then (None, w)
  else
    match DeviceStreamRead w with
    | (SdkError _, w') => (None, w')
    | (SdkOk frames, w') =>
        match frames with
        | [] => (None, w')
        | _ => (first_depth_frame frames, w')
        end
    end.

(** ** Connection set-up *)

Definition connected (self : Tester) (h : Z) (scale : option F) : Tester := {|
  device_id := device_id self;
  handle := Some h;
  is_connected := true;
  test_results := test_results self;
  depth_scale_factor := scale;
  test_params := test_params self
|}.

Definition with_handle (self : Tester) (h : Z) : Tester := {|
  device_id := device_id self;
  handle := Some h;
  is_connected := is_connected self;
  test_results := test_results self;
  depth_scale_factor := depth_scale_factor self;
  test_params := test_params self
|}.

Definition setup_camera (self : Tester) (w : World) : bool * Tester * World :=
  match sdk_ListDevice w with
  | SdkError _ => (false, self, w)
  | SdkOk dev_list =>
      if (length dev_list =? 0)%nat then (false, self, w)
      else
        match sdk_Open w (device_id self) with
        | SdkError _ => (false, self, w)
        | SdkOk h =>
            if negb (sdk_isValidHandle w h) then (false, with_handle self h, w)
            else
              let scale :=
                match sdk_ReadCalibDepthScaleUnit w with
                | SdkOk s => s
                | SdkError _ => lit_0_016
                end in
              let self' := connected self h (Some scale) in
              match sdk_StreamEnable w with
              | SdkError _ => (false, self', w)
              | SdkOk ret =>
                  if negb (ret =? TY_STATUS_OK)%Z then (false, self', w)
                  else
                    match sdk_StreamOn w with
                    | SdkError _ => (false, self', w)
                    | SdkOk ret' =>
                        if negb (ret' =? TY_STATUS_OK)%Z then (false, self', w)
                        else (true, self', sleep (of_int 2) w)
                    end
              end
        end
  end.

(** ** The harness *)

(** A test procedure is a bound method: it reads the tester and acts on
    the environment. *)
Definition Proc : Type := Tester -> World -> Outcome (dict F) * World.

Definition append_result (self : Tester) (r : TestResult) : Tester := {|
  device_id := device_id self;
  handle := handle self;
  is_connected := is_connected self;
  test_results := test_results self ++ [r];
  depth_scale_factor := depth_scale_factor self;
  test_params := test_params self
|}.

(** The [TestResult] that [run_test] builds from the outcome of the call. *)
Definition result_of (name : string) (o : Outcome (dict F)) (elapsed : F)
  : TestResult :=
  match o with
  | Returns d => {| test_name := name; success := true; data := d;
                    error_message := None; execution_time := elapsed |}
  | Raises msg => {| test_name := name; success := false; data := [];
                     error_message := Some msg; execution_time := elapsed |}
  end.

Definition run_test (test_func : Proc) (name : string) (self : Tester) (w : World)
  : TestResult * Tester * World :=
  let start_time := now w in
  let '(o, w') := test_func self w in
  let result := result_of name o (fsub (now w') start_time) in
  (result, append_result self result, w').

Record Procedures : Type := {
  test_basic_functionality_m : Proc;
  test_frame_rate_m : Proc;
  test_repeatability_m : Proc;
  test_stability_m : Proc;
  test_noise_m : Proc
}.

Definition name_basic : string := "基础功能测试".
Definition name_frame_rate : string := "帧率测试".
Definition name_repeatability : string := "重复精度测试".
Definition name_stability : string := "稳定性测试".
Definition name_noise : string := "噪声测试".

(** One guarded call of [run_all_tests]. *)
Definition run_if (enabled : bool) (p : Proc) (name : string)
  (sw : Tester * World) : Tester * World :=
  if enabled then
    let '(_, self', w') := run_test p name (fst sw) (snd sw) in (self', w')
  else sw.

Definition run_all_tests (ps : Procedures) (self : Tester) (w : World)
  : list TestResult * Tester * World :=
  let '(ok, self0, w0) := setup_camera self w in
  if negb ok then ([], self0, w0)
  else
    let params := test_params self0 in
    let sw := run_if true (test_basic_functionality_m ps) name_basic (self0, w0) in
    let sw := run_if (0 <? frame_rate_test_duration params)%Z
                (test_frame_rate_m ps) name_frame_rate sw in
    let sw := run_if true (test_repeatability_m ps) name_repeatability sw in
    let sw := run_if (0 <? stability_test_duration params)%Z
                (test_stability_m ps) name_stability sw in
    let sw := run_if (0 <? noise_test_count params)%Z
                (test_noise_m ps) name_noise sw in
    (test_results (fst sw), fst sw, snd sw).

End Harness.

Arguments TestResult F : clear implicits.
Arguments Tester F : clear implicits.
Arguments World F : clear implicits.
Arguments Proc F : clear implicits.
Arguments Procedures F : clear implicits.

(* ------------------------------------------------------------------ *)
(** * The analysis procedures *)

Definition err_no_initial_frame : string := "无法获取初始深度图像".
Definition err_no_valid_region : string := "未找到有效深度区域".
Definition err_no_point_data : string := "没有足够的有效测试点数据".
Definition err_noise_insufficient : string := "有效数据不足，无法分析噪声".

Fixpoint imap_from {A B} (i : nat) (f : nat -> A -> B) (l : list A) : list B :=
  match l with
  | [] => []
  | a :: rest => f i a :: imap_from (S i) f rest
  end.

(** [np.min]/[np.max] on an integer array. *)
Definition np_min_int (xs : list Z) : Z :=
  match xs with
  | [] => 0%Z
  | x :: rest => fold_left Z.min rest x
  end.

Definition np_max_int (xs : list Z) : Z :=
  match xs with
  | [] => 0%Z
  | x :: rest => fold_left Z.max rest x
  end.

Section Procedures.
Context {F : Type} `{Float64 F}.

Definition error_dict (msg : string) : dict F := [(KStr "error", VStr msg)].

Definition vnat (n : nat) : value F := VInt (Z.of_nat n).

(** Raw units to millimetres: the session's scale factor, or 0.016. *)
Definition to_mm (self : Tester F) (x : F) : F :=
  match depth_scale_factor self with
  | Some s => fmul x s
  | None => fmul x lit_0_016
  end.

(** ** Basic functionality *)

Definition unknown_or (o : option string) : string :=
  match o with Some s => s | None => "Unknown" end.

Definition device_info (self : Tester F) (dev_list : list Device) : value F :=
  match find (fun dev => String.eqb (dev_id dev) (device_id self)) dev_list with
  | Some dev =>
      VDict [(KStr "id", VStr (dev_id dev));
             (KStr "modelName", VStr (dev_modelName dev));
             (KStr "ip", VStr (unknown_or (dev_ip dev)));
             (KStr "sn", VStr (unknown_or (dev_sn dev)))]
  | None => VNone
  end.

Definition depth_stats (self : Tester F) (depth_data : Frame) : value F :=
  let mask := valid_mask depth_data in
  if np_any mask then
    let valid_depths := map of_int (masked depth_data mask) in
    let valid_depths_mm := map (to_mm self) valid_depths in
    VDict [(KStr "valid_pixels", vnat (mask_count mask));
           (KStr "total_pixels", vnat (mask_size mask));
           (KStr "valid_ratio",
             VFloat (fdiv (of_int (Z.of_nat (mask_count mask)))
                          (of_int (Z.of_nat (mask_size mask)))));
           (KStr "min_depth", VFloat (np_min valid_depths_mm));
           (KStr "max_depth", VFloat (np_max valid_depths_mm));
           (KStr "mean_depth", VFloat (np_mean valid_depths_mm));
           (KStr "std_depth", VFloat (np_std valid_depths_mm))]
  else VNone.

Definition single_capture (depth_data : Frame) : value F :=
  VDict [(KStr "has_depth", VBool true);
         (KStr "depth_shape",
           VTuple [vnat (fst (shape depth_data)); vnat (snd (shape depth_data))]);
         (KStr "depth_dtype", VStr "uint16")].

Definition test_basic_functionality : Proc F :=
  fun self w =>
    match sdk_ListDevice w with
    | SdkError msg => (Raises msg, w)
    | SdkOk dev_list =>
        let info := device_info self dev_list in
        let '(depth, w') := capture_single_frame self w in
        match depth with
        | Some depth_data =>
            (Returns [(KStr "device_info", info);
                      (KStr "single_capture", single_capture depth_data);
                      (KStr "depth_stats", depth_stats self depth_data)], w')
        | None =>
            (Returns [(KStr "device_info", info);
                      (KStr "single_capture", VNone);
                      (KStr "depth_stats", VNone)], w')
        end
    end.

(** ** Repeatability *)

(** [a[indices]] *)
Definition take_idx (a : list nat) (indices : list nat) : list nat :=
  map (fun i => nth i a O) indices.

(** Lines 326-339: the test points, as (row coordinates, column
    coordinates, target_points). *)
Definition select_points (w : World F) (mask : list (list bool))
  : list nat * list nat * nat :=
  let valid_coords := np_where mask in
  let target_points := 25%nat in
  if (target_points <=? length (fst valid_coords))%nat then
    let indices := random_choice w (length (fst valid_coords)) target_points in
    (take_idx (fst valid_coords) indices, take_idx (snd valid_coords) indices,
     target_points)
  else
    (fst valid_coords, snd valid_coords, length (fst valid_coords)).

(** The body of [for j in range(target_points)] for one point. *)
Definition record_point (self : Tester F) (depth_data : Frame) (y x : nat)
  (samples : list F) : list F :=
  if ((y <? fst (shape depth_data)) && (x <? snd (shape depth_data)))%nat then
    let depth_value := pixel depth_data y x in
    if valid_raw depth_value then samples ++ [to_mm self (of_int depth_value)]
    else samples
  else samples.

Fixpoint record_points (self : Tester F) (depth_data : Frame)
  (ys xs : list nat) (point_data : list (list F)) : list (list F) :=
  match ys, xs, point_data with
  | y :: ys', x :: xs', s :: rest =>
      record_point self depth_data y x s :: record_points self depth_data ys' xs' rest
  | _, _, _ => point_data
  end.

(** [for i in range(count)]: sleep one second, capture, record.  (The
    list [depth_maps] that the source also fills is never read.) *)
Fixpoint repeat_loop (n : nat) (self : Tester F) (ys xs : list nat)
  (point_data : list (list F)) (success_count : Z) (w : World F)
  : list (list F) * Z * World F :=
  match n with
  | O => (point_data, success_count, w)
  | S n' =>
      let '(depth, w') := capture_single_frame self (sleep (of_int 1) w) in
      match depth with
      | Some depth_data =>
          repeat_loop n' self ys xs (record_points self depth_data ys xs point_data)
            (success_count + 1)%Z w'
      | None => repeat_loop n' self ys xs point_data success_count w'
      end
  end.

Record PointStats : Type := {
  point_id : nat;
  coordinates : nat * nat;          (* [x, y] *)
  measurement_count : nat;
  mean_depth : F;
  std_depth : F;
  max_depth_deviation : F;
  depth_range : F
}.

Definition point_stats (i x y : nat) (depths : list F) : PointStats :=
  let mean := np_mean depths in {|
    point_id := i;
    coordinates := (x, y);
    measurement_count := length depths;
    mean_depth := mean;
    std_depth := np_std depths;
    max_depth_deviation := np_max (map (fun d => fabs (fsub d mean)) depths);
    depth_range := fsub (np_max depths) (np_min depths)
  |}.

(** [for i in range(target_points): if len(point_data[i]) >= 2: ...] *)
Fixpoint analyse_points (i : nat) (ys xs : list nat) (point_data : list (list F))
  : list PointStats :=
  match ys, xs, point_data with
  | y :: ys', x :: xs', s :: rest =>
      (if (2 <=? length s)%nat then [point_stats i x y s] else [])
        ++ analyse_points (S i) ys' xs' rest
  | _, _, _ => []
  end.

Definition point_value (p : PointStats) : value F :=
  VDict [(KStr "point_id", vnat (point_id p));
         (KStr "coordinates",
           VList [vnat (fst (coordinates p)); vnat (snd (coordinates p))]);
         (KStr "measurement_count", vnat (measurement_count p));
         (KStr "mean_depth", VFloat (mean_depth p));
         (KStr "std_depth", VFloat (std_depth p));
         (KStr "max_depth_deviation", VFloat (max_depth_deviation p));
         (KStr "depth_range", VFloat (depth_range p))].

Definition overall_stats (point_analysis : list PointStats) : dict F :=
  let all_depth_stds := map std_depth point_analysis in
  let all_depth_deviations := map max_depth_deviation point_analysis in
  let all_depth_ranges := map depth_range point_analysis in
  [(KStr "mean_depth_std", VFloat (np_mean all_depth_stds));
   (KStr "std_depth_std", VFloat (np_std all_depth_stds));
   (KStr "max_depth_std", VFloat (np_max all_depth_stds));
   (KStr "mean_depth_deviation", VFloat (np_mean all_depth_deviations));
   (KStr "std_depth_deviation", VFloat (np_std all_depth_deviations));
   (KStr "max_depth_deviation", VFloat (np_max all_depth_deviations));
   (KStr "mean_depth_range", VFloat (np_mean all_depth_ranges));
   (KStr "std_depth_range", VFloat (np_std all_depth_ranges))].

Definition raw_depth_data (point_data : list (list F)) : value F :=
  VDict (imap_from 0 (fun i s => (KInt (Z.of_nat i), VList (map (@VFloat F) s)))
           point_data).

(** Lines 383-442: the analysis of the collected samples. *)
Definition repeatability_report (count : Z) (ys xs : list nat)
  (target_points : nat) (point_data : list (list F)) (success_count : Z)
  : Outcome (dict F) :=
  let point_analysis := analyse_points 0 ys xs point_data in
  let valid_points := length point_analysis in
  if (valid_points =? 0)%nat then Returns (error_dict err_no_point_data)
  else
    match py_truediv success_count count with
    | Raises msg => Raises msg
    | Returns success_rate =>
        Returns [(KStr "test_count", VInt count);
                 (KStr "success_count", VInt success_count);
                 (KStr "success_rate", VFloat success_rate);
                 (KStr "target_points", vnat target_points);
                 (KStr "valid_points", vnat valid_points);
                 (KStr "overall_stats", VDict (overall_stats point_analysis));
                 (KStr "point_analysis", VList (map point_value point_analysis));
                 (KStr "test_point_coordinates",
                   VList (map (fun c => VList [vnat (snd c); vnat (fst c)])
                              (combine ys xs)));
                 (KStr "raw_depth_data", raw_depth_data point_data)]
    end.

Definition test_repeatability : Proc F :=
  fun self w =>
    let count := repeatability_test_count (test_params self) in
    let '(initial, w1) := capture_single_frame self w in
    match initial with
    | None => (Returns (error_dict err_no_initial_frame), w1)
    | Some initial_depth =>
        let mask := valid_mask initial_depth in
        if negb (np_any mask) then (Returns (error_dict err_no_valid_region), w1)
        else
          let '(ys, xs, target_points) := select_points w1 mask in
          let '(point_data, success_count, w2) :=
            repeat_loop (Z.to_nat count) self ys xs (repeat [] target_points) 0%Z w1 in
          (repeatability_report count ys xs target_points point_data success_count, w2)
    end.

(** ** Stability *)

Record Measurement : Type := {
  m_timestamp : F;
  m_valid_pixels : nat;
  m_total_pixels : nat;
  m_valid_ratio : F;
  m_mean_depth : F;
  m_std_depth : F;
  m_min_depth : F;
  m_max_depth : F
}.

(** The measurement taken from a frame with a valid region, at clock
    reading [t]. *)
Definition measure (self : Tester F) (start_time t : F) (depth_data : Frame)
  : Measurement :=
  let mask := valid_mask depth_data in
  let valid_depths := masked depth_data mask in {|
    m_timestamp := fsub t start_time;
    m_valid_pixels := mask_count mask;
    m_total_pixels := mask_size mask;
    m_valid_ratio := fdiv (of_int (Z.of_nat (mask_count mask)))
                          (of_int (Z.of_nat (mask_size mask)));
    m_mean_depth := to_mm self (np_mean (map of_int valid_depths));
    m_std_depth := to_mm self (np_std (map of_int valid_depths));
    m_min_depth := to_mm self (of_int (np_min_int valid_depths));
    m_max_depth := to_mm self (of_int (np_max_int valid_depths))
  |}.

(** One turn of the [while] loop: capture, measure, sleep off the rest of
    the interval. *)
Definition stability_step (self : Tester F) (start_time interval : F)
  (measurements : list Measurement) (w : World F)
  : list Measurement * World F :=
  let test_start := now w in
  let '(depth, w1) := capture_single_frame self w in
  let measurements' :=
    match depth with
    | Some depth_data =>
        if np_any (valid_mask depth_data)
        then measurements ++ [measure self start_time (now w1) depth_data]
        else measurements
    | None => measurements
    end in
  let elapsed := fsub (now w1) test_start in
  (measurements', if fltb elapsed interval then sleep (fsub interval elapsed) w1 else w1).

(** [while time.time() - start_time < duration].  The wall clock alone
    bounds this loop, so the recursion carries a number of turns: [None]
    is a loop still running when the turns are used up. *)
Fixpoint stability_loop (turns : nat) (self : Tester F) (start_time : F)
  (duration : Z) (interval : F) (measurements : list Measurement) (w : World F)
  : option (list Measurement * World F) :=
  match turns with
  | O =>
      if fltb (fsub (now w) start_time) (of_int duration) then None
      else Some (measurements, w)
  | S turns' =>
      if fltb (fsub (now w) start_time) (of_int duration) then
        let '(measurements', w') :=
          stability_step self start_time interval measurements w in
        stability_loop turns' self start_time duration interval measurements' w'
      else Some (measurements, w)
  end.

Definition measurement_value (m : Measurement) : value F :=
  VDict [(KStr "timestamp", VFloat (m_timestamp m));
         (KStr "valid_pixels", vnat (m_valid_pixels m));
         (KStr "total_pixels", vnat (m_total_pixels m));
         (KStr "valid_ratio", VFloat (m_valid_ratio m));
         (KStr "mean_depth", VFloat (m_mean_depth m));
         (KStr "std_depth", VFloat (m_std_depth m));
         (KStr "min_depth", VFloat (m_min_depth m));
         (KStr "max_depth", VFloat (m_max_depth m))].

Definition stability_metrics (measurements : list Measurement) : dict F :=
  let valid_pixels_counts :=
    map (fun m => of_int (Z.of_nat (m_valid_pixels m))) measurements in
  let mean_depths := map m_mean_depth measurements in
  [(KStr "valid_pixels_mean", VFloat (np_mean valid_pixels_counts));
   (KStr "valid_pixels_std", VFloat (np_std valid_pixels_counts));
   (KStr "mean_depth_mean", VFloat (np_mean mean_depths));
   (KStr "mean_depth_std", VFloat (np_std mean_depths))].

(** Lines 509-533: the report built from the measurements. *)
Definition stability_report (duration : Z) (interval : F)
  (measurements : list Measurement) : Outcome (dict F) :=
  let rest (success_rate : value F) (metrics : dict F) : dict F :=
    [(KStr "duration", VInt duration);
     (KStr "total_measurements", vnat (length measurements));
     (KStr "success_rate", success_rate);
     (KStr "stability_metrics", VDict metrics);
     (KStr "measurements", VList (map measurement_value (firstn 50 measurements)))] in
  match measurements with
  | [] => Returns (rest (VInt 0) [])
  | _ :: _ =>
      match py_truediv (Z.of_nat (length measurements))
                       (ftrunc (fdiv (of_int duration) interval)) with
      | Raises msg => Raises msg
      | Returns success_rate =>
          Returns (rest (VFloat success_rate) (stability_metrics measurements))
      end
  end.

(** [test_stability], given a bound on the turns of its loop. *)
Definition test_stability_within (turns : nat) (self : Tester F) (w : World F)
  : option (Outcome (dict F) * World F) :=
  let duration := stability_test_duration (test_params self) in
  let interval := lit_1_0 in
  let start_time := now w in
  match stability_loop turns self start_time duration interval [] w with
  | None => None
  | Some (measurements, w') =>
      Some (stability_report duration interval measurements, w')
  end.

(** ** Noise *)

Definition astype_float64 (depth_data : Frame) : list (list F) :=
  map (map of_int) depth_data.

(** [for i in range(count)]: capture; on success keep the frame and sleep
    half a second. *)
Fixpoint noise_loop (n : nat) (self : Tester F) (depth_maps : list (list (list F)))
  (success_count : Z) (w : World F) : list (list (list F)) * Z * World F :=
  match n with
  | O => (depth_maps, success_count, w)
  | S n' =>
      let '(depth, w') := capture_single_frame self w in
      match depth with
      | Some depth_data =>
          noise_loop n' self (depth_maps ++ [astype_float64 depth_data])
            (success_count + 1)%Z (sleep lit_0_5 w')
      | None => noise_loop n' self depth_maps success_count w'
      end
  end.

(** [np.array(depth_maps)] needs frames of one shape; numpy raises a
    [ValueError] otherwise.  Its text is numpy's, not the repository's. *)
Definition numpy_inhomogeneous_shape : string :=
  "setting an array element with a sequence.".

Definition row_lengths {T} (a : list (list T)) : list nat := map (@length T) a.

Definition same_shape {T} (stack : list (list (list T))) : bool :=
  match stack with
  | [] => true
  | f0 :: rest =>
      forallb (fun f => if list_eq_dec Nat.eq_dec (row_lengths f) (row_lengths f0)
                        then true else false) rest
  end.

(** The values of pixel (y, x) along axis 0. *)
Definition pixel_series (stack : list (list (list F))) (y x : nat) : list F :=
  map (fun f => nth x (nth y f []) (of_int 0)) stack.

(** [reduce(stack, axis=0)] for a reduction [g] of a 1-D array. *)
Definition along_axis0 (g : list F -> F) (stack : list (list (list F)))
  : list (list F) :=
  match stack with
  | [] => []
  | f0 :: _ =>
      map (fun y => map (fun x => g (pixel_series stack y x))
                        (seq 0 (length (nth y f0 []))))
          (seq 0 (length f0))
  end.

(** [(mean_depth > 0) & (mean_depth < 65535)] *)
Definition valid_mean (m : F) : bool :=
  fltb (of_int 0) m && fltb m (of_int 65535).

(** Lines 564-603: the analysis of the captured stack. *)
Definition noise_report (self : Tester F) (count : Z)
  (depth_maps : list (list (list F))) (success_count : Z) : Outcome (dict F) :=
  if (length depth_maps <? 2)%nat then Returns (error_dict err_noise_insufficient)
  else if negb (same_shape depth_maps) then Raises numpy_inhomogeneous_shape
  else
    let mean_depth := along_axis0 np_mean depth_maps in
    let std_depth := along_axis0 np_std depth_maps in
    let mask := map (map valid_mean) mean_depth in
    let noise :=
      if np_any mask then
        let region := masked std_depth mask in
        (VFloat (to_mm self (np_mean region)),
         VFloat (to_mm self (np_std region)),
         VFloat (to_mm self (np_max region)))
      else (VInt 0, VInt 0, VInt 0) in
    match py_truediv success_count count with
    | Raises msg => Raises msg
    | Returns success_rate =>
        Returns [(KStr "test_count", VInt count);
                 (KStr "success_count", VInt success_count);
                 (KStr "success_rate", VFloat success_rate);
                 (KStr "noise_mean", fst (fst noise));
                 (KStr "noise_std", snd (fst noise));
                 (KStr "noise_max", snd noise);
                 (KStr "mean_depth_shape",
                   VTuple [vnat (fst (shape mean_depth)); vnat (snd (shape mean_depth))]);
                 (KStr "valid_pixels_ratio",
                   if (0 <? mask_size mask)%nat
                   then VFloat (fdiv (of_int (Z.of_nat (mask_count mask)))
                                     (of_int (Z.of_nat (mask_size mask))))
                   else VInt 0)]
    end.

Definition test_noise : Proc F :=
  fun self w =>
    let count := noise_test_count (test_params self) in
    let '(depth_maps, success_count, w') := noise_loop (Z.to_nat count) self [] 0%Z w in
    (noise_report self count depth_maps success_count, w').

(** The tester's own procedures; [test_frame_rate] and [test_stability],
    whose loops are bounded by the wall clock alone, are left to the
    caller. *)
Definition percipio_procedures (test_frame_rate test_stability : Proc F)
  : Procedures F := {|
  test_basic_functionality_m := test_basic_functionality;
  test_frame_rate_m := test_frame_rate;
  test_repeatability_m := test_repeatability;
  test_stability_m := test_stability;
  test_noise_m := test_noise
|}.

End Procedures.

(* ------------------------------------------------------------------ *)
(** * The harness as a loop over the enabled procedures *)

Section HarnessSpec.
Context {F : Type} `{Float64 F}.

(** The (name, procedure) pairs that [run_all_tests] calls, in order. *)
Definition enabled_tests (ps : Procedures F) (params : TestParams)
  : list (string * Proc F) :=
  [(name_basic, test_basic_functionality_m ps)]
  ++ (if (0 <? frame_rate_test_duration params)%Z
      then [(name_frame_rate, test_frame_rate_m ps)] else [])
  ++ [(name_repeatability, test_repeatability_m ps)]
  ++ (if (0 <? stability_test_duration params)%Z
      then [(name_stability, test_stability_m ps)] else [])
  ++ (if (0 <? noise_test_count params)%Z
      then [(name_noise, test_noise_m ps)] else []).

(** Tester and world after running a list of procedures through
    [run_test]. *)
Fixpoint run_tests (tests : list (string * Proc F)) (self : Tester F) (w : World F)
  : Tester F * World F :=
  match tests with
  | [] => (self, w)
  | (name, p) :: rest =>
      let '(_, self', w') := run_test p name self w in run_tests rest self' w'
  end.

(** The results those calls return, in order. *)
Fixpoint results_of (tests : list (string * Proc F)) (self : Tester F) (w : World F)
  : list (TestResult F) :=
  match tests with
  | [] => []
  | (name, p) :: rest =>
      let '(r, self', w') := run_test p name self w in r :: results_of rest self' w'
  end.

(** What the specification asks of a [TestResult]. *)
Definition result_invariant (r : TestResult F) : Prop :=
  (success r = false -> data r = [] /\ error_message r <> None) /\
  (success r = true -> error_message r = None).

End HarnessSpec.

(* ------------------------------------------------------------------ *)
(** * A test bench: scripted cameras and mock procedures *)

Section Bench.
Context {F : Type} `{Float64 F}.

Definition depth_frame (f : Frame) : SdkFrame :=
  {| streamID := PERCIPIO_STREAM_DEPTH; as_nparray := f |}.

Definition bench_device : Device := {|
  dev_id := "207000159351";
  dev_modelName := "bench";
  dev_ip := None;
  dev_sn := None
|}.

(** A camera that connects, reports the scale factor 0.01 and answers the
    successive reads with [script]. *)
Definition bench_world (script : list (F * SdkResult (list SdkFrame))) : World F := {|
  now := of_int 0;
  sdk_ListDevice := SdkOk [bench_device];
  sdk_Open := fun _ => SdkOk 1%Z;
  sdk_isValidHandle := fun _ => true;
  sdk_ReadCalibDepthScaleUnit := SdkOk (fdiv (of_int 1) (of_int 100));
  sdk_StreamEnable := SdkOk TY_STATUS_OK;
  sdk_StreamOn := SdkOk TY_STATUS_OK;
  reads := script;
  random_choice := fun _ k => seq 0 k
|}.

(** The same camera with a generator that draws the last [k] of [n]
    indices, the greatest first. *)
Definition last_indices (n k : nat) : list nat :=
  map (fun i => n - 1 - i) (seq 0 k).

Definition drawing_last (w : World F) : World F := {|
  now := now w;
  sdk_ListDevice := sdk_ListDevice w;
  sdk_Open := sdk_Open w;
  sdk_isValidHandle := sdk_isValidHandle w;
  sdk_ReadCalibDepthScaleUnit := sdk_ReadCalibDepthScaleUnit w;
  sdk_StreamEnable := sdk_StreamEnable w;
  sdk_StreamOn := sdk_StreamOn w;
  reads := reads w;
  random_choice := last_indices
|}.

(** A read that delivers the depth frame [f] a quarter of a second after
    the call. *)
Definition delivers (f : Frame) : F * SdkResult (list SdkFrame) :=
  (fdiv (of_int 1) (of_int 4), SdkOk [depth_frame f]).

(** A connected tester with the scale factor 0.01. *)
Definition bench_tester (params : TestParams) : Tester F := {|
  device_id := "207000159351";
  handle := Some 1%Z;
  is_connected := true;
  test_results := [];
  depth_scale_factor := Some (fdiv (of_int 1) (of_int 100));
  test_params := params
|}.

Definition mock_returns : Proc F :=
  fun _ w => (Returns [(KStr "ok", VBool true)], w).

Definition mock_raises (msg : string) : Proc F :=
  fun _ w => (Raises msg, w).

(** Five mock procedures, the third of which raises. *)
Definition mock_procedures : Procedures F := {|
  test_basic_functionality_m := mock_returns;
  test_frame_rate_m := mock_returns;
  test_repeatability_m := mock_raises "boom";
  test_stability_m := mock_returns;
  test_noise_m := mock_returns
|}.

(** A frame with the raw value [v] at every pixel. *)
Definition uniform_frame (rows cols : nat) (v : Z) : Frame :=
  repeat (repeat v cols) rows.

End Bench.

(** A short configuration: three repeatability samples, a three-second
    stability window, three noise frames. *)
Definition short_params : TestParams := {|
  frame_rate_test_duration := 0;
  repeatability_test_count := 3;
  stability_test_duration := 3;
  noise_test_count := 3
|}.

(** A one-second stability window. *)
Definition one_second_params : TestParams := {|
  frame_rate_test_duration := 0;
  repeatability_test_count := 3;
  stability_test_duration := 1;
  noise_test_count := 3
|}.

(** The repeatability scenario of the specification: three points with
    four millimetre samples each. *)
Definition scenario_samples {F : Type} `{Float64 F} : list (list F) :=
  map (map of_int) [[10; 10; 10; 10]; [5; 6; 5; 6]; [20; 20; 21; 20]]%Z.

Definition scenario_analysis {F : Type} `{Float64 F} : list (@PointStats F) :=
  analyse_points 0 [0; 0; 0] [0; 1; 2] scenario_samples.
(* ------------------------------------------------------------------ *)
(** * The statistics as the specification words them *)

Fixpoint Rsum (xs : list R) : R :=
  match xs with
  | [] => 0%R
  | x :: rest => (x + Rsum rest)%R
  end.

Definition spec_mean (xs : list R) : R := (Rsum xs / INR (length xs))%R.

(** Population standard deviation: the root of the mean squared
    deviation from the mean. *)
Definition spec_std (xs : list R) : R :=
  R_sqrt.sqrt (Rsum (map (fun x => Rsqr (x - spec_mean xs)) xs) / INR (length xs)).

(** [m] is the greatest (least) element of [xs]. *)
Definition is_max (m : R) (xs : list R) : Prop :=
  In m xs /\ forall x, In x xs -> (x <= m)%R.

Definition is_min (m : R) (xs : list R) : Prop :=
  In m xs /\ forall x, In x xs -> (m <= x)%R.

(** A Python number read as a real. *)
Definition as_real (v : value R) : option R :=
  match v with
  | VInt z => Some (IZR z)
  | VFloat x => Some x
  | _ => None
  end.

(** The mask bit of pixel (y, x); false outside the grid. *)
Definition mask_at (mask : list (list bool)) (y x : nat) : bool :=
  nth x (nth y mask []) false.

Section RunSpec.
Context {F : Type} `{Float64 F}.

(** What numpy documents of [np.random.choice(n, k, replace=False)]: [k]
    distinct indices below [n]. *)
Definition choice_contract (w : World F) : Prop :=
  forall n k, k <= n ->
    length (random_choice w n k) = k /\
    NoDup (random_choice w n k) /\
    Forall (fun i => i < n) (random_choice w n k).

(** The test points of a selection, as (row, column) pairs. *)
Definition points_of (sel : list nat * list nat * nat) : list (nat * nat) :=
  combine (fst (fst sel)) (snd (fst sel)).

(** What a repeatability run has collected when it reaches its analysis:
    the coordinates of the selected points and their sample sequences.
    [None] when the run ends before it selects points (no seed frame, or
    no valid region in it). *)
Definition repeatability_samples (self : Tester F) (w : World F)
  : option (list nat * list nat * list (list F)) :=
  let count := repeatability_test_count (test_params self) in
  let '(initial, w1) := capture_single_frame self w in
  match initial with
  | None => None
  | Some initial_depth =>
      let mask := valid_mask initial_depth in
      if negb (np_any mask) then None
      else
        let '(ys, xs, target_points) := select_points w1 mask in
        let '(point_data, _, _) :=
          repeat_loop (Z.to_nat count) self ys xs (repeat [] target_points) 0%Z w1 in
        Some (ys, xs, point_data)
  end.

(** Does an acquisition carry a valid region? *)
Definition carries_valid_region (depth : option Frame) : bool :=
  match depth with
  | Some depth_data => np_any (valid_mask depth_data)
  | None => false
  end.

(** The acquisitions of a stability run, in order: what
    [capture_single_frame] returned in each turn of the loop, for at most
    [turns] turns (all of them when the loop ends within [turns], see
    [stability_frames_stable]). *)
Fixpoint stability_frames (turns : nat) (self : Tester F) (start_time : F)
  (duration : Z) (interval : F) (w : World F) : list (option Frame) :=
  match turns with
  | O => []
  | S turns' =>
      if fltb (fsub (now w) start_time) (of_int duration) then
        fst (capture_single_frame self w)
          :: stability_frames turns' self start_time duration interval
               (snd (stability_step self start_time interval [] w))
      else []
  end.

End RunSpec.

(** No read of the script completes before it is issued. *)
Definition nonneg_latencies (w : World R) : Prop :=
  Forall (fun r => (0 <= fst r)%R) (reads w).
(* ------------------------------------------------------------------ *)
(** * The rest of the tester: release, frame rate, persistence, [main] *)

Section Lifecycle.
Context {F : Type} `{Float64 F}.

(** The tester once [close] has reset it. *)
Definition released (self : Tester F) : Tester F := {|
  device_id := device_id self;
  handle := None;
  is_connected := false;
  test_results := test_results self;
  depth_scale_factor := depth_scale_factor self;
  test_params := test_params self
|}.

(** [bool(self.handle)]: an opened handle is an SDK object, hence true. *)
Definition handle_set (self : Tester F) : bool :=
  match handle self with
  | Some _ => true
  | None => false
  end.

(** [PercipioCameraTester.close].  [stream_off] and [device_close] are
    what [DeviceStreamOff] and [Close] answer; each call sits in its own
    [try], so an exception of either is logged and dropped. *)
Definition close (stream_off device_close : SdkResult Z)
  (self : Tester F) (w : World F) : Tester F * World F :=
  if is_connected self && handle_set self then
    let w1 := match stream_off with SdkOk _ => w | SdkError _ => w end in
    let w2 := sleep lit_0_5 w1 in
    let w3 := match device_close with SdkOk _ => w2 | SdkError _ => w2 end in
    (released self, w3)
  else (self, w).

(** ** Frame rate *)

(** [while time.time() < end_time].  The wall clock alone bounds this
    loop, so the recursion carries a number of turns: [None] is a loop
    still running when the turns are used up. *)
Fixpoint frame_rate_loop (turns : nat) (self : Tester F) (end_time : F)
  (frame_times : list F) (success_count total_count : Z) (w : World F)
  : option (list F * Z * Z * World F) :=
  match turns with
  | O =>
      if fltb (now w) end_time then None
      else Some (frame_times, success_count, total_count, w)
  | S turns' =>
      if fltb (now w) end_time then
        let frame_start := now w in
        let '(depth, w1) := capture_single_frame self w in
        match depth with
        | Some _ =>
            frame_rate_loop turns' self end_time
              (frame_times ++ [fsub (now w1) frame_start])
              (success_count + 1)%Z (total_count + 1)%Z (sleep lit_0_5 w1)
        | None =>
            frame_rate_loop turns' self end_time frame_times
              success_count (total_count + 1)%Z w1
        end
      else Some (frame_times, success_count, total_count, w)
  end.

(** Lines 278-304: the figures computed from the frame times. *)
Definition frame_rate_report (duration : Z) (frame_times : list F)
  (success_count total_count : Z) : Outcome (dict F) :=
  let figures : Outcome (list (value F)) :=
    match frame_times with
    | _ :: _ =>
        let avg_frame_time := np_mean frame_times in
        match py_truediv success_count duration with
        | Raises msg => Raises msg
        | Returns fps =>
            Returns [VFloat fps;
                     (if fltb (of_int 0) avg_frame_time
                      then VFloat (fdiv lit_1_0 avg_frame_time) else VInt 0);
                     VFloat avg_frame_time;
                     VFloat (np_std frame_times);
                     VFloat (np_min frame_times);
                     VFloat (np_max frame_times)]
        end
    | [] => Returns [VInt 0; VInt 0; VInt 0; VInt 0; VInt 0; VInt 0]
    end in
  match figures with
  | Raises msg => Raises msg
  | Returns figs =>
      let success_rate : Outcome (value F) :=
        if (0 <? total_count)%Z then
          match py_truediv success_count total_count with
          | Raises msg => Raises msg
          | Returns r => Returns (VFloat r)
          end
        else Returns (VInt 0) in
      match success_rate with
      | Raises msg => Raises msg
      | Returns rate =>
          Returns [(KStr "duration", VInt duration);
                   (KStr "total_attempts", VInt total_count);
                   (KStr "successful_captures", VInt success_count);
                   (KStr "success_rate", rate);
                   (KStr "fps", nth 0 figs VNone);
                   (KStr "fps_filtered", nth 1 figs VNone);
                   (KStr "avg_frame_time", nth 2 figs VNone);
                   (KStr "std_frame_time", nth 3 figs VNone);
                   (KStr "min_frame_time", nth 4 figs VNone);
                   (KStr "max_frame_time", nth 5 figs VNone);
                   (KStr "frame_times", VList (map (@VFloat F) frame_times))]
      end
  end.

(** [test_frame_rate], given a bound on the turns of its loop. *)
Definition test_frame_rate_within (turns : nat) (self : Tester F) (w : World F)
  : option (Outcome (dict F) * World F) :=
  let duration := frame_rate_test_duration (test_params self) in
  let start_time := now w in
  let end_time := fadd start_time (of_int duration) in
  match frame_rate_loop turns self end_time [] 0%Z 0%Z w with
  | None => None
  | Some (frame_times, success_count, total_count, w') =>
      Some (frame_rate_report duration frame_times success_count total_count, w')
  end.

(** ** Persistence *)

Definition result_value (r : TestResult F) : value F :=
  VDict [(KStr "test_name", VStr (test_name r));
         (KStr "success", VBool (success r));
         (KStr "execution_time", VFloat (execution_time r));
         (KStr "error_message",
           match error_message r with
           | Some msg => VStr msg
           | None => VNone
           end);
         (KStr "data", VDict (data r))].

Definition params_value (p : TestParams) : value F :=
  VDict [(KStr "frame_rate_test_duration", VInt (frame_rate_test_duration p));
         (KStr "repeatability_test_count", VInt (repeatability_test_count p));
         (KStr "stability_test_duration", VInt (stability_test_duration p));
         (KStr "noise_test_count", VInt (noise_test_count p))].

(** The dictionary [save_results] hands to [json.dump]. *)
Definition save_data (self : Tester F) (w : World F) : dict F :=
  [(KStr "test_timestamp", VFloat (now w));
   (KStr "device_id", VStr (device_id self));
   (KStr "test_params", params_value (test_params self));
   (KStr "results", VList (map result_value (test_results self)))].

(** What a run leaves on disk: the record of [save_results] and the
    report of [generate_report], each named after [int(time.time())].  The
    report is kept as the results it renders. *)
Inductive Artefact : Type :=
| SavedRecord (timestamp : Z) (record : dict F)
| SavedReport (timestamp : Z) (rendered : list (TestResult F)).

(** [save_results()] then [generate_report()].  [io] scripts the file
    system: the head answers the next write, [false] for an [OSError];
    a used-up script accepts every write.  The result says whether both
    calls returned. *)
Definition next_write (io : list bool) : bool * list bool :=
  match io with
  | [] => (true, [])
  | ok :: rest => (ok, rest)
  end.

Definition write_outputs (self : Tester F) (w : World F) (io : list bool)
  : bool * list Artefact * list bool :=
  let '(saved, io1) := next_write io in
  if saved then
    let record := SavedRecord (ftrunc (now w)) (save_data self w) in
    let '(reported, io2) := next_write io1 in
    if reported
    then (true, [record; SavedReport (ftrunc (now w)) (test_results self)], io2)
    else (false, [record], io2)
  else (false, [], io1).

(** [main]: run, persist, and release the device in the [finally]. *)
Definition main (ps : Procedures F) (id : string)
  (stream_off device_close : SdkResult Z) (io : list bool) (w : World F)
  : Tester F * World F * list Artefact :=
  let tester := new_tester id in
  let '(_, tester1, w1) := run_all_tests ps tester w in
  let '(ok, written, io1) := write_outputs tester1 w1 io in
  let written' :=
    if ok then written
    else
      match test_results tester1 with
      | [] => written
      | _ :: _ => written ++ snd (fst (write_outputs tester1 w1 io1))
      end in
  let '(tester2, w2) :=
    if is_connected tester1 then close stream_off device_close tester1 w1
    else (tester1, w1) in
  (tester2, w2, written').

(** ** The acquisitions of a repeatability and of a noise run *)

Fixpoint repeat_frames (n : nat) (self : Tester F) (w : World F)
  : list (option Frame) :=
  match n with
  | O => []
  | S n' =>
      fst (capture_single_frame self (sleep (of_int 1) w))
        :: repeat_frames n' self
             (snd (capture_single_frame self (sleep (of_int 1) w)))
  end.

(** The samples after the frames of [frames] have been recorded. *)
Definition feed_points (self : Tester F) (ys xs : list nat)
  (frames : list (option Frame)) (point_data : list (list F)) : list (list F) :=
  fold_left (fun pd depth =>
               match depth with
               | Some depth_data => record_points self depth_data ys xs pd
               | None => pd
               end) frames point_data.

Definition acquired (frames : list (option Frame)) : list Frame :=
  flat_map (fun depth => match depth with Some f => [f] | None => [] end) frames.

(** A sample is the millimetre value of a valid raw reading. *)
Definition valid_sample (self : Tester F) (sample : F) : Prop :=
  exists v : Z, (0 < v < 65535)%Z /\ sample = to_mm self (of_int v).

End Lifecycle.

Arguments Artefact F : clear implicits.

(** A grid all of whose rows have one length, as every numpy array is. *)
Definition rectangular {T} (a : list (list T)) : Prop :=
  Forall (fun row => length row = length (hd [] a)) a.
(* ------------------------------------------------------------------ *)
(** * Properties of the harness *)

Section HarnessTheory.
Context {F : Type} `{Float64 F}.

Lemma run_test_result (test_func : Proc F) name self w :
  fst (fst (run_test test_func name self w))
  = result_of name (fst (test_func self w))
      (fsub (now (snd (test_func self w))) (now w)).
Proof.
  unfold run_test. destruct (test_func self w) as [o w']. reflexivity.
Qed.

Lemma run_test_tester (test_func : Proc F) name self w :
  snd (fst (run_test test_func name self w))
  = append_result self (fst (fst (run_test test_func name self w))).
Proof.
  unfold run_test. destruct (test_func self w) as [o w']. reflexivity.
Qed.

Lemma run_test_world (test_func : Proc F) name self w :
  snd (run_test test_func name self w) = snd (test_func self w).
Proof.
  unfold run_test. destruct (test_func self w) as [o w']. reflexivity.
Qed.

Lemma result_of_name name (o : Outcome (dict F)) t :
  test_name (result_of name o t) = name.
Proof. destruct o; reflexivity. Qed.

Lemma result_of_invariant name (o : Outcome (dict F)) t :
  result_invariant (result_of name o t).
Proof.
  destruct o; split; simpl; intros E; try discriminate; auto.
  split; [reflexivity | discriminate].
Qed.

Lemma run_tests_app tests1 tests2 self w :
  run_tests (tests1 ++ tests2) self w
  = run_tests tests2 (fst (run_tests tests1 self w)) (snd (run_tests tests1 self w)).
Proof.
  revert self w. induction tests1 as [|[name p] rest IH]; intros self w; simpl.
  - reflexivity.
  - destruct (run_test p name self w) as [[r self'] w']. apply IH.
Qed.

Lemma run_if_run_tests (b : bool) p name (sw : Tester F * World F) :
  run_if b p name sw
  = run_tests (if b then [(name, p)] else []) (fst sw) (snd sw).
Proof.
  unfold run_if. destruct b; simpl.
  - destruct (run_test p name (fst sw) (snd sw)) as [[r self'] w']. reflexivity.
  - destruct sw; reflexivity.
Qed.

Lemma run_tests_params tests self w :
  test_params (fst (run_tests tests self w)) = test_params self.
Proof.
  revert self w. induction tests as [|[name p] rest IH]; intros self w; simpl.
  - reflexivity.
  - pose proof (run_test_tester p name self w) as E.
    destruct (run_test p name self w) as [[r self'] w']. simpl in E.
    rewrite IH, E. reflexivity.
Qed.

Lemma run_tests_results tests self w :
  test_results (fst (run_tests tests self w))
  = test_results self ++ results_of tests self w.
Proof.
  revert self w. induction tests as [|[name p] rest IH]; intros self w; simpl.
  - now rewrite app_nil_r.
  - pose proof (run_test_tester p name self w) as E.
    destruct (run_test p name self w) as [[r self'] w']. simpl in E.
    rewrite IH, E. simpl. now rewrite <- app_assoc.
Qed.

(** [run_all_tests], once the camera is set up, is the loop over the
    enabled procedures. *)
Lemma run_all_tests_loop ps self w self0 w0 :
  setup_camera self w = (true, self0, w0) ->
  run_all_tests ps self w
  = (test_results (fst (run_tests (enabled_tests ps (test_params self0)) self0 w0)),
     fst (run_tests (enabled_tests ps (test_params self0)) self0 w0),
     snd (run_tests (enabled_tests ps (test_params self0)) self0 w0)).
Proof.
  intros Hs. unfold run_all_tests. rewrite Hs. cbn [negb].
  rewrite !run_if_run_tests. unfold enabled_tests.
  rewrite !run_tests_app. reflexivity.
Qed.

Lemma setup_camera_results self w :
  test_results (snd (fst (setup_camera self w))) = test_results self.
Proof.
  unfold setup_camera.
  repeat match goal with
         | |- context [match ?x with _ => _ end] => destruct x; try reflexivity
         end.
Qed.

Lemma results_of_names tests self w :
  map (@test_name F) (results_of tests self w) = map fst tests.
Proof.
  revert self w. induction tests as [|[name p] rest IH]; intros self w; simpl.
  - reflexivity.
  - pose proof (run_test_result p name self w) as E.
    destruct (run_test p name self w) as [[r self'] w']. simpl in E |- *.
    rewrite IH, E, result_of_name. reflexivity.
Qed.

Lemma results_of_invariant tests self w :
  Forall result_invariant (results_of tests self w).
Proof.
  revert self w. induction tests as [|[name p] rest IH]; intros self w; simpl.
  - constructor.
  - pose proof (run_test_result p name self w) as E.
    destruct (run_test p name self w) as [[r self'] w']. simpl in E.
    constructor; [rewrite E; apply result_of_invariant | apply IH].
Qed.

(** The k-th result is the one [run_test] returns for the k-th procedure,
    called on the tester and world that the first k procedures left. *)
Lemma results_of_nth tests self w k name p :
  nth_error tests k = Some (name, p) ->
  nth_error (results_of tests self w) k
  = Some (fst (fst (run_test p name
                      (fst (run_tests (firstn k tests) self w))
                      (snd (run_tests (firstn k tests) self w))))).
Proof.
  revert self w k. induction tests as [|[name' p'] rest IH]; intros self w k Hk.
  - destruct k; discriminate.
  - destruct k as [|k]; simpl in Hk |- *.
    + injection Hk as -> ->.
      destruct (run_test p name self w) as [[r self'] w']. reflexivity.
    + destruct (run_test p' name' self w) as [[r self'] w']. simpl.
      now apply IH.
Qed.

Lemma setup_camera_params self w :
  test_params (snd (fst (setup_camera self w))) = test_params self.
Proof.
  unfold setup_camera.
  repeat match goal with
         | |- context [match ?x with _ => _ end] => destruct x; try reflexivity
         end.
Qed.

Lemma result_of_raises name msg (t : F) :
  success (result_of name (Raises msg) t) = false /\
  error_message (result_of name (Raises msg) t) = Some msg /\
  data (result_of name (Raises msg) t) = [].
Proof. repeat split. Qed.

Lemma result_of_returns name (d : dict F) (t : F) :
  success (result_of name (Returns d) t) = true /\
  data (result_of name (Returns d) t) = d /\
  error_message (result_of name (Returns d) t) = None.
Proof. repeat split. Qed.

(** Whatever the tester already holds, a run appends the results of the
    enabled procedures to it. *)
Lemma run_all_tests_appends ps self w self0 w0 :
  setup_camera self w = (true, self0, w0) ->
  fst (fst (run_all_tests ps self w))
  = test_results self ++ results_of (enabled_tests ps (test_params self)) self0 w0.
Proof.
  intros Hs.
  pose proof (setup_camera_params self w) as Ep. rewrite Hs in Ep.
  pose proof (setup_camera_results self w) as Er. rewrite Hs in Er.
  cbn [fst snd] in Ep, Er.
  rewrite (@run_all_tests_loop ps _ _ _ _ Hs). cbn [fst snd].
  now rewrite run_tests_results, Er, Ep.
Qed.

(** C1.  When the camera is set up and the tester starts with an empty
    result list, [run_all_tests] returns exactly one [TestResult] per
    enabled procedure, in call order.  The k-th result is the record of
    the k-th procedure's own outcome on the tester and world left by the
    k procedures before it, whatever their outcomes were: a procedure that
    raises gets [success = false] and the exception's message, and every
    other procedure is still called and recorded. *)
Theorem run_all_tests_one_result_per_enabled_procedure ps self w self0 w0 :
  setup_camera self w = (true, self0, w0) ->
  test_results self = [] ->
  let tests := enabled_tests ps (test_params self) in
  let results := fst (fst (run_all_tests ps self w)) in
  length results = length tests /\
  map (@test_name F) results = map fst tests /\
  forall k name p, nth_error tests k = Some (name, p) ->
    let selfk := fst (run_tests (firstn k tests) self0 w0) in
    let wk := snd (run_tests (firstn k tests) self0 w0) in
    exists r,
      nth_error results k = Some r /\
      r = fst (fst (run_test p name selfk wk)) /\
      (forall msg, fst (p selfk wk) = Raises msg ->
         success r = false /\ error_message r = Some msg /\ data r = []) /\
      (forall d, fst (p selfk wk) = Returns d ->
         success r = true /\ data r = d /\ error_message r = None).
Proof.
  intros Hs Hnil tests results.
  assert (Hp : test_params self0 = test_params self).
  { pose proof (setup_camera_params self w) as E. now rewrite Hs in E. }
  assert (Hr : test_results self0 = []).
  { pose proof (setup_camera_results self w) as E. rewrite Hs in E.
    simpl in E. congruence. }
  assert (Hres : results = results_of tests self0 w0).
  { unfold results. rewrite (@run_all_tests_loop ps _ _ _ _ Hs). cbn [fst snd].
    rewrite run_tests_results, Hr, Hp. reflexivity. }
  assert (Hnames : map (@test_name F) results = map fst tests).
  { rewrite Hres. apply results_of_names. }
  split; [| split; [exact Hnames |]].
  - rewrite <- (length_map (@test_name F)), Hnames. apply length_map.
  - intros k name p Hk selfk wk.
    exists (fst (fst (run_test p name selfk wk))).
    split; [rewrite Hres; now apply results_of_nth |].
    split; [reflexivity |].
    rewrite run_test_result.
    split; [intros msg E | intros d E]; rewrite E.
    + apply result_of_raises.
    + apply result_of_returns.
Qed.

(** C4.  Every [TestResult] of the harness satisfies the invariant: a
    failed result has the empty data mapping and an error message, a
    successful one has no error message.  [run_test] builds such a result
    for any procedure, and [run_all_tests] keeps the result list within the
    invariant. *)
Theorem test_result_invariant ps self w :
  Forall result_invariant (test_results self) ->
  Forall result_invariant (fst (fst (run_all_tests ps self w))) /\
  Forall result_invariant (test_results (snd (fst (run_all_tests ps self w)))) /\
  forall test_func name,
    result_invariant (fst (fst (run_test test_func name self w))).
Proof.
  intros Hinv.
  assert (Hrun : forall test_func name,
             result_invariant (fst (fst (run_test test_func name self w)))).
  { intros. rewrite run_test_result. apply result_of_invariant. }
  destruct (setup_camera self w) as [[ok self0] w0] eqn:Hs.
  assert (Hr : test_results self0 = test_results self).
  { pose proof (setup_camera_results self w) as E. now rewrite Hs in E. }
  destruct ok.
  - rewrite (@run_all_tests_loop ps _ _ _ _ Hs). cbn [fst snd].
    rewrite run_tests_results, Hr.
    assert (Forall result_invariant
              (test_results self
               ++ results_of (enabled_tests ps (test_params self0)) self0 w0)).
    { apply Forall_app. split; [exact Hinv | apply results_of_invariant]. }
    auto.
  - unfold run_all_tests. rewrite Hs. simpl. rewrite Hr. auto.
Qed.

End HarnessTheory.

Lemma run_all_tests_one_result_per_enabled_procedure_witness :
  fst (fst (setup_camera (new_tester "207000159351") (bench_world (F:=float) []))) = true /\
  test_results (new_tester (F:=float) "207000159351") = [] /\
  map (@test_name float)
      (fst (fst (run_all_tests mock_procedures (new_tester "207000159351")
                   (bench_world []))))
  = map fst (enabled_tests (F:=float) mock_procedures
               (test_params (new_tester (F:=float) "207000159351"))).
Proof.
  split; [vm_compute; reflexivity |]. split; [reflexivity |].
  refine (proj1 (proj2
    (@run_all_tests_one_result_per_enabled_procedure float Binary64
       mock_procedures (new_tester "207000159351") (bench_world [])
       (snd (fst (setup_camera (new_tester "207000159351") (bench_world []))))
       (snd (setup_camera (new_tester "207000159351") (bench_world [])))
       _ _))).
  - vm_compute. reflexivity.
  - reflexivity.
Defined.

Lemma test_result_invariant_witness :
  Forall result_invariant (test_results (new_tester (F:=float) "207000159351")) /\
  Forall result_invariant
    (fst (fst (run_all_tests mock_procedures (new_tester "207000159351")
                 (bench_world (F:=float) [])))).
Proof.
  split; [constructor |].
  apply (proj1 (@test_result_invariant float Binary64 mock_procedures
                  (new_tester "207000159351") (bench_world [])
                  (Forall_nil _))).
Defined.

(** On the bench the mock that raises is recorded as the third of five
    results, with its message, and the two procedures after it still
    run. *)
Example run_all_tests_mock_run :
  map (fun r : TestResult float => (success r, error_message r))
      (fst (fst (run_all_tests mock_procedures (new_tester "207000159351")
                   (bench_world []))))
  = [(true, None); (true, None); (false, Some "boom"%string); (true, None); (true, None)].
Proof. vm_compute. reflexivity. Qed.

(* ------------------------------------------------------------------ *)
(** * numpy reductions over the reals *)

Section RealReductions.

Local Open Scope R_scope.

Lemma Rltb_true x y : Rltb x y = true <-> x < y.
Proof. unfold Rltb. destruct (Rlt_dec x y); split; auto; discriminate. Qed.

Lemma Rltb_false x y : Rltb x y = false <-> y <= x.
Proof.
  unfold Rltb. destruct (Rlt_dec x y); split; auto; try discriminate; lra.
Qed.

Lemma Rltb_irrefl x : Rltb x x = false.
Proof. apply Rltb_false. lra. Qed.

Lemma fold_left_Rplus xs a : fold_left Rplus xs a = a + Rsum xs.
Proof.
  revert a. induction xs as [|x rest IH]; intros a; simpl.
  - lra.
  - rewrite IH. lra.
Qed.

Lemma np_sum_real (xs : list R) : np_sum xs = Rsum xs.
Proof. unfold np_sum. cbn. rewrite fold_left_Rplus. lra. Qed.

Lemma np_mean_real (xs : list R) : np_mean xs = spec_mean xs.
Proof.
  unfold np_mean, spec_mean. rewrite np_sum_real. cbn.
  now rewrite <- INR_IZR_INZ.
Qed.

Lemma np_std_real (xs : list R) : np_std xs = spec_std xs.
Proof.
  unfold np_std, spec_std. rewrite !np_mean_real. cbn.
  unfold spec_mean at 1. rewrite length_map. reflexivity.
Qed.

Lemma fmax_real (a b : R) : fmax a b = Rmax a b.
Proof.
  unfold fmax. cbn. unfold Rltb, Rmax.
  destruct (Rlt_dec a b), (Rle_dec a b); try reflexivity; lra.
Qed.

Lemma fmin_real (a b : R) : fmin a b = Rmin a b.
Proof.
  unfold fmin. cbn. unfold Rltb, Rmin.
  destruct (Rlt_dec b a), (Rle_dec a b); try reflexivity; lra.
Qed.

Lemma fold_left_fmax_is_max (rest : list R) (a : R) :
  is_max (fold_left fmax rest a) (a :: rest).
Proof.
  revert a. induction rest as [|x rest IH]; intros a; simpl.
  - split; [now left | intros y [<- | []]; lra].
  - destruct (IH (fmax a x)) as [Hin Hub]. rewrite fmax_real in *.
    split.
    + destruct Hin as [E | Hin]; [| now right; right].
      rewrite <- E. unfold Rmax. destruct (Rle_dec a x); [right; now left | now left].
    + intros y [<- | [<- | Hy]].
      * apply Rle_trans with (Rmax a x); [apply Rmax_l | apply Hub; now left].
      * apply Rle_trans with (Rmax a x); [apply Rmax_r | apply Hub; now left].
      * apply Hub. now right.
Qed.

Lemma fold_left_fmin_is_min (rest : list R) (a : R) :
  is_min (fold_left fmin rest a) (a :: rest).
Proof.
  revert a. induction rest as [|x rest IH]; intros a; simpl.
  - split; [now left | intros y [<- | []]; lra].
  - destruct (IH (fmin a x)) as [Hin Hlb]. rewrite fmin_real in *.
    split.
    + destruct Hin as [E | Hin]; [| now right; right].
      rewrite <- E. unfold Rmin. destruct (Rle_dec a x); [now left | right; now left].
    + intros y [<- | [<- | Hy]].
      * apply Rle_trans with (Rmin a x); [apply Hlb; now left | apply Rmin_l].
      * apply Rle_trans with (Rmin a x); [apply Hlb; now left | apply Rmin_r].
      * apply Hlb. now right.
Qed.

Lemma np_max_is_max (xs : list R) : xs <> [] -> is_max (np_max xs) xs.
Proof.
  destruct xs as [|x rest]; [congruence | intros _].
  apply fold_left_fmax_is_max.
Qed.

Lemma np_min_is_min (xs : list R) : xs <> [] -> is_min (np_min xs) xs.
Proof.
  destruct xs as [|x rest]; [congruence | intros _].
  apply fold_left_fmin_is_min.
Qed.

(** Constant sequences. *)

Lemma Rsum_repeat c n : Rsum (repeat c n) = INR n * c.
Proof.
  induction n as [|n IH].
  - simpl. lra.
  - rewrite S_INR. cbn [repeat Rsum]. rewrite IH. lra.
Qed.

Lemma spec_mean_repeat c n : (0 < n)%nat -> spec_mean (repeat c n) = c.
Proof.
  intros Hn. unfold spec_mean. rewrite Rsum_repeat, repeat_length.
  field. apply not_0_INR. lia.
Qed.

Lemma spec_std_repeat c n : (0 < n)%nat -> spec_std (repeat c n) = 0.
Proof.
  intros Hn. unfold spec_std. rewrite spec_mean_repeat by exact Hn.
  rewrite map_repeat, Rsum_repeat, repeat_length.
  replace (INR n * Rsqr (c - c) / INR n) with 0.
  - apply sqrt_0.
  - unfold Rsqr. field. apply not_0_INR. lia.
Qed.

Lemma is_max_repeat m c n : is_max m (repeat c n) -> m = c.
Proof. intros [Hin _]. now apply repeat_spec in Hin. Qed.

Lemma np_max_repeat (c : R) n : (0 < n)%nat -> np_max (repeat c n) = c.
Proof.
  intros Hn. apply (@is_max_repeat _ c n). apply np_max_is_max.
  destruct n; [lia | discriminate].
Qed.

Lemma np_min_repeat (c : R) n : (0 < n)%nat -> np_min (repeat c n) = c.
Proof.
  intros Hn. destruct (@np_min_is_min (repeat c n)) as [Hin _].
  - destruct n; [lia | discriminate].
  - now apply repeat_spec in Hin.
Qed.

(** [int(x)] on an integral real. *)
Lemma Int_part_IZR (z : Z) : Int_part (IZR z) = z.
Proof.
  unfold Int_part.
  assert (E : up (IZR z) = (z + 1)%Z).
  { symmetry. apply tech_up; rewrite plus_IZR; lra. }
  rewrite E. lia.
Qed.

Lemma Rtrunc_IZR (z : Z) : Rtrunc (IZR z) = z.
Proof.
  unfold Rtrunc. destruct (Rle_dec 0 (IZR z)).
  - apply Int_part_IZR.
  - rewrite <- opp_IZR, Int_part_IZR. lia.
Qed.

End RealReductions.

(* ------------------------------------------------------------------ *)
(** * The validity mask *)

Section Masks.

Lemma valid_raw_spec v : valid_raw v = true <-> (0 < v < 65535)%Z.
Proof. unfold valid_raw. rewrite andb_true_iff, !Z.ltb_lt. tauto. Qed.

Lemma mask_at_valid_mask (f : Frame) y x :
  mask_at (valid_mask f) y x = valid_raw (pixel f y x).
Proof.
  unfold mask_at, valid_mask, pixel.
  change (@nil bool) with (map valid_raw []).
  rewrite map_nth.
  change false with (valid_raw 0). now rewrite map_nth.
Qed.

Lemma pixel_outside (f : Frame) y x :
  ~ (y < length f /\ x < length (nth y f [])) -> pixel f y x = 0%Z.
Proof.
  intros Hout. unfold pixel.
  destruct (Nat.lt_ge_cases y (length f)) as [Hy | Hy].
  - apply nth_overflow. lia.
  - rewrite (nth_overflow f [] Hy). now destruct x.
Qed.

Lemma concat_valid_mask (f : Frame) :
  concat (valid_mask f) = map valid_raw (concat f).
Proof. unfold valid_mask. now rewrite concat_map. Qed.

Lemma filter_id_map {T} (g : T -> bool) (l : list T) :
  length (filter (fun b : bool => b) (map g l)) = length (filter g l).
Proof.
  induction l as [|a l IH]; simpl; [reflexivity |].
  destruct (g a); simpl; now rewrite IH.
Qed.

Lemma mask_count_valid_mask (f : Frame) :
  mask_count (valid_mask f) = length (filter valid_raw (concat f)).
Proof. unfold mask_count. rewrite concat_valid_mask. apply filter_id_map. Qed.

Lemma mask_size_valid_mask (f : Frame) :
  mask_size (valid_mask f) = length (concat f).
Proof. unfold mask_size. rewrite concat_valid_mask. apply length_map. Qed.

Lemma masked_map {T} (g : T -> bool) (l : list T) :
  map fst (filter snd (combine l (map g l))) = filter g l.
Proof.
  induction l as [|a l IH]; simpl; [reflexivity |].
  destruct (g a); simpl; now rewrite IH.
Qed.

Lemma masked_valid_mask (f : Frame) :
  masked f (valid_mask f) = filter valid_raw (concat f).
Proof. unfold masked. rewrite concat_valid_mask. apply masked_map. Qed.

Lemma mask_count_le_size mask : mask_count mask <= mask_size mask.
Proof. apply filter_length_le. Qed.

Lemma np_any_count mask : np_any mask = true <-> 0 < mask_count mask.
Proof.
  unfold np_any, mask_count. induction mask as [|row rest IH]; simpl.
  - split; [discriminate | lia].
  - rewrite orb_true_iff, IH, filter_app, length_app.
    assert (E : existsb (fun b : bool => b) row = true
                <-> 0 < length (filter (fun b : bool => b) row)).
    { clear. induction row as [|b row IH]; simpl.
      - split; [discriminate | lia].
      - destruct b; simpl; [split; [lia | reflexivity] | exact IH]. }
    rewrite E. lia.
Qed.

Lemma np_any_false_count mask : np_any mask = false <-> mask_count mask = 0.
Proof.
  pose proof (np_any_count mask) as E.
  destruct (np_any mask); split; intros E'; try discriminate; try reflexivity.
  - assert (0 < mask_count mask) by now apply E. lia.
  - destruct (Nat.eq_0_gt_0_cases (mask_count mask)) as [E0 | E0]; [exact E0 |].
    apply E in E0. discriminate.
Qed.

(** [np.where] *)

Lemma where_row_in y x0 row q :
  In q (where_row y x0 row)
  <-> fst q = y /\ x0 <= snd q /\ nth (snd q - x0) row false = true.
Proof.
  revert x0. induction row as [|b rest IH]; intros x0; simpl.
  - split; [intros [] | intros (_ & _ & E)]. now destruct (snd q - x0).
  - rewrite in_app_iff, IH. destruct q as [qy qx]. simpl. split.
    + intros [Hb | (E & Hle & Hn)].
      * destruct b; [| destruct Hb]. destruct Hb as [E | []].
        injection E as <- <-. rewrite Nat.sub_diag. auto.
      * split; [exact E |]. split; [lia |].
        replace (qx - x0) with (S (qx - S x0)) by lia. exact Hn.
    + intros (E & Hle & Hn). destruct (Nat.eq_dec qx x0) as [-> | Hne].
      * left. rewrite Nat.sub_diag in Hn. subst. now left.
      * right. split; [exact E |]. split; [lia |].
        replace (qx - x0) with (S (qx - S x0)) in Hn by lia. exact Hn.
Qed.

Lemma where_rows_in y0 mask q :
  In q (where_rows y0 mask)
  <-> y0 <= fst q /\ mask_at mask (fst q - y0) (snd q) = true.
Proof.
  unfold mask_at. revert y0. induction mask as [|row rest IH]; intros y0; simpl.
  - split; [intros [] | intros (_ & E)].
    destruct (fst q - y0); now destruct (snd q).
  - rewrite in_app_iff, where_row_in, IH, Nat.sub_0_r. split.
    + intros [(E & _ & Hn) | (Hle & Hn)].
      * rewrite E, Nat.sub_diag. auto.
      * split; [lia |].
        replace (fst q - y0) with (S (fst q - S y0)) by lia. exact Hn.
    + intros (Hle & Hn). destruct (Nat.eq_dec (fst q) y0) as [E | Hne].
      * left. rewrite E, Nat.sub_diag in Hn. split; [exact E |]. split; [lia | exact Hn].
      * right. split; [lia |].
        replace (fst q - y0) with (S (fst q - S y0)) in Hn by lia. exact Hn.
Qed.

Lemma where_row_NoDup y x0 row : NoDup (where_row y x0 row).
Proof.
  revert x0. induction row as [|b rest IH]; intros x0; simpl.
  - constructor.
  - destruct b; simpl; [| apply IH].
    constructor; [| apply IH].
    rewrite where_row_in. simpl. lia.
Qed.

Lemma where_rows_NoDup y0 mask : NoDup (where_rows y0 mask).
Proof.
  revert y0. induction mask as [|row rest IH]; intros y0; simpl.
  - constructor.
  - apply NoDup_app; [apply where_row_NoDup | apply IH |].
    intros q Hrow Hrest.
    apply where_row_in in Hrow. apply where_rows_in in Hrest. lia.
Qed.

Lemma where_row_length y x0 row :
  length (where_row y x0 row) = length (filter (fun b : bool => b) row).
Proof.
  revert x0. induction row as [|b rest IH]; intros x0; simpl; [reflexivity |].
  destruct b; simpl; now rewrite IH.
Qed.

Lemma where_rows_length y0 mask : length (where_rows y0 mask) = mask_count mask.
Proof.
  unfold mask_count. revert y0. induction mask as [|row rest IH]; intros y0; simpl.
  - reflexivity.
  - now rewrite length_app, filter_app, length_app, where_row_length, IH.
Qed.

Lemma np_where_pairs mask :
  combine (fst (np_where mask)) (snd (np_where mask)) = where_rows 0 mask.
Proof.
  unfold np_where. simpl. induction (where_rows 0 mask) as [|[y x] l IH]; simpl.
  - reflexivity.
  - now rewrite IH.
Qed.

Lemma np_where_lengths mask :
  length (fst (np_where mask)) = mask_count mask /\
  length (snd (np_where mask)) = mask_count mask.
Proof.
  unfold np_where. simpl. now rewrite !length_map, where_rows_length.
Qed.

End Masks.

(* ------------------------------------------------------------------ *)
(** * Selection of the test points *)

Section Selection.
Context {F : Type} `{Float64 F}.

Lemma combine_take_idx (ps : list (nat * nat)) (indices : list nat) :
  combine (take_idx (map fst ps) indices) (take_idx (map snd ps) indices)
  = map (fun i => nth i ps (0, 0)) indices.
Proof.
  unfold take_idx. induction indices as [|i rest IH]; simpl; [reflexivity |].
  rewrite IH. f_equal.
  rewrite (map_nth fst ps (0, 0) i : nth i (map fst ps) 0 = _).
  rewrite (map_nth snd ps (0, 0) i : nth i (map snd ps) 0 = _).
  now destruct (nth i ps (0, 0)).
Qed.

Lemma NoDup_map_nth {T} (l : list T) (d : T) (indices : list nat) :
  NoDup l -> NoDup indices -> Forall (fun i => i < length l) indices ->
  NoDup (map (fun i => nth i l d) indices).
Proof.
  intros Hl Hi Hlt. induction Hi as [|i rest Hnotin Hi IH]; simpl.
  - constructor.
  - inversion Hlt as [|? ? Hi_lt Hrest]; subst.
    constructor; [| now apply IH].
    rewrite in_map_iff. intros (j & Ej & Hj).
    rewrite Forall_forall in Hrest.
    assert (j = i) by (apply (proj1 (NoDup_nth l d) Hl); auto).
    subst. contradiction.
Qed.

(** Both coordinate lists of a selection have the target length. *)
Lemma select_points_lengths (w : World F) (mask : list (list bool)) :
  choice_contract w ->
  length (fst (fst (select_points w mask))) = snd (select_points w mask) /\
  length (snd (fst (select_points w mask))) = snd (select_points w mask).
Proof.
  intros Hc. unfold select_points.
  pose proof (np_where_lengths mask) as [Hly Hlx].
  destruct (25 <=? length (fst (np_where mask))) eqn:Hcase; cbn [fst snd].
  - apply Nat.leb_le in Hcase.
    destruct (Hc (length (fst (np_where mask))) 25 Hcase) as (Hlen & _).
    unfold take_idx. now rewrite !length_map.
  - split; congruence.
Qed.

(** C9.  The test points of a repeatability run, selected on the mask of
    the seed frame (which [test_repeatability] has checked to be
    non-empty).  With at least 25 valid pixels the points are the valid
    coordinates, as [np.where] lists them, at the 25 indices that
    [np.random.choice] draws among them, in the order of the draw, and the
    target count stays 25; with fewer, the points are all the valid
    coordinates and the target count is their number.  Either way the
    points are distinct pixels, all valid in the seed frame.  The draw
    itself is numpy's, taken by its contract (that it is uniform is not
    expressed here). *)
Theorem select_points_spec (w : World F) (seed : Frame) :
  choice_contract w ->
  np_any (valid_mask seed) = true ->
  let valid := mask_count (valid_mask seed) in
  let valid_coords :=
    combine (fst (np_where (valid_mask seed))) (snd (np_where (valid_mask seed))) in
  let sel := select_points w (valid_mask seed) in
  let target_points := snd sel in
  length valid_coords = valid /\
  NoDup valid_coords /\
  (forall y x, In (y, x) valid_coords <-> valid_raw (pixel seed y x) = true) /\
  length (points_of sel) = target_points /\
  length (fst (fst sel)) = target_points /\
  length (snd (fst sel)) = target_points /\
  0 < target_points /\
  NoDup (points_of sel) /\
  (forall y x, In (y, x) (points_of sel) -> valid_raw (pixel seed y x) = true) /\
  (25 <= valid ->
     target_points = 25 /\
     points_of sel
     = map (fun i => nth i valid_coords (0, 0)) (random_choice w valid 25)) /\
  (valid < 25 ->
     target_points = valid /\
     points_of sel = valid_coords /\
     forall y x, valid_raw (pixel seed y x) = true -> In (y, x) (points_of sel)).
Proof.
  intros Hc Hany valid valid_coords sel target_points.
  pose proof (np_where_lengths (valid_mask seed)) as [Hly Hlx].
  pose proof (np_where_pairs (valid_mask seed)) as Hpairs.
  assert (Hin : forall y x, In (y, x) (where_rows 0 (valid_mask seed))
                            <-> valid_raw (pixel seed y x) = true).
  { intros y x. rewrite where_rows_in. simpl. rewrite Nat.sub_0_r.
    rewrite mask_at_valid_mask. split; [tauto | split; [lia | assumption]]. }
  apply np_any_count in Hany. fold valid in Hany.
  unfold valid_coords. rewrite Hpairs.
  split; [apply where_rows_length |]. split; [apply where_rows_NoDup |].
  split; [exact Hin |].
  unfold target_points, sel, points_of, select_points.
  rewrite Hly. fold valid.
  destruct (25 <=? valid) eqn:Hcase.
  - apply Nat.leb_le in Hcase.
    destruct (Hc valid 25 Hcase) as (Hlen & Hnd & Hlt).
    cbn [fst snd].
    assert (Hcomb : combine
              (take_idx (fst (np_where (valid_mask seed))) (random_choice w valid 25))
              (take_idx (snd (np_where (valid_mask seed))) (random_choice w valid 25))
            = map (fun i => nth i (where_rows 0 (valid_mask seed)) (0, 0))
                  (random_choice w valid 25)).
    { unfold np_where. cbn [fst snd]. apply combine_take_idx. }
    rewrite Hcomb. unfold take_idx. rewrite !length_map, Hlen.
    assert (Hlt' : Forall (fun i => i < length (where_rows 0 (valid_mask seed)))
                          (random_choice w valid 25)).
    { rewrite where_rows_length. exact Hlt. }
    repeat split; try lia.
    + apply NoDup_map_nth; [apply where_rows_NoDup | exact Hnd | exact Hlt'].
    + intros y x Hyx. apply Hin. apply in_map_iff in Hyx.
      destruct Hyx as (i & <- & Hi). apply nth_In.
      rewrite Forall_forall in Hlt'. now apply Hlt'.
  - apply Nat.leb_gt in Hcase. cbn [fst snd].
    rewrite Hpairs, Hly, Hlx, where_rows_length. fold valid.
    repeat split; try lia.
    + apply where_rows_NoDup.
    + intros y x. apply Hin.
    + intros y x. apply Hin.
Qed.

End Selection.

Lemma bench_choice_contract {F : Type} `{Float64 F} script :
  choice_contract (bench_world script).
Proof.
  intros n k Hk. simpl. rewrite length_seq. repeat split.
  - apply seq_NoDup.
  - apply Forall_forall. intros i Hi. apply in_seq in Hi. lia.
Qed.

Lemma drawing_last_choice_contract {F : Type} `{Float64 F} (w : World F) :
  choice_contract (drawing_last w).
Proof.
  intros n k Hk. cbn [drawing_last random_choice]. unfold last_indices.
  rewrite length_map, length_seq. split; [reflexivity |]. split.
  - apply NoDup_map_NoDup_ForallPairs; [| apply seq_NoDup].
    intros i j Hi Hj E. apply in_seq in Hi, Hj. lia.
  - apply Forall_forall. intros i Hi. apply in_map_iff in Hi.
    destruct Hi as (j & <- & Hj). apply in_seq in Hj. lia.
Qed.

Lemma select_points_spec_witness :
  np_any (valid_mask (uniform_frame 6 6 1000)) = true /\
  snd (select_points (drawing_last (bench_world (F:=float) []))
         (valid_mask (uniform_frame 6 6 1000)))
  = 25 /\
  points_of (select_points (drawing_last (bench_world (F:=float) []))
               (valid_mask (uniform_frame 6 6 1000)))
  = map (fun i => ((35 - i) / 6, (35 - i) mod 6)) (seq 0 25) /\
  snd (select_points (bench_world (F:=float) []) (valid_mask (uniform_frame 2 3 1000)))
  = 6.
Proof.
  split; [reflexivity |].
  destruct (@select_points_spec float (drawing_last (bench_world []))
              (uniform_frame 6 6 1000) (drawing_last_choice_contract _) eq_refl)
    as (_ & _ & _ & _ & _ & _ & _ & _ & _ & Hmany & _).
  destruct Hmany as [Htarget Hpoints]; [vm_compute; lia |].
  split; [exact Htarget |]. split; [rewrite Hpoints; reflexivity |].
  apply (@select_points_spec float (bench_world [])
           (uniform_frame 2 3 1000) (bench_choice_contract []) eq_refl).
  vm_compute. lia.
Defined.

(* ------------------------------------------------------------------ *)
(** * The repeatability procedure *)

Section Repeatability.
Context {F : Type} `{Float64 F}.

Lemma capture_random_choice (self : Tester F) (w : World F) :
  random_choice (snd (capture_single_frame self w)) = random_choice w.
Proof.
  unfold capture_single_frame, DeviceStreamRead.
  destruct (negb (is_connected self)); [reflexivity |].
  destruct (reads w) as [|[latency [frames | msg]] rest]; simpl;
    try reflexivity; destruct frames; reflexivity.
Qed.

Lemma capture_choice_contract (self : Tester F) (w : World F) :
  choice_contract w -> choice_contract (snd (capture_single_frame self w)).
Proof.
  intros Hc n k Hk. rewrite capture_random_choice. now apply Hc.
Qed.

Lemma record_point_length self depth_data y x (s : list F) :
  length s <= length (record_point self depth_data y x s) <= S (length s).
Proof.
  unfold record_point.
  destruct (_ && _); [| lia].
  destruct (valid_raw _); [| lia].
  rewrite length_app. simpl. lia.
Qed.

Lemma record_points_length self depth_data ys xs (pd : list (list F)) :
  length (record_points self depth_data ys xs pd) = length pd.
Proof.
  revert xs pd. induction ys as [|y ys IH]; intros [|x xs] [|s pd]; simpl;
    try reflexivity.
  now rewrite IH.
Qed.

Lemma record_points_bound self depth_data ys xs (pd : list (list F)) m :
  Forall (fun s => length s <= m) pd ->
  Forall (fun s => length s <= S m) (record_points self depth_data ys xs pd).
Proof.
  intros Hpd. revert ys xs.
  induction Hpd as [|s pd Hs Hpd IH]; intros ys xs.
  - destruct ys, xs; constructor.
  - destruct ys as [|y ys], xs as [|x xs]; simpl;
      try (constructor; [lia | eapply Forall_impl; [| exact Hpd]; simpl; intros; lia]).
    constructor; [| apply IH].
    pose proof (record_point_length self depth_data y x s). lia.
Qed.

Lemma repeat_loop_length n self ys xs (pd : list (list F)) sc w :
  length (fst (fst (repeat_loop n self ys xs pd sc w))) = length pd.
Proof.
  revert pd sc w. induction n as [|n IH]; intros pd sc w; simpl.
  - reflexivity.
  - destruct (capture_single_frame self (sleep (of_int 1) w)) as [[depth_data |] w'].
    + rewrite IH. apply record_points_length.
    + apply IH.
Qed.

(** A point gains at most one sample per turn of the loop. *)
Lemma repeat_loop_bound n self ys xs (pd : list (list F)) sc w m :
  Forall (fun s => length s <= m) pd ->
  Forall (fun s => length s <= m + n) (fst (fst (repeat_loop n self ys xs pd sc w))).
Proof.
  revert pd sc w m. induction n as [|n IH]; intros pd sc w m Hpd; simpl.
  - rewrite Nat.add_0_r. exact Hpd.
  - replace (m + S n) with (S m + n) by lia.
    destruct (capture_single_frame self (sleep (of_int 1) w)) as [[depth_data |] w'].
    + apply IH. now apply record_points_bound.
    + apply IH. eapply Forall_impl; [| exact Hpd]. simpl. intros. lia.
Qed.

Lemma analyse_points_in i0 ys xs (pd : list (list F)) p :
  length ys = length pd -> length xs = length pd ->
  In p (analyse_points i0 ys xs pd)
  <-> exists j, j < length pd /\ 2 <= length (nth j pd []) /\
                p = point_stats (i0 + j) (nth j xs 0) (nth j ys 0) (nth j pd []).
Proof.
  revert i0 ys xs. induction pd as [|s pd IH]; intros i0 ys xs Hy Hx.
  - destruct ys, xs; simpl; split; try tauto; intros (j & Hj & _); inversion Hj.
  - destruct ys as [|y ys]; [discriminate |]. destruct xs as [|x xs]; [discriminate |].
    simpl in Hy, Hx. injection Hy as Hy. injection Hx as Hx.
    cbn [analyse_points]. rewrite in_app_iff, (IH (S i0) ys xs Hy Hx). split.
    + intros [Hhead | (j & Hj & Hlen & Ep)].
      * destruct (2 <=? length s) eqn:E; [| destruct Hhead].
        destruct Hhead as [<- | []]. apply Nat.leb_le in E.
        exists 0. rewrite Nat.add_0_r. simpl. repeat split; [lia | exact E].
      * exists (S j). simpl. replace (i0 + S j) with (S i0 + j) by lia.
        repeat split; [lia | exact Hlen | exact Ep].
    + intros ([|j] & Hj & Hlen & Ep); cbn [nth length] in Hj, Hlen, Ep.
      * left. apply Nat.leb_le in Hlen. rewrite Hlen.
        rewrite Nat.add_0_r in Ep. now left.
      * right. exists j. replace (S i0 + j) with (i0 + S j) by lia.
        repeat split; [lia | exact Hlen | exact Ep].
Qed.

Lemma analyse_points_nil i0 ys xs (pd : list (list F)) :
  length ys = length pd -> length xs = length pd ->
  analyse_points i0 ys xs pd = [] <-> Forall (fun s => length s < 2) pd.
Proof.
  revert i0 ys xs. induction pd as [|s pd IH]; intros i0 ys xs Hy Hx.
  - destruct ys, xs; simpl; split; auto.
  - destruct ys as [|y ys]; [discriminate |]. destruct xs as [|x xs]; [discriminate |].
    simpl in Hy, Hx. injection Hy as Hy. injection Hx as Hx.
    cbn [analyse_points]. destruct (2 <=? length s) eqn:E.
    + apply Nat.leb_le in E. split; [discriminate |].
      intros Hall. inversion Hall; subst. lia.
    + apply Nat.leb_gt in E. simpl. rewrite (IH (S i0) ys xs Hy Hx). split.
      * intros Hall. now constructor.
      * intros Hall. now inversion Hall.
Qed.

Lemma repeatability_report_error count ys xs t (pd : list (list F)) sc :
  analyse_points 0 ys xs pd = [] ->
  repeatability_report count ys xs t pd sc = Returns (error_dict err_no_point_data).
Proof. intros E. unfold repeatability_report. now rewrite E. Qed.

Lemma repeatability_report_ok count ys xs t (pd : list (list F)) sc :
  analyse_points 0 ys xs pd <> [] -> count <> 0%Z ->
  exists d,
    repeatability_report count ys xs t pd sc = Returns d /\
    lookup (KStr "error") d = None /\
    lookup (KStr "overall_stats") d
    = Some (VDict (overall_stats (analyse_points 0 ys xs pd))) /\
    lookup (KStr "point_analysis") d
    = Some (VList (map point_value (analyse_points 0 ys xs pd))) /\
    lookup (KStr "raw_depth_data") d = Some (raw_depth_data pd).
Proof.
  intros Hne Hcount. unfold repeatability_report.
  destruct (analyse_points 0 ys xs pd) as [|p rest] eqn:E; [congruence |].
  cbn [length Nat.eqb]. unfold py_truediv.
  destruct (count =? 0)%Z eqn:Ec; [apply Z.eqb_eq in Ec; contradiction |].
  eexists. split; [reflexivity |]. repeat split.
Qed.

(** What [test_repeatability] returns, in terms of the samples it
    collected. *)
Lemma test_repeatability_cases (self : Tester F) (w : World F) :
  choice_contract w ->
  match repeatability_samples self w with
  | None =>
      fst (test_repeatability self w) = Returns (error_dict err_no_initial_frame) \/
      fst (test_repeatability self w) = Returns (error_dict err_no_valid_region)
  | Some (ys, xs, point_data) =>
      length ys = length point_data /\ length xs = length point_data /\
      (Forall (fun s => length s < 2) point_data ->
         fst (test_repeatability self w) = Returns (error_dict err_no_point_data)) /\
      (~ Forall (fun s => length s < 2) point_data ->
         exists d,
           fst (test_repeatability self w) = Returns d /\
           lookup (KStr "error") d = None /\
           lookup (KStr "overall_stats") d
           = Some (VDict (overall_stats (analyse_points 0 ys xs point_data))) /\
           lookup (KStr "point_analysis") d
           = Some (VList (map point_value (analyse_points 0 ys xs point_data))) /\
           lookup (KStr "raw_depth_data") d = Some (raw_depth_data point_data))
  end.
Proof.
  intros Hc. unfold repeatability_samples, test_repeatability.
  pose proof (capture_choice_contract self Hc) as Hc1.
  destruct (capture_single_frame self w) as [[initial_depth |] w1]; [| now left].
  simpl in Hc1.
  destruct (np_any (valid_mask initial_depth)) eqn:Hany; cbn [negb]; [| now right].
  pose proof (select_points_lengths (valid_mask initial_depth) Hc1) as Hsel.
  destruct (select_points w1 (valid_mask initial_depth)) as [[ys xs] t].
  cbn [fst snd] in Hsel. destruct Hsel as (Hly & Hlx).
  set (count := repeatability_test_count (test_params self)).
  pose proof (repeat_loop_length (Z.to_nat count) self ys xs (repeat [] t) 0%Z w1) as Hlen.
  pose proof (@repeat_loop_bound (Z.to_nat count) self ys xs (repeat [] t) 0%Z w1 0) as Hb.
  destruct (repeat_loop (Z.to_nat count) self ys xs (repeat [] t) 0%Z w1)
    as [[pd sc] w2].
  cbn [fst snd] in *. rewrite repeat_length in Hlen.
  assert (Hy : length ys = length pd) by congruence.
  assert (Hx : length xs = length pd) by congruence.
  split; [exact Hy |]. split; [exact Hx |]. split.
  - intros Hshort. apply repeatability_report_error.
    now apply analyse_points_nil.
  - intros Hlong. apply repeatability_report_ok.
    + intros E. apply Hlong. now apply (analyse_points_nil 0 ys xs pd Hy Hx).
    + intros Ecount. apply Hlong.
      assert (Hz : Forall (fun s : list F => length s <= 0 + Z.to_nat count) pd).
      { apply Hb. apply Forall_forall. intros s Hs.
        apply repeat_spec in Hs. subst. simpl. lia. }
      rewrite Ecount in Hz. simpl in Hz.
      eapply Forall_impl; [| exact Hz]. simpl. intros. lia.
Qed.

(** C2, as amended.  [run_test] records the repeatability procedure with
    [success = true] and no error message in every case.  What tells the
    outcomes apart is the returned dictionary: once points are selected it
    is the error-only dictionary exactly when no selected point has
    collected two samples; [point_analysis] holds exactly the points with
    at least two samples, in index order; and a run with a qualifying point
    returns the sample sequences of all selected points under
    [raw_depth_data].  A run that ends before selecting points (no seed
    frame, no valid region) returns an error-only dictionary as well. *)
Theorem repeatability_error_iff_no_qualifying_point
  (self : Tester F) (w : World F) (name : string) :
  choice_contract w ->
  let r := fst (fst (run_test test_repeatability name self w)) in
  success r = true /\ error_message r = None /\
  match repeatability_samples self w with
  | None =>
      data r = error_dict err_no_initial_frame \/
      data r = error_dict err_no_valid_region
  | Some (ys, xs, point_data) =>
      (Forall (fun s => length s < 2) point_data
       <-> data r = error_dict err_no_point_data) /\
      (forall p, In p (analyse_points 0 ys xs point_data)
         <-> exists i, i < length point_data /\
                       2 <= length (nth i point_data []) /\
                       p = point_stats i (nth i xs 0) (nth i ys 0)
                             (nth i point_data [])) /\
      (~ Forall (fun s => length s < 2) point_data ->
         lookup (KStr "point_analysis") (data r)
         = Some (VList (map point_value (analyse_points 0 ys xs point_data))) /\
         lookup (KStr "raw_depth_data") (data r)
         = Some (raw_depth_data point_data))
  end.
Proof.
  intros Hc r. unfold r. rewrite run_test_result.
  pose proof (test_repeatability_cases self Hc) as Hcases.
  destruct (repeatability_samples self w) as [[[ys xs] pd] |].
  - destruct Hcases as (Hy & Hx & Hshort & Hlong).
    destruct (Forall_dec (fun s : list F => length s < 2)
                (fun s => lt_dec (length s) 2) pd) as [Hall | Hnot].
    + rewrite (Hshort Hall). cbn [result_of success error_message data].
      repeat split; auto; try contradiction.
      * intros Hp. now apply (analyse_points_in 0 ys xs pd p Hy Hx) in Hp.
      * intros Hp. now apply (analyse_points_in 0 ys xs pd p Hy Hx).
    + destruct (Hlong Hnot) as (d & Ed & Herr & _ & Hpa & Hraw).
      rewrite Ed. cbn [result_of success error_message data].
      repeat split; auto; try contradiction.
      * intros E. rewrite E in Herr. discriminate.
      * intros Hp. now apply (analyse_points_in 0 ys xs pd p Hy Hx) in Hp.
      * intros Hp. now apply (analyse_points_in 0 ys xs pd p Hy Hx).
  - destruct Hcases as [E | E]; rewrite E;
      cbn [result_of success error_message data]; auto.
Qed.

End Repeatability.

Lemma repeatability_error_iff_no_qualifying_point_witness :
  success (fst (fst (run_test test_repeatability name_repeatability
                       (bench_tester (F:=float) short_params)
                       (bench_world (repeat (delivers (uniform_frame 2 2 1000)) 4)))))
  = true.
Proof.
  apply (@repeatability_error_iff_no_qualifying_point float Binary64
           (bench_tester short_params)
           (bench_world (repeat (delivers (uniform_frame 2 2 1000)) 4))
           name_repeatability (bench_choice_contract _)).
Defined.

(** A seed frame with a valid region followed by a camera that delivers
    nothing more: no selected point collects a sample, the procedure
    returns its error dictionary, and the recorded [TestResult] is a
    success. *)
Lemma repeatability_without_samples_is_recorded_as_success :
  success (fst (fst (run_test test_repeatability name_repeatability
                       (bench_tester (F:=float) default_params)
                       (bench_world [delivers (uniform_frame 2 2 1000)]))))
  = true /\
  data (fst (fst (run_test test_repeatability name_repeatability
                    (bench_tester (F:=float) default_params)
                    (bench_world [delivers (uniform_frame 2 2 1000)]))))
  = error_dict err_no_point_data /\
  match repeatability_samples (bench_tester (F:=float) default_params)
          (bench_world [delivers (uniform_frame 2 2 1000)]) with
  | Some (_, _, point_data) =>
      length point_data = 4 /\
      forallb (fun s => length s <? 2) point_data = true
  | None => False
  end.
Proof. vm_compute. repeat split. Qed.

(* ------------------------------------------------------------------ *)
(** * The stability procedure *)

Section Stability.
Context {F : Type} `{Float64 F}.

Lemma stability_step_world self start_time interval (ms : list Measurement) (w : World F) :
  snd (stability_step self start_time interval ms w)
  = snd (stability_step self start_time interval [] w).
Proof.
  unfold stability_step.
  destruct (capture_single_frame self w) as [depth w1]. reflexivity.
Qed.

Lemma stability_step_measurements self start_time interval (ms : list Measurement)
  (w : World F) :
  length (fst (stability_step self start_time interval ms w))
  = length ms
    + (if carries_valid_region (fst (capture_single_frame self w)) then 1 else 0).
Proof.
  unfold stability_step, carries_valid_region.
  destruct (capture_single_frame self w) as [[depth_data |] w1]; cbn [fst].
  - destruct (np_any (valid_mask depth_data)); [| lia].
    rewrite length_app. reflexivity.
  - lia.
Qed.

(** One measurement per acquired frame that carries a valid region. *)
Lemma stability_loop_count turns self start_time duration interval
  (ms : list Measurement) (w : World F) ms' w' :
  stability_loop turns self start_time duration interval ms w = Some (ms', w') ->
  length ms'
  = length ms
    + length (filter carries_valid_region
                (stability_frames turns self start_time duration interval w)).
Proof.
  revert ms w. induction turns as [|turns IH]; intros ms w;
    cbn [stability_loop stability_frames];
    destruct (fltb (fsub (now w) start_time) (of_int duration));
    try discriminate;
    try (intros E; injection E as <- <-; cbn [filter length]; lia).
  pose proof (stability_step_world self start_time interval ms w) as Ew.
  pose proof (stability_step_measurements self start_time interval ms w) as Em.
  destruct (stability_step self start_time interval ms w) as [ms1 w1].
  cbn [fst snd] in Ew, Em. intros E. apply IH in E. rewrite E, Em, Ew. cbn [filter].
  destruct (carries_valid_region (fst (capture_single_frame self w)));
    cbn [length]; lia.
Qed.

(** A loop that has ended has found its condition false. *)
Lemma stability_loop_exit turns self start_time duration interval
  (ms : list Measurement) (w : World F) ms' w' :
  stability_loop turns self start_time duration interval ms w = Some (ms', w') ->
  fltb (fsub (now w') start_time) (of_int duration) = false.
Proof.
  revert ms w. induction turns as [|turns IH]; intros ms w; cbn [stability_loop];
    destruct (fltb (fsub (now w) start_time) (of_int duration)) eqn:Econd;
    try discriminate;
    try (intros E; injection E as <- <-; exact Econd).
  destruct (stability_step self start_time interval ms w) as [ms1 w1]. apply IH.
Qed.

(** More turns than the loop takes change nothing, in what it returns and
    in what it acquires. *)
Lemma stability_loop_stable turns extra self start_time duration interval
  (ms : list Measurement) (w : World F) r :
  stability_loop turns self start_time duration interval ms w = Some r ->
  stability_loop (turns + extra) self start_time duration interval ms w = Some r.
Proof.
  revert ms w. induction turns as [|turns IH]; intros ms w;
    cbn [Nat.add stability_loop].
  - destruct (fltb (fsub (now w) start_time) (of_int duration)) eqn:Econd;
      [discriminate |].
    intros E. destruct extra; cbn [stability_loop]; now rewrite Econd.
  - destruct (fltb (fsub (now w) start_time) (of_int duration)); [| auto].
    destruct (stability_step self start_time interval ms w) as [ms1 w1]. apply IH.
Qed.

Lemma stability_frames_stable turns extra self start_time duration interval
  (ms : list Measurement) (w : World F) r :
  stability_loop turns self start_time duration interval ms w = Some r ->
  stability_frames (turns + extra) self start_time duration interval w
  = stability_frames turns self start_time duration interval w.
Proof.
  revert ms w. induction turns as [|turns IH]; intros ms w;
    cbn [Nat.add stability_loop stability_frames].
  - destruct (fltb (fsub (now w) start_time) (of_int duration)) eqn:Econd;
      [discriminate |].
    intros _. destruct extra; cbn [stability_frames]; [reflexivity |].
    now rewrite Econd.
  - destruct (fltb (fsub (now w) start_time) (of_int duration)); [| reflexivity].
    pose proof (stability_step_world self start_time interval ms w) as Ew.
    destruct (stability_step self start_time interval ms w) as [ms1 w1].
    cbn [snd] in Ew. intros E. f_equal. rewrite <- Ew. now apply (IH ms1).
Qed.

Lemma filter_all_false {T} (g : T -> bool) (l : list T) :
  Forall (fun a => g a = false) l -> filter g l = [].
Proof.
  induction 1 as [|a l Ha _ IH]; simpl; [reflexivity |]. now rewrite Ha.
Qed.

(** With no measurement the report has the integer 0 as success rate and
    the empty mapping as metrics, and nothing is divided. *)
Lemma stability_report_empty duration (interval : F) :
  stability_report duration interval []
  = Returns [(KStr "duration", VInt duration);
             (KStr "total_measurements", VInt 0);
             (KStr "success_rate", VInt 0);
             (KStr "stability_metrics", VDict []);
             (KStr "measurements", VList [])].
Proof. reflexivity. Qed.

Lemma test_stability_without_valid_region turns (self : Tester F) (w w' : World F) o :
  let duration := stability_test_duration (test_params self) in
  test_stability_within turns self w = Some (o, w') ->
  Forall (fun depth => carries_valid_region depth = false)
    (stability_frames turns self (now w) duration lit_1_0 w) ->
  o = Returns [(KStr "duration", VInt duration);
               (KStr "total_measurements", VInt 0);
               (KStr "success_rate", VInt 0);
               (KStr "stability_metrics", VDict []);
               (KStr "measurements", VList [])].
Proof.
  intros duration. unfold test_stability_within. fold duration.
  destruct (stability_loop turns self (now w) duration lit_1_0 [] w)
    as [[ms w1] |] eqn:Eloop; [| discriminate].
  intros E Hnone. injection E as <- <-.
  apply stability_loop_count in Eloop.
  rewrite (filter_all_false _ Hnone) in Eloop.
  destruct ms; [apply stability_report_empty | discriminate].
Qed.

(** A camera whose script is used up delivers no frame. *)
Lemma capture_no_reads (self : Tester F) (w : World F) :
  reads w = [] ->
  fst (capture_single_frame self w) = None /\
  reads (snd (capture_single_frame self w)) = [].
Proof.
  intros E. unfold capture_single_frame, DeviceStreamRead.
  destruct (negb (is_connected self)); [now split |].
  rewrite E. now split.
Qed.

Lemma stability_step_no_reads self start_time interval (ms : list Measurement)
  (w : World F) :
  reads w = [] -> reads (snd (stability_step self start_time interval ms w)) = [].
Proof.
  intros E. unfold stability_step.
  destruct (capture_no_reads self w E) as [_ E1].
  destruct (capture_single_frame self w) as [depth w1]. cbn [fst snd] in *.
  destruct (fltb _ _); [exact E1 | exact E1].
Qed.

Lemma stability_frames_no_reads turns self start_time duration interval (w : World F) :
  reads w = [] ->
  Forall (fun o => carries_valid_region o = false)
    (stability_frames turns self start_time duration interval w).
Proof.
  revert w. induction turns as [|turns IH]; intros w E; simpl.
  - constructor.
  - destruct (fltb _ _); [| constructor].
    constructor.
    + now rewrite (proj1 (capture_no_reads self w E)).
    + apply IH. now apply stability_step_no_reads.
Qed.

End Stability.

Section StabilityReal.

Local Open Scope R_scope.

Lemma lit_1_0_real : @lit_1_0 R Exact = 1.
Proof. reflexivity. Qed.

Lemma stability_report_real (duration : Z) (ms : list (@Measurement R)) :
  (ms <> [] -> duration <> 0%Z) ->
  exists d,
    stability_report duration lit_1_0 ms = Returns d /\
    lookup (KStr "total_measurements") d = Some (VInt (Z.of_nat (length ms))) /\
    (exists v,
       lookup (KStr "success_rate") d = Some v /\
       as_real v
       = Some (INR (length ms) / IZR (Int_part (IZR duration / lit_1_0)))) /\
    (ms <> [] ->
       lookup (KStr "stability_metrics") d = Some (VDict (stability_metrics ms))) /\
    (ms = [] ->
       lookup (KStr "stability_metrics") d = Some (VDict []) /\
       lookup (KStr "success_rate") d = Some (VInt 0)).
Proof.
  intros Hpos.
  assert (Hfloor : Int_part (IZR duration / lit_1_0) = duration).
  { rewrite lit_1_0_real. unfold Rdiv.
    rewrite Rinv_1, Rmult_1_r. apply Int_part_IZR. }
  assert (Htrunc : ftrunc (fdiv (of_int duration) (@lit_1_0 R Exact)) = duration).
  { rewrite lit_1_0_real. cbn. unfold Rdiv.
    rewrite Rinv_1, Rmult_1_r. apply Rtrunc_IZR. }
  rewrite Hfloor. destruct ms as [|m ms].
  - eexists. split; [apply stability_report_empty |].
    split; [reflexivity |]. split; [| split].
    + exists (VInt 0). split; [reflexivity |]. simpl. f_equal. unfold Rdiv. ring.
    + congruence.
    + intros _. split; reflexivity.
  - unfold stability_report, py_truediv. rewrite Htrunc.
    destruct (duration =? 0)%Z eqn:Ez.
    { apply Z.eqb_eq in Ez. exfalso. now apply Hpos. }
    eexists. split; [reflexivity |].
    split; [reflexivity |]. split; [| split].
    + eexists. split; [reflexivity |]. cbn [as_real]. f_equal.
      cbn [fdiv of_int Exact]. now rewrite <- INR_IZR_INZ.
    + intros _. reflexivity.
    + discriminate.
Qed.

(** Over the reals a turn lasts at least the interval of one second:
    what the acquisition leaves of it is slept. *)
Lemma stability_step_advances (self : Tester R) start_time ms (w : World R) :
  now w + 1 <= now (snd (stability_step self start_time lit_1_0 ms w)).
Proof.
  unfold stability_step.
  destruct (capture_single_frame self w) as [depth w1]. cbn [snd].
  rewrite lit_1_0_real. cbn [fltb fsub Exact].
  destruct (Rltb (now w1 - now w) 1) eqn:E.
  - unfold sleep. cbn. lra.
  - apply Rltb_false in E. lra.
Qed.

(** So the loop comes to an end within [duration] turns. *)
Lemma stability_loop_terminates turns (self : Tester R) start_time duration ms
  (w : World R) :
  IZR duration - INR turns <= now w - start_time ->
  stability_loop turns self start_time duration lit_1_0 ms w <> None.
Proof.
  revert ms w. induction turns as [|turns IH]; intros ms w Hclock;
    cbn [stability_loop fltb fsub of_int Exact];
    destruct (Rltb (now w - start_time) (IZR duration)) eqn:Econd; try discriminate.
  - apply Rltb_true in Econd. simpl in Hclock. lra.
  - pose proof (stability_step_advances self start_time ms w) as Hstep.
    destruct (stability_step self start_time lit_1_0 ms w) as [ms1 w1].
    cbn [snd] in Hstep. apply IH. rewrite S_INR in Hclock. lra.
Qed.

Lemma test_stability_loop_terminates (self : Tester R) (w : World R) :
  let duration := stability_test_duration (test_params self) in
  stability_loop (Z.to_nat duration) self (now w) duration lit_1_0 [] w <> None.
Proof.
  intros duration. apply stability_loop_terminates.
  destruct (Z.le_gt_cases 0 duration) as [Hd | Hd].
  - rewrite INR_IZR_INZ, Z2Nat.id by exact Hd. lra.
  - replace (Z.to_nat duration) with 0%nat by lia.
    apply IZR_lt in Hd. simpl. lra.
Qed.

(** C8.  The stability report over the reals.  The procedure returns: its
    loop ends within [duration] turns, every turn lasting at least the
    interval of one second, and a larger bound on the turns changes
    neither the outcome nor the acquisitions; it never divides by zero.
    [total_measurements] counts the recorded measurements, one per
    acquired frame with a valid region; [success_rate] is that count
    divided by floor(duration / interval); when no acquired frame carries
    a valid region [stability_metrics] is the empty mapping and
    [success_rate] is 0. *)
Theorem stability_success_rate (self : Tester R) (w : World R) :
  let duration := stability_test_duration (test_params self) in
  let interval : R := lit_1_0 in
  let acquired :=
    stability_frames (Z.to_nat duration) self (now w) duration interval w in
  exists d measurements w',
    stability_loop (Z.to_nat duration) self (now w) duration interval [] w
    = Some (measurements, w') /\
    test_stability_within (Z.to_nat duration) self w = Some (Returns d, w') /\
    (forall extra,
       test_stability_within (Z.to_nat duration + extra) self w
       = Some (Returns d, w') /\
       stability_frames (Z.to_nat duration + extra) self (now w) duration interval w
       = acquired) /\
    length measurements = length (filter carries_valid_region acquired) /\
    lookup (KStr "total_measurements") d
    = Some (VInt (Z.of_nat (length measurements))) /\
    (exists v,
       lookup (KStr "success_rate") d = Some v /\
       as_real v
       = Some (INR (length measurements)
               / IZR (Int_part (IZR duration / interval)))) /\
    (measurements <> [] ->
       lookup (KStr "stability_metrics") d
       = Some (VDict (stability_metrics measurements))) /\
    (Forall (fun o => carries_valid_region o = false) acquired ->
       lookup (KStr "stability_metrics") d = Some (VDict []) /\
       lookup (KStr "success_rate") d = Some (VInt 0)).
Proof.
  cbv zeta. pose proof (test_stability_loop_terminates self w) as Hterm.
  cbv zeta in Hterm. unfold test_stability_within.
  revert Hterm. generalize (stability_test_duration (test_params self)).
  intros duration Hterm.
  destruct (stability_loop (Z.to_nat duration) self (now w) duration lit_1_0 [] w)
    as [[ms w'] |] eqn:Eloop; [clear Hterm | congruence].
  pose proof (stability_loop_count _ _ _ _ _ _ _ Eloop) as Hcount.
  cbn [length Nat.add] in Hcount.
  assert (Hpos : ms <> [] -> duration <> 0%Z).
  { intros Hne Ez. apply Hne. rewrite Ez in Eloop. cbn in Eloop.
    destruct (Rltb (now w - now w) 0); [discriminate |]. congruence. }
  destruct (stability_report_real Hpos) as (d & Ed & Htotal & Hrate & Hmetrics & Hnone).
  exists d, ms, w'. split; [reflexivity |]. split; [now rewrite Ed |].
  split.
  { intros extra. split.
    - rewrite (stability_loop_stable _ extra _ _ _ _ _ _ Eloop). now rewrite Ed.
    - apply (stability_frames_stable _ extra _ _ _ _ _ _ Eloop). }
  split; [exact Hcount |]. split; [exact Htotal |].
  split; [exact Hrate |]. split; [exact Hmetrics |].
  intros Hacq. apply Hnone.
  rewrite (filter_all_false _ Hacq) in Hcount. now destruct ms.
Qed.

Lemma stability_success_rate_witness :
  exists d w',
    test_stability_within 3 (bench_tester (F:=R) short_params) (bench_world [])
    = Some (Returns d, w') /\
    lookup (KStr "stability_metrics") d = Some (VDict []) /\
    lookup (KStr "success_rate") d = Some (VInt 0).
Proof.
  destruct (stability_success_rate (bench_tester (F:=R) short_params) (bench_world []))
    as (d & ms & w' & _ & Erun & _ & _ & _ & _ & _ & Hnone).
  exists d, w'. split; [exact Erun |]. apply Hnone.
  apply stability_frames_no_reads. reflexivity.
Defined.

End StabilityReal.

(* ------------------------------------------------------------------ *)
(** * The noise procedure *)

Section Noise.
Context {F : Type} `{Float64 F}.

(** The loop keeps at most one frame per turn. *)
Lemma noise_loop_length n (self : Tester F) depth_maps sc w :
  length (fst (fst (noise_loop n self depth_maps sc w))) <= length depth_maps + n.
Proof.
  revert depth_maps sc w. induction n as [|n IH]; intros depth_maps sc w; simpl.
  - lia.
  - destruct (capture_single_frame self w) as [[depth_data |] w'].
    + etransitivity; [apply IH |]. rewrite length_app. simpl. lia.
    + etransitivity; [apply IH |]. lia.
Qed.

Lemma noise_report_too_few (self : Tester F) count depth_maps sc :
  length depth_maps < 2 ->
  noise_report self count depth_maps sc = Returns (error_dict err_noise_insufficient).
Proof.
  intros Hlen. unfold noise_report.
  destruct (length depth_maps <? 2) eqn:E; [reflexivity |].
  apply Nat.ltb_ge in E. lia.
Qed.

(** A stack with no valid pixel mean: the three noise figures are the
    integer 0 and no statistic of the empty region is computed. *)
Lemma noise_report_no_valid_region (self : Tester F) count depth_maps sc :
  2 <= length depth_maps ->
  same_shape depth_maps = true ->
  np_any (map (map valid_mean) (along_axis0 np_mean depth_maps)) = false ->
  count <> 0%Z ->
  exists d,
    noise_report self count depth_maps sc = Returns d /\
    lookup (KStr "error") d = None /\
    lookup (KStr "noise_mean") d = Some (VInt 0) /\
    lookup (KStr "noise_std") d = Some (VInt 0) /\
    lookup (KStr "noise_max") d = Some (VInt 0).
Proof.
  intros Hlen Hshape Hany Hcount. unfold noise_report.
  destruct (length depth_maps <? 2) eqn:E; [apply Nat.ltb_lt in E; lia |].
  rewrite Hshape, Hany. cbn [negb]. unfold py_truediv.
  destruct (count =? 0)%Z eqn:Ec; [apply Z.eqb_eq in Ec; contradiction |].
  eexists. split; [reflexivity |]. repeat split.
Qed.

Lemma test_noise_count_nonzero (self : Tester F) (w : World F) :
  2 <= length (fst (fst (noise_loop (Z.to_nat (noise_test_count (test_params self)))
                           self [] 0%Z w))) ->
  noise_test_count (test_params self) <> 0%Z.
Proof.
  intros Hlen E.
  pose proof (noise_loop_length (Z.to_nat (noise_test_count (test_params self)))
                self [] 0%Z w) as Hb.
  rewrite E in *. simpl in *. lia.
Qed.

Lemma same_shape_repeat {T} (fr : list (list T)) n : same_shape (repeat fr n) = true.
Proof.
  destruct n as [|n]; [reflexivity |]. cbn [repeat same_shape].
  apply forallb_forall. intros g Hg. apply repeat_spec in Hg. subst.
  destruct (list_eq_dec Nat.eq_dec (row_lengths fr) (row_lengths fr)); congruence.
Qed.

Lemma map_seq_nth {A B} (h : A -> B) (l : list A) (d : A) :
  map (fun i => h (nth i l d)) (seq 0 (length l)) = map h l.
Proof.
  induction l as [|a l IH]; [reflexivity |].
  cbn [length seq map nth]. f_equal.
  rewrite <- seq_shift, map_map. exact IH.
Qed.

(** Along axis 0 of a stack of identical frames every pixel series is
    constant. *)
Lemma along_axis0_repeat (g : list F -> F) (fr : list (list F)) n :
  0 < n ->
  along_axis0 g (repeat fr n) = map (map (fun v => g (repeat v n))) fr.
Proof.
  intros Hn. destruct n as [|n]; [lia |].
  change (repeat fr (S n)) with (fr :: repeat fr n) at 1.
  cbn [along_axis0].
  rewrite <- (map_seq_nth (map (fun v => g (repeat v (S n)))) fr []).
  apply map_ext. intros y.
  rewrite <- (map_seq_nth (fun v => g (repeat v (S n))) (nth y fr []) (of_int 0)).
  apply map_ext. intros x. f_equal.
  unfold pixel_series.
  change (fr :: repeat fr n) with (repeat fr (S n)).
  apply map_repeat.
Qed.

Lemma masked_maps {A T} (g : A -> T) (h : A -> bool) (l : list A) :
  map fst (filter snd (combine (map g l) (map h l))) = map g (filter h l).
Proof.
  induction l as [|a l IH]; simpl; [reflexivity |].
  destruct (h a); simpl; now rewrite IH.
Qed.

End Noise.

Section NoiseReal.

Local Open Scope R_scope.

Lemma valid_mean_IZR (v : Z) : valid_mean (IZR v) = valid_raw v.
Proof.
  unfold valid_mean, valid_raw. cbn [fltb of_int Exact]. f_equal.
  - destruct (0 <? v)%Z eqn:E.
    + apply Rltb_true. apply IZR_lt. now apply Z.ltb_lt.
    + apply Rltb_false. apply IZR_le. now apply Z.ltb_ge.
  - destruct (v <? 65535)%Z eqn:E.
    + apply Rltb_true. apply IZR_lt. now apply Z.ltb_lt.
    + apply Rltb_false. apply IZR_le. now apply Z.ltb_ge.
Qed.

Lemma np_mean_repeat (c : R) n : (0 < n)%nat -> np_mean (repeat c n) = c.
Proof. intros Hn. rewrite np_mean_real. now apply spec_mean_repeat. Qed.

Lemma np_std_repeat (c : R) n : (0 < n)%nat -> np_std (repeat c n) = 0.
Proof. intros Hn. rewrite np_std_real. now apply spec_std_repeat. Qed.

Lemma map_map_ext {A B} (g h : A -> B) (a : list (list A)) :
  (forall v, g v = h v) -> map (map g) a = map (map h) a.
Proof. intros E. apply map_ext. intros row. now apply map_ext. Qed.

(** The per-pixel mean of [n] copies of a frame is the frame, and the
    per-pixel standard deviation is 0 at every pixel. *)
Lemma mean_of_identical_frames (f : Frame) n :
  (0 < n)%nat ->
  along_axis0 np_mean (repeat (astype_float64 f) n) = astype_float64 f.
Proof.
  intros Hn. rewrite along_axis0_repeat by exact Hn.
  rewrite (map_map_ext _ (fun v => v) _ (fun v => np_mean_repeat v Hn)).
  rewrite <- (map_id (astype_float64 f)) at 2.
  apply map_ext. intros row. apply map_id.
Qed.

Lemma std_of_identical_frames (f : Frame) n :
  (0 < n)%nat ->
  along_axis0 np_std (repeat (astype_float64 f) n) = map (map (fun _ => 0)) f.
Proof.
  intros Hn. rewrite along_axis0_repeat by exact Hn.
  rewrite (map_map_ext _ (fun _ => 0) _ (fun v => np_std_repeat v Hn)).
  unfold astype_float64. rewrite map_map. apply map_ext. intros row.
  now rewrite map_map.
Qed.

Lemma mean_mask_of_identical_frames (f : Frame) n :
  (0 < n)%nat ->
  map (map valid_mean) (along_axis0 np_mean (repeat (astype_float64 f) n))
  = valid_mask f.
Proof.
  intros Hn. rewrite mean_of_identical_frames by exact Hn.
  unfold astype_float64, valid_mask. rewrite map_map. apply map_ext. intros row.
  rewrite map_map. apply map_ext. intros v. apply valid_mean_IZR.
Qed.

Lemma zero_region (f : Frame) :
  masked (map (map (fun _ : Z => 0)) f) (valid_mask f)
  = repeat 0 (mask_count (valid_mask f)).
Proof.
  unfold masked. rewrite concat_valid_mask, <- concat_map, masked_maps.
  rewrite mask_count_valid_mask.
  induction (filter valid_raw (concat f)) as [|v l IH]; simpl; [reflexivity |].
  now rewrite IH.
Qed.

Lemma to_mm_zero (self : Tester R) : to_mm self 0 = 0.
Proof. unfold to_mm. destruct (depth_scale_factor self); cbn; ring. Qed.

Lemma noise_report_identical_frames (self : Tester R) count sc (f : Frame) n :
  (2 <= n)%nat ->
  np_any (valid_mask f) = true ->
  count <> 0%Z ->
  exists d,
    noise_report self count (repeat (astype_float64 f) n) sc = Returns d /\
    lookup (KStr "noise_mean") d = Some (VFloat 0) /\
    lookup (KStr "noise_std") d = Some (VFloat 0) /\
    lookup (KStr "noise_max") d = Some (VFloat 0).
Proof.
  intros Hn Hany Hcount. unfold noise_report.
  rewrite repeat_length.
  destruct (n <? 2)%nat eqn:E; [apply Nat.ltb_lt in E; lia |].
  rewrite same_shape_repeat. cbn [negb].
  rewrite mean_mask_of_identical_frames, std_of_identical_frames by lia.
  rewrite Hany, zero_region.
  assert (Hk : (0 < mask_count (valid_mask f))%nat) by now apply np_any_count.
  rewrite np_mean_repeat, np_std_repeat, np_max_repeat, to_mm_zero by exact Hk.
  unfold py_truediv.
  destruct (count =? 0)%Z eqn:Ec; [apply Z.eqb_eq in Ec; contradiction |].
  eexists. split; [reflexivity |]. repeat split.
Qed.

(** C7.  A noise run whose captured stack is N >= 2 copies of one frame,
    some pixel mean of which lies in the valid range: the per-pixel
    standard deviation is 0 at every pixel, the procedure returns, and
    [noise_mean], [noise_std] and [noise_max] are all 0.  (Real
    arithmetic; on binary64 the sums of N equal integer samples are
    exact, see [noise_of_identical_frames_binary64].) *)
Theorem noise_of_identical_frames (self : Tester R) (w : World R) (f : Frame) (N : nat) :
  let count := noise_test_count (test_params self) in
  let stack := repeat (astype_float64 f) N in
  fst (fst (noise_loop (Z.to_nat count) self [] 0%Z w)) = stack ->
  (2 <= N)%nat ->
  np_any (map (map valid_mean) (along_axis0 np_mean stack)) = true ->
  along_axis0 np_std stack = map (map (fun _ => 0)) f /\
  exists d,
    fst (test_noise self w) = Returns d /\
    lookup (KStr "noise_mean") d = Some (VFloat 0) /\
    lookup (KStr "noise_std") d = Some (VFloat 0) /\
    lookup (KStr "noise_max") d = Some (VFloat 0).
Proof.
  intros count stack Hstack HN Hvalid.
  split; [apply std_of_identical_frames; lia |].
  unfold stack in Hvalid. rewrite mean_mask_of_identical_frames in Hvalid by lia.
  assert (Hcount : count <> 0%Z).
  { apply (test_noise_count_nonzero self w). fold count. rewrite Hstack.
    unfold stack. now rewrite repeat_length. }
  unfold test_noise. fold count.
  destruct (noise_loop (Z.to_nat count) self [] 0%Z w) as [[depth_maps sc] w'].
  cbn [fst] in *. subst depth_maps.
  apply noise_report_identical_frames; assumption.
Qed.

Lemma noise_of_identical_frames_witness :
  exists d,
    fst (test_noise (bench_tester (F:=R) short_params)
           (bench_world (repeat (delivers (uniform_frame 2 2 1000)) 3)))
    = Returns d /\
    lookup (KStr "noise_mean") d = Some (VFloat 0) /\
    lookup (KStr "noise_std") d = Some (VFloat 0) /\
    lookup (KStr "noise_max") d = Some (VFloat 0).
Proof.
  apply (@noise_of_identical_frames (bench_tester short_params)
           (bench_world (repeat (delivers (uniform_frame 2 2 1000)) 3))
           (uniform_frame 2 2 1000) 3).
  - reflexivity.
  - lia.
  - rewrite mean_mask_of_identical_frames by lia. reflexivity.
Defined.

End NoiseReal.

(** The same run on binary64: three identical 2x2 frames. *)
Example noise_of_identical_frames_binary64 :
  fst (test_noise (bench_tester (F:=float) short_params)
         (bench_world (repeat (delivers (uniform_frame 2 2 1000)) 3)))
  = Returns [(KStr "test_count", VInt 3);
             (KStr "success_count", VInt 3);
             (KStr "success_rate", VFloat 1%float);
             (KStr "noise_mean", VFloat 0%float);
             (KStr "noise_std", VFloat 0%float);
             (KStr "noise_max", VFloat 0%float);
             (KStr "mean_depth_shape", VTuple [VInt 2; VInt 2]);
             (KStr "valid_pixels_ratio", VFloat 1%float)].
Proof. vm_compute. reflexivity. Qed.

(* ------------------------------------------------------------------ *)
(** * How the harness records the procedures' error paths *)

Section Outcomes.
Context {F : Type} `{Float64 F}.

Lemma run_test_returns (test_func : Proc F) name self w d :
  fst (test_func self w) = Returns d ->
  success (fst (fst (run_test test_func name self w))) = true /\
  error_message (fst (fst (run_test test_func name self w))) = None /\
  data (fst (fst (run_test test_func name self w))) = d.
Proof. intros E. rewrite run_test_result, E. repeat split. Qed.

Lemma test_repeatability_no_seed (self : Tester F) (w w1 : World F) :
  capture_single_frame self w = (None, w1) ->
  test_repeatability self w = (Returns (error_dict err_no_initial_frame), w1).
Proof. intros E. unfold test_repeatability. now rewrite E. Qed.

Lemma test_repeatability_no_valid_region (self : Tester F) (w w1 : World F) seed :
  capture_single_frame self w = (Some seed, w1) ->
  np_any (valid_mask seed) = false ->
  test_repeatability self w = (Returns (error_dict err_no_valid_region), w1).
Proof. intros E Hany. unfold test_repeatability. now rewrite E, Hany. Qed.

Lemma test_noise_too_few (self : Tester F) (w : World F) :
  length (fst (fst (noise_loop (Z.to_nat (noise_test_count (test_params self)))
                      self [] 0%Z w))) < 2 ->
  fst (test_noise self w) = Returns (error_dict err_noise_insufficient).
Proof.
  intros Hlen. unfold test_noise.
  destruct (noise_loop _ self [] 0%Z w) as [[depth_maps sc] w'].
  cbn [fst] in *. now apply noise_report_too_few.
Qed.

(** C10.  [run_test] records a failure exactly when the procedure raised.
    A procedure that returns is recorded with [success = true], no error
    message and the returned dictionary as data; this includes the
    error-only dictionaries of the repeatability procedure (no seed frame,
    no valid region in it) and of the noise procedure (fewer than two
    captured frames). *)
Theorem run_test_success_iff_no_exception (test_func : Proc F) (name : string)
  (self : Tester F) (w : World F) :
  let r := fst (fst (run_test test_func name self w)) in
  let r_rep := fst (fst (run_test test_repeatability name self w)) in
  let r_noise := fst (fst (run_test test_noise name self w)) in
  (success r = false <-> exists msg, fst (test_func self w) = Raises msg) /\
  (forall d, fst (test_func self w) = Returns d ->
     success r = true /\ error_message r = None /\ data r = d) /\
  (forall w1, capture_single_frame self w = (None, w1) ->
     success r_rep = true /\ error_message r_rep = None /\
     data r_rep = error_dict err_no_initial_frame) /\
  (forall seed w1,
     capture_single_frame self w = (Some seed, w1) ->
     np_any (valid_mask seed) = false ->
     success r_rep = true /\ error_message r_rep = None /\
     data r_rep = error_dict err_no_valid_region) /\
  (length (fst (fst (noise_loop (Z.to_nat (noise_test_count (test_params self)))
                       self [] 0%Z w))) < 2 ->
     success r_noise = true /\ error_message r_noise = None /\
     data r_noise = error_dict err_noise_insufficient).
Proof.
  cbv zeta. split; [| split; [| split; [| split]]].
  - rewrite run_test_result. destruct (fst (test_func self w)) as [d | msg]; simpl.
    + split; [discriminate | intros [msg E]; discriminate].
    + split; [intros _; now exists msg | reflexivity].
  - intros d E. now apply run_test_returns.
  - intros w1 E. apply run_test_returns.
    now rewrite (@test_repeatability_no_seed self w w1 E).
  - intros seed w1 E Hany. apply run_test_returns.
    now rewrite (@test_repeatability_no_valid_region self w w1 seed E Hany).
  - intros Hlen. apply run_test_returns. now apply test_noise_too_few.
Qed.

(** C3, as amended.  Without a valid region no procedure computes a
    statistic of the empty region and none divides by zero, but only the
    repeatability procedure reports the missing region: when its seed
    frame has no valid pixel it returns the error-only dictionary naming
    it.  A stability run that ends without an acquired frame that carries
    a valid pixel returns a report with no measurement, success rate 0
    and the empty metrics.  The noise procedure takes its valid region
    from the per-pixel means of the captured frames, not from the frames:
    with at least two captured frames of one shape and no per-pixel mean
    strictly between 0 and 65535, it returns a report whose three noise
    figures are 0, without an error entry.  All three are normal returns,
    which [run_test] records with [success = true]. *)
Theorem no_valid_region_outcomes (self : Tester F) (w : World F) (name : string) :
  let duration := stability_test_duration (test_params self) in
  let count := noise_test_count (test_params self) in
  (forall seed w1,
     capture_single_frame self w = (Some seed, w1) ->
     np_any (valid_mask seed) = false ->
     test_repeatability self w = (Returns (error_dict err_no_valid_region), w1) /\
     success (fst (fst (run_test test_repeatability name self w))) = true) /\
  (forall turns o w',
     test_stability_within turns self w = Some (o, w') ->
     Forall (fun depth => carries_valid_region depth = false)
       (stability_frames turns self (now w) duration lit_1_0 w) ->
     o = Returns [(KStr "duration", VInt duration);
                  (KStr "total_measurements", VInt 0);
                  (KStr "success_rate", VInt 0);
                  (KStr "stability_metrics", VDict []);
                  (KStr "measurements", VList [])] /\
     forall test_stability : Proc F,
       test_stability self w = (o, w') ->
       success (fst (fst (run_test test_stability name self w))) = true) /\
  (forall depth_maps,
     fst (fst (noise_loop (Z.to_nat count) self [] 0%Z w)) = depth_maps ->
     2 <= length depth_maps ->
     same_shape depth_maps = true ->
     np_any (map (map valid_mean) (along_axis0 np_mean depth_maps)) = false ->
     (exists d,
        fst (test_noise self w) = Returns d /\
        lookup (KStr "error") d = None /\
        lookup (KStr "noise_mean") d = Some (VInt 0) /\
        lookup (KStr "noise_std") d = Some (VInt 0) /\
        lookup (KStr "noise_max") d = Some (VInt 0)) /\
     success (fst (fst (run_test test_noise name self w))) = true).
Proof.
  cbv zeta. split; [| split].
  - intros seed w1 E Hany.
    pose proof (@test_repeatability_no_valid_region self w w1 seed E Hany) as Er.
    split; [exact Er |]. eapply run_test_returns. now rewrite Er.
  - intros turns o w' Erun Hnone.
    pose proof (test_stability_without_valid_region _ _ _ Erun Hnone) as Es.
    split; [exact Es |].
    intros test_stability Ep. eapply run_test_returns. rewrite Ep. exact Es.
  - intros depth_maps Eloop Hlen Hshape Hany.
    assert (Hcount : noise_test_count (test_params self) <> 0%Z).
    { apply (test_noise_count_nonzero self w). now rewrite Eloop. }
    assert (Hd : exists d,
               fst (test_noise self w) = Returns d /\
               lookup (KStr "error") d = None /\
               lookup (KStr "noise_mean") d = Some (VInt 0) /\
               lookup (KStr "noise_std") d = Some (VInt 0) /\
               lookup (KStr "noise_max") d = Some (VInt 0)).
    { unfold test_noise.
      destruct (noise_loop _ self [] 0%Z w) as [[stack sc] w'].
      cbn [fst] in *. subst stack.
      now apply noise_report_no_valid_region. }
    split; [exact Hd |].
    destruct Hd as (d & Ed & _). eapply run_test_returns. exact Ed.
Qed.

End Outcomes.

Lemma run_test_success_iff_no_exception_witness :
  success (fst (fst (run_test test_noise name_noise
                       (bench_tester (F:=float) short_params) (bench_world []))))
  = true /\
  data (fst (fst (run_test test_noise name_noise
                    (bench_tester (F:=float) short_params) (bench_world []))))
  = error_dict err_noise_insufficient.
Proof.
  destruct (@run_test_success_iff_no_exception float Binary64 mock_returns
              name_noise (bench_tester short_params) (bench_world []))
    as (_ & _ & _ & _ & Hnoise).
  destruct Hnoise as (Hs & _ & Hd); [vm_compute; lia |].
  split; [exact Hs | exact Hd].
Defined.

Lemma no_valid_region_outcomes_witness :
  (exists w',
     test_stability_within 3 (bench_tester (F:=float) short_params)
       (bench_world (repeat (delivers (uniform_frame 2 2 0)) 3))
     = Some (Returns [(KStr "duration", VInt 3);
                      (KStr "total_measurements", VInt 0);
                      (KStr "success_rate", VInt 0);
                      (KStr "stability_metrics", VDict []);
                      (KStr "measurements", VList [])], w')) /\
  success (fst (fst (run_test test_noise name_noise
                       (bench_tester (F:=float) short_params)
                       (bench_world (repeat (delivers (uniform_frame 2 2 0)) 3)))))
  = true.
Proof.
  destruct (@no_valid_region_outcomes float Binary64
              (bench_tester short_params)
              (bench_world (repeat (delivers (uniform_frame 2 2 0)) 3))
              name_noise) as (_ & Hstability & Hnoise).
  split.
  - destruct (test_stability_within 3 (bench_tester (F:=float) short_params)
                (bench_world (repeat (delivers (uniform_frame 2 2 0)) 3)))
      as [[o w'] |] eqn:Erun; [| vm_compute in Erun; discriminate].
    exists w'. destruct (Hstability 3 o w' Erun) as [-> _]; [| reflexivity].
    vm_compute. repeat constructor.
  - apply (Hnoise _ eq_refl).
    + vm_compute. lia.
    + vm_compute. reflexivity.
    + vm_compute. reflexivity.
Defined.

(** Three frames with no valid pixel: the noise procedure reports no
    error, its figures are 0, and the result is recorded as a success; a
    stability run on a camera that delivers such frames returns a report
    without an error entry too.  And the noise procedure does compute
    statistics from frames without a valid pixel when their mean is in
    range: a pixel that reads 0 and then 65535. *)
Lemma no_valid_region_is_not_reported_as_failure :
  success (fst (fst (run_test test_noise name_noise
                       (bench_tester (F:=float) short_params)
                       (bench_world (repeat (delivers (uniform_frame 2 2 0)) 3)))))
  = true /\
  lookup (KStr "error")
    (data (fst (fst (run_test test_noise name_noise
                       (bench_tester (F:=float) short_params)
                       (bench_world (repeat (delivers (uniform_frame 2 2 0)) 3))))))
  = None /\
  lookup (KStr "noise_mean")
    (data (fst (fst (run_test test_noise name_noise
                       (bench_tester (F:=float) short_params)
                       (bench_world (repeat (delivers (uniform_frame 2 2 0)) 3))))))
  = Some (VInt 0) /\
  match test_stability_within 3 (bench_tester (F:=float) short_params)
          (bench_world (repeat (delivers (uniform_frame 2 2 0)) 3)) with
  | Some (Returns d, _) =>
      lookup (KStr "error") d = None /\
      lookup (KStr "total_measurements") d = Some (VInt 0)
  | _ => False
  end /\
  np_any (valid_mask [[0%Z]]) = false /\
  np_any (valid_mask [[65535%Z]]) = false /\
  lookup (KStr "noise_mean")
    (data (fst (fst (run_test test_noise name_noise
                       (bench_tester (F:=float) short_params)
                       (bench_world [delivers [[0%Z]]; delivers [[65535%Z]]])))))
  = Some (VFloat 327.675%float) /\
  lookup (KStr "noise_max")
    (data (fst (fst (run_test test_noise name_noise
                       (bench_tester (F:=float) short_params)
                       (bench_world [delivers [[0%Z]]; delivers [[65535%Z]]])))))
  = Some (VFloat 327.675%float).
Proof. vm_compute. repeat split. Qed.

(* ------------------------------------------------------------------ *)
(** * The basic sanity check *)

Section Basic.
Context {F : Type} `{Float64 F}.

Lemma valid_mask_exact (f : Frame) (y x : nat) :
  mask_at (valid_mask f) y x = true
  <-> y < length f /\ x < length (nth y f []) /\ (0 < pixel f y x < 65535)%Z.
Proof.
  rewrite mask_at_valid_mask, valid_raw_spec. split; [| tauto].
  intros Hv. split; [| split; [| exact Hv]].
  - destruct (Nat.lt_ge_cases y (length f)) as [Hy | Hy]; [exact Hy |].
    rewrite (@pixel_outside f y x) in Hv by lia. lia.
  - destruct (Nat.lt_ge_cases x (length (nth y f []))) as [Hx | Hx]; [exact Hx |].
    rewrite (@pixel_outside f y x) in Hv by lia. lia.
Qed.

Lemma depth_stats_valid_ratio (self : Tester F) (depth_data : Frame) :
  np_any (valid_mask depth_data) = true ->
  exists stats,
    depth_stats self depth_data = VDict stats /\
    lookup (KStr "valid_pixels") stats
    = Some (VInt (Z.of_nat (length (filter valid_raw (concat depth_data))))) /\
    lookup (KStr "total_pixels") stats
    = Some (VInt (Z.of_nat (length (concat depth_data)))) /\
    lookup (KStr "valid_ratio") stats
    = Some (VFloat
              (fdiv (of_int (Z.of_nat (length (filter valid_raw (concat depth_data)))))
                    (of_int (Z.of_nat (length (concat depth_data)))))).
Proof.
  intros Hany. unfold depth_stats. rewrite Hany.
  rewrite mask_count_valid_mask, mask_size_valid_mask.
  eexists. split; [reflexivity |]. repeat split.
Qed.

Lemma test_basic_functionality_depth_stats (self : Tester F) (w w' : World F)
  dev_list depth_data :
  sdk_ListDevice w = SdkOk dev_list ->
  capture_single_frame self w = (Some depth_data, w') ->
  exists d,
    fst (test_basic_functionality self w) = Returns d /\
    lookup (KStr "depth_stats") d = Some (depth_stats self depth_data).
Proof.
  intros Hdev Hcap. unfold test_basic_functionality. rewrite Hdev, Hcap.
  eexists. split; reflexivity.
Qed.

End Basic.

Section BasicScenario.

Local Open Scope R_scope.

Lemma depth_stats_uniform_real :
  depth_stats (bench_tester (F:=R) default_params) (uniform_frame 4 4 1000)
  = VDict [(KStr "valid_pixels", VInt 16);
           (KStr "total_pixels", VInt 16);
           (KStr "valid_ratio", VFloat 1);
           (KStr "min_depth", VFloat 10);
           (KStr "max_depth", VFloat 10);
           (KStr "mean_depth", VFloat 10);
           (KStr "std_depth", VFloat 0)].
Proof.
  unfold depth_stats.
  replace (np_any (valid_mask (uniform_frame 4 4 1000))) with true by reflexivity.
  replace (masked (uniform_frame 4 4 1000) (valid_mask (uniform_frame 4 4 1000)))
    with (repeat 1000%Z 16) by reflexivity.
  replace (mask_count (valid_mask (uniform_frame 4 4 1000))) with 16%nat by reflexivity.
  replace (mask_size (valid_mask (uniform_frame 4 4 1000))) with 16%nat by reflexivity.
  rewrite !map_repeat.
  assert (Emm : to_mm (bench_tester (F:=R) default_params) (of_int 1000) = 10).
  { cbn. lra. }
  rewrite Emm.
  rewrite np_min_repeat, np_max_repeat, np_mean_repeat, np_std_repeat by lia.
  assert (Eratio : fdiv (of_int (Z.of_nat 16)) (of_int (Z.of_nat 16)) = 1).
  { cbn. lra. }
  rewrite Eratio. reflexivity.
Qed.

End BasicScenario.

Lemma depth_stats_uniform_binary64 :
  depth_stats (bench_tester (F:=float) default_params) (uniform_frame 4 4 1000)
  = VDict [(KStr "valid_pixels", VInt 16);
           (KStr "total_pixels", VInt 16);
           (KStr "valid_ratio", VFloat 1%float);
           (KStr "min_depth", VFloat 10%float);
           (KStr "max_depth", VFloat 10%float);
           (KStr "mean_depth", VFloat 10%float);
           (KStr "std_depth", VFloat 0%float)].
Proof. vm_compute. reflexivity. Qed.

(** C5.  The validity mask of a frame holds exactly at the pixels whose
    raw value v satisfies 0 < v < 65535; the basic check reports as
    [valid_ratio] the number of such pixels divided by the number of
    pixels; and on a 4x4 frame of raw value 1000 with scale factor 0.01
    the depth statistics are min = max = mean = 10.0, std = 0.0 and
    valid_ratio = 1.0, in real arithmetic and on binary64 alike. *)
Theorem basic_depth_stats :
  (forall (f : Frame) (y x : nat),
     mask_at (valid_mask f) y x = true
     <-> y < length f /\ x < length (nth y f []) /\ (0 < pixel f y x < 65535)%Z) /\
  (forall (F : Type) (HF : Float64 F) (self : Tester F) (w w' : World F)
          dev_list depth_data,
     sdk_ListDevice w = SdkOk dev_list ->
     capture_single_frame self w = (Some depth_data, w') ->
     np_any (valid_mask depth_data) = true ->
     exists d stats,
       fst (test_basic_functionality self w) = Returns d /\
       lookup (KStr "depth_stats") d = Some (VDict stats) /\
       lookup (KStr "valid_ratio") stats
       = Some (VFloat
                 (fdiv (of_int (Z.of_nat (length (filter valid_raw (concat depth_data)))))
                       (of_int (Z.of_nat (length (concat depth_data))))))) /\
  depth_stats (bench_tester (F:=R) default_params) (uniform_frame 4 4 1000)
  = VDict [(KStr "valid_pixels", VInt 16);
           (KStr "total_pixels", VInt 16);
           (KStr "valid_ratio", VFloat 1%R);
           (KStr "min_depth", VFloat 10%R);
           (KStr "max_depth", VFloat 10%R);
           (KStr "mean_depth", VFloat 10%R);
           (KStr "std_depth", VFloat 0%R)] /\
  depth_stats (bench_tester (F:=float) default_params) (uniform_frame 4 4 1000)
  = VDict [(KStr "valid_pixels", VInt 16);
           (KStr "total_pixels", VInt 16);
           (KStr "valid_ratio", VFloat 1%float);
           (KStr "min_depth", VFloat 10%float);
           (KStr "max_depth", VFloat 10%float);
           (KStr "mean_depth", VFloat 10%float);
           (KStr "std_depth", VFloat 0%float)].
Proof.
  split; [exact valid_mask_exact |].
  split; [| split; [exact depth_stats_uniform_real | exact depth_stats_uniform_binary64]].
  intros F HF self w w' dev_list depth_data Hdev Hcap Hany.
  destruct (test_basic_functionality_depth_stats self w Hdev Hcap) as (d & Ed & Hd).
  destruct (depth_stats_valid_ratio self depth_data Hany) as (stats & Es & _ & _ & Hr).
  exists d, stats. rewrite <- Es. auto.
Qed.

Lemma basic_depth_stats_witness :
  exists d stats,
    fst (test_basic_functionality (bench_tester (F:=float) default_params)
           (bench_world [delivers (uniform_frame 4 4 1000)]))
    = Returns d /\
    lookup (KStr "depth_stats") d = Some (VDict stats) /\
    lookup (KStr "valid_ratio") stats = Some (VFloat 1%float).
Proof.
  destruct basic_depth_stats as (_ & Hratio & _).
  destruct (Hratio float Binary64 (bench_tester default_params)
              (bench_world [delivers (uniform_frame 4 4 1000)]) _ _
              (uniform_frame 4 4 1000) eq_refl eq_refl eq_refl)
    as (d & stats & Ed & Hd & Hr).
  exists d, stats. split; [exact Ed |]. split; [exact Hd |].
  rewrite Hr. vm_compute. reflexivity.
Defined.

(* ------------------------------------------------------------------ *)
(** * The repeatability statistics *)

Section PointStatistics.

Local Open Scope R_scope.

(** Per point, the code computes what the specification names. *)
Lemma point_stats_real (i x y : nat) (depths : list R) :
  depths <> [] ->
  measurement_count (point_stats i x y depths) = length depths /\
  mean_depth (point_stats i x y depths) = spec_mean depths /\
  std_depth (point_stats i x y depths) = spec_std depths /\
  is_max (max_depth_deviation (point_stats i x y depths))
         (map (fun d => Rabs (d - spec_mean depths)) depths) /\
  exists hi lo,
    is_max hi depths /\ is_min lo depths /\
    depth_range (point_stats i x y depths) = hi - lo.
Proof.
  intros Hne. cbn [point_stats measurement_count mean_depth std_depth
                   max_depth_deviation depth_range].
  split; [reflexivity |]. split; [apply np_mean_real |].
  split; [apply np_std_real |]. split.
  - rewrite np_mean_real. apply np_max_is_max.
    destruct depths; [congruence | discriminate].
  - exists (np_max depths), (np_min depths).
    split; [now apply np_max_is_max |]. split; [now apply np_min_is_min |].
    reflexivity.
Qed.

(** The aggregate over the analysed points. *)
Lemma overall_stats_real (point_analysis : list (@PointStats R)) :
  point_analysis <> [] ->
  let stds := map (@std_depth R) point_analysis in
  let deviations := map (@max_depth_deviation R) point_analysis in
  let ranges := map (@depth_range R) point_analysis in
  overall_stats point_analysis
  = [(KStr "mean_depth_std", VFloat (spec_mean stds));
     (KStr "std_depth_std", VFloat (spec_std stds));
     (KStr "max_depth_std", VFloat (np_max stds));
     (KStr "mean_depth_deviation", VFloat (spec_mean deviations));
     (KStr "std_depth_deviation", VFloat (spec_std deviations));
     (KStr "max_depth_deviation", VFloat (np_max deviations));
     (KStr "mean_depth_range", VFloat (spec_mean ranges));
     (KStr "std_depth_range", VFloat (spec_std ranges))] /\
  is_max (np_max stds) stds /\
  is_max (np_max deviations) deviations.
Proof.
  intros Hne stds deviations ranges. unfold overall_stats.
  fold stds deviations ranges. rewrite !np_mean_real, !np_std_real.
  split; [reflexivity |].
  split; apply np_max_is_max; unfold stds, deviations;
    destruct point_analysis; try congruence; discriminate.
Qed.

Lemma scenario_analysis_real :
  scenario_analysis (F:=R)
  = [point_stats 0 0 0 [10; 10; 10; 10];
     point_stats 1 1 0 [5; 6; 5; 6];
     point_stats 2 2 0 [20; 20; 21; 20]].
Proof. reflexivity. Qed.

Lemma spec_std_second_point : spec_std [5; 6; 5; 6] = 1 / 2.
Proof.
  unfold spec_std, spec_mean. cbn [Rsum map length INR].
  replace ((Rsqr (5 - (5 + (6 + (5 + (6 + 0)))) / (1 + 1 + 1 + 1))
            + (Rsqr (6 - (5 + (6 + (5 + (6 + 0)))) / (1 + 1 + 1 + 1))
               + (Rsqr (5 - (5 + (6 + (5 + (6 + 0)))) / (1 + 1 + 1 + 1))
                  + (Rsqr (6 - (5 + (6 + (5 + (6 + 0)))) / (1 + 1 + 1 + 1)) + 0))))
           / (1 + 1 + 1 + 1))
    with (Rsqr (1 / 2)) by (unfold Rsqr; field).
  apply sqrt_Rsqr. lra.
Qed.

Lemma spec_std_third_point : 0.432 < spec_std [20; 20; 21; 20] < 0.434.
Proof.
  unfold spec_std, spec_mean. cbn [Rsum map length INR].
  replace ((Rsqr (20 - (20 + (20 + (21 + (20 + 0)))) / (1 + 1 + 1 + 1))
            + (Rsqr (20 - (20 + (20 + (21 + (20 + 0)))) / (1 + 1 + 1 + 1))
               + (Rsqr (21 - (20 + (20 + (21 + (20 + 0)))) / (1 + 1 + 1 + 1))
                  + (Rsqr (20 - (20 + (20 + (21 + (20 + 0)))) / (1 + 1 + 1 + 1)) + 0))))
           / (1 + 1 + 1 + 1))
    with (3 / 16) by (unfold Rsqr; field).
  split.
  - rewrite <- (sqrt_Rsqr 0.432) by lra. apply sqrt_lt_1_alt. unfold Rsqr. lra.
  - rewrite <- (sqrt_Rsqr 0.434) by lra. apply sqrt_lt_1_alt. unfold Rsqr. lra.
Qed.

Lemma scenario_stds_real :
  map (@std_depth R) scenario_analysis
  = [0; 1 / 2; spec_std [20; 20; 21; 20]].
Proof.
  rewrite scenario_analysis_real. cbn [map point_stats std_depth].
  rewrite !np_std_real, spec_std_second_point.
  change [10; 10; 10; 10] with (repeat 10 4).
  rewrite spec_std_repeat by lia. reflexivity.
Qed.

Lemma scenario_mean_depth_std_real :
  exists m,
    lookup (KStr "mean_depth_std") (overall_stats (scenario_analysis (F:=R)))
    = Some (VFloat m) /\
    Rabs (m - 0.311) < 0.001.
Proof.
  exists (spec_mean (map (@std_depth R) scenario_analysis)). split.
  - unfold overall_stats. cbn [lookup key_eqb String.eqb].
    now rewrite np_mean_real.
  - rewrite scenario_stds_real. unfold spec_mean. cbn [Rsum length INR].
    pose proof spec_std_third_point as [Hlo Hhi].
    apply Rabs_def1; lra.
Qed.

End PointStatistics.

Lemma scenario_binary64 :
  map (@std_depth float) scenario_analysis
  = [0%float; 0.5%float; 0.4330127018922193%float] /\
  overall_stats (scenario_analysis (F:=float))
  = [(KStr "mean_depth_std", VFloat 0.31100423396407312%float);
     (KStr "std_depth_std", VFloat 0.22160708424992512%float);
     (KStr "max_depth_std", VFloat 0.5%float);
     (KStr "mean_depth_deviation", VFloat 0.41666666666666669%float);
     (KStr "std_depth_deviation", VFloat 0.31180478223116176%float);
     (KStr "max_depth_deviation", VFloat 0.75%float);
     (KStr "mean_depth_range", VFloat 0.66666666666666663%float);
     (KStr "std_depth_range", VFloat 0.47140452079103168%float)].
Proof. vm_compute. split; reflexivity. Qed.

(** C6, as amended.  For a point with at least two samples the procedure
    computes the mean, the population standard deviation, the greatest
    absolute deviation from the mean and the range (greatest minus least)
    of its samples.  Over the analysed points it aggregates the mean, the
    standard deviation and the maximum of the per-point standard deviations
    and of the per-point greatest deviations, and the mean and the standard
    deviation of the per-point ranges: eight figures.  In the scenario the
    per-point standard deviations are 0, 0.5 and about 0.433, and
    [mean_depth_std] is about 0.311, in real arithmetic and on binary64. *)
Theorem repeatability_point_statistics :
  (forall (i x y : nat) (depths : list R),
     2 <= length depths ->
     mean_depth (point_stats i x y depths) = spec_mean depths /\
     std_depth (point_stats i x y depths) = spec_std depths /\
     is_max (max_depth_deviation (point_stats i x y depths))
            (map (fun d => Rabs (d - spec_mean depths)) depths) /\
     exists hi lo,
       is_max hi depths /\ is_min lo depths /\
       depth_range (point_stats i x y depths) = (hi - lo)%R) /\
  (forall point_analysis : list (@PointStats R),
     point_analysis <> [] ->
     overall_stats point_analysis
     = [(KStr "mean_depth_std",
          VFloat (spec_mean (map (@std_depth R) point_analysis)));
        (KStr "std_depth_std",
          VFloat (spec_std (map (@std_depth R) point_analysis)));
        (KStr "max_depth_std",
          VFloat (np_max (map (@std_depth R) point_analysis)));
        (KStr "mean_depth_deviation",
          VFloat (spec_mean (map (@max_depth_deviation R) point_analysis)));
        (KStr "std_depth_deviation",
          VFloat (spec_std (map (@max_depth_deviation R) point_analysis)));
        (KStr "max_depth_deviation",
          VFloat (np_max (map (@max_depth_deviation R) point_analysis)));
        (KStr "mean_depth_range",
          VFloat (spec_mean (map (@depth_range R) point_analysis)));
        (KStr "std_depth_range",
          VFloat (spec_std (map (@depth_range R) point_analysis)))] /\
     is_max (np_max (map (@std_depth R) point_analysis))
            (map (@std_depth R) point_analysis) /\
     is_max (np_max (map (@max_depth_deviation R) point_analysis))
            (map (@max_depth_deviation R) point_analysis)) /\
  (exists s3 m : R,
     map (@std_depth R) scenario_analysis = [0%R; (1 / 2)%R; s3] /\
     (Rabs (s3 - 0.433) < 0.001)%R /\
     lookup (KStr "mean_depth_std") (overall_stats (scenario_analysis (F:=R)))
     = Some (VFloat m) /\
     (Rabs (m - 0.311) < 0.001)%R) /\
  map (@std_depth float) scenario_analysis
  = [0%float; 0.5%float; 0.4330127018922193%float] /\
  lookup (KStr "mean_depth_std") (overall_stats (scenario_analysis (F:=float)))
  = Some (VFloat 0.31100423396407312%float).
Proof.
  split; [| split; [| split; [| split]]].
  - intros i x y depths Hlen.
    destruct (@point_stats_real i x y depths) as (_ & Hm & Hs & Hd & Hr).
    { destruct depths; [simpl in Hlen; lia | discriminate]. }
    auto.
  - intros point_analysis Hne. exact (overall_stats_real Hne).
  - destruct scenario_mean_depth_std_real as (m & Hm & Hclose).
    exists (spec_std [20; 20; 21; 20]%R), m.
    split; [exact scenario_stds_real |]. split; [| split; assumption].
    pose proof spec_std_third_point as [Hlo Hhi].
    apply Rabs_def1; lra.
  - exact (proj1 scenario_binary64).
  - now rewrite (proj2 scenario_binary64).
Qed.

Lemma repeatability_point_statistics_witness :
  (2 <= length [5; 6; 5; 6]%R) /\
  std_depth (point_stats 1 1 0 [5; 6; 5; 6]%R) = spec_std [5; 6; 5; 6]%R.
Proof.
  split; [simpl; lia |].
  destruct repeatability_point_statistics as (Hpoint & _).
  apply (Hpoint 1%nat 1%nat 0%nat [5; 6; 5; 6]%R). simpl. lia.
Defined.

(** In the scenario the greatest per-point range is 1.0, and the
    aggregate holds no maximum of the ranges: its eight keys are those
    below, and none of its values is 1.0. *)
Lemma overall_stats_has_no_maximum_of_ranges :
  np_max (map (@depth_range float) scenario_analysis) = 1%float /\
  keys (overall_stats (scenario_analysis (F:=float)))
  = [KStr "mean_depth_std"; KStr "std_depth_std"; KStr "max_depth_std";
     KStr "mean_depth_deviation"; KStr "std_depth_deviation";
     KStr "max_depth_deviation"; KStr "mean_depth_range"; KStr "std_depth_range"] /\
  forallb (fun kv : key * value float =>
             match snd kv with
             | VFloat v => negb (PrimFloat.eqb v 1%float)
             | _ => true
             end)
          (overall_stats (scenario_analysis (F:=float))) = true.
Proof. vm_compute. repeat split. Qed.

(* ------------------------------------------------------------------ *)
(** * Connection life cycle *)

Section LifecycleTheory.
Context {F : Type} `{Float64 F}.

(** X1.  A successful [setup_camera] leaves the tester connected, with
    the handle that the SDK opened for its device id and declared valid,
    and with a scale factor: the device's, or 0.016 when reading it
    raised.  Both stream calls answered [TY_STATUS_OK], the results and
    parameters are untouched, and two seconds have been slept. *)
Theorem setup_camera_success (self self' : Tester F) (w w' : World F) :
  setup_camera self w = (true, self', w') ->
  is_connected self' = true /\
  (exists dev_list h,
     sdk_ListDevice w = SdkOk dev_list /\ dev_list <> [] /\
     sdk_Open w (device_id self) = SdkOk h /\
     sdk_isValidHandle w h = true /\
     handle self' = Some h) /\
  depth_scale_factor self'
  = Some (match sdk_ReadCalibDepthScaleUnit w with
          | SdkOk s => s
          | SdkError _ => lit_0_016
          end) /\
  sdk_StreamEnable w = SdkOk TY_STATUS_OK /\
  sdk_StreamOn w = SdkOk TY_STATUS_OK /\
  test_results self' = test_results self /\
  test_params self' = test_params self /\
  device_id self' = device_id self /\
  w' = sleep (of_int 2) w.
Proof.
  unfold setup_camera.
  destruct (sdk_ListDevice w) as [dev_list | ?]; [| discriminate].
  destruct (length dev_list =? 0)%nat eqn:Elen; [discriminate |].
  destruct (sdk_Open w (device_id self)) as [h | ?]; [| discriminate].
  destruct (sdk_isValidHandle w h) eqn:Evalid; cbn [negb]; [| discriminate].
  destruct (sdk_StreamEnable w) as [ret | ?]; [| discriminate].
  destruct (ret =? TY_STATUS_OK)%Z eqn:Eret; cbn [negb]; [| discriminate].
  destruct (sdk_StreamOn w) as [ret' | ?]; [| discriminate].
  destruct (ret' =? TY_STATUS_OK)%Z eqn:Eret'; cbn [negb]; [| discriminate].
  intros E. injection E as <- <-.
  apply Z.eqb_eq in Eret, Eret'. subst.
  repeat split; try reflexivity.
  exists dev_list, h. repeat split; try reflexivity; try assumption.
  intros ->. discriminate.
Qed.

(** X2.  [capture_single_frame] on a tester that is not connected returns
    no frame and touches nothing.  On a connected tester it issues exactly
    one read, and a frame it returns is the array of the first depth-stream
    frame of a read that answered without an exception. *)
Theorem capture_single_frame_spec (self : Tester F) (w : World F) :
  (is_connected self = false -> capture_single_frame self w = (None, w)) /\
  (is_connected self = true ->
     reads (snd (capture_single_frame self w)) = tl (reads w) /\
     (forall depth_data,
        fst (capture_single_frame self w) = Some depth_data ->
        exists latency frames,
          hd_error (reads w) = Some (latency, SdkOk frames) /\
          first_depth_frame frames = Some depth_data /\
          now (snd (capture_single_frame self w)) = fadd (now w) latency) /\
     (reads w = [] ->
        fst (capture_single_frame self w) = None /\
        now (snd (capture_single_frame self w)) = fadd (now w) (of_int 5))).
Proof.
  unfold capture_single_frame, DeviceStreamRead. split.
  - intros ->. reflexivity.
  - intros ->. cbn [negb].
    destruct (reads w) as [|[latency [[|frame frames] | msg]] rest];
      cbn [fst snd tl reads set_clock now hd_error];
      (split; [reflexivity | split]).
    + intros ? E. discriminate.
    + intros _. split; reflexivity.
    + intros ? E. discriminate.
    + intros E. discriminate.
    + intros depth_data E. exists latency, (frame :: frames).
      split; [reflexivity | split; [exact E | reflexivity]].
    + intros E. discriminate.
    + intros ? E. discriminate.
    + intros E. discriminate.
Qed.

End LifecycleTheory.

Lemma setup_camera_success_witness :
  is_connected (snd (fst (setup_camera (new_tester "207000159351")
                            (bench_world (F:=float) [])))) = true /\
  depth_scale_factor (snd (fst (setup_camera (new_tester "207000159351")
                                  (bench_world (F:=float) []))))
  = Some 0.01%float.
Proof.
  destruct (@setup_camera_success float Binary64 (new_tester "207000159351")
              (snd (fst (setup_camera (new_tester "207000159351") (bench_world []))))
              (bench_world [])
              (snd (setup_camera (new_tester "207000159351") (bench_world []))))
    as (Hc & _ & Hs & _).
  - vm_compute. reflexivity.
  - split; [exact Hc |]. rewrite Hs. vm_compute. reflexivity.
Defined.

Lemma capture_single_frame_spec_witness :
  is_connected (bench_tester (F:=float) short_params) = true /\
  reads (snd (capture_single_frame (bench_tester (F:=float) short_params)
                (bench_world (repeat (delivers (uniform_frame 2 2 1000)) 3))))
  = repeat (delivers (uniform_frame 2 2 1000)) 2.
Proof.
  split; [reflexivity |].
  apply (@capture_single_frame_spec float Binary64 (bench_tester short_params)
           (bench_world (repeat (delivers (uniform_frame 2 2 1000)) 3))).
  reflexivity.
Defined.

(* ------------------------------------------------------------------ *)
(** * Runs, release and persistence *)

Section RunTheory.
Context {F : Type} `{Float64 F}.

Lemma run_tests_connection tests (self : Tester F) (w : World F) :
  is_connected (fst (run_tests tests self w)) = is_connected self /\
  handle (fst (run_tests tests self w)) = handle self.
Proof.
  revert self w. induction tests as [|[name p] rest IH]; intros self w; simpl.
  - now split.
  - pose proof (run_test_tester p name self w) as E.
    destruct (run_test p name self w) as [[r self'] w']. simpl in E.
    destruct (IH self' w') as [Hc Hh]. rewrite Hc, Hh, E. now split.
Qed.

Lemma enabled_tests_names ps (params : TestParams) :
  map fst (enabled_tests (F:=F) ps params)
  = [name_basic]
    ++ (if (0 <? frame_rate_test_duration params)%Z then [name_frame_rate] else [])
    ++ [name_repeatability]
    ++ (if (0 <? stability_test_duration params)%Z then [name_stability] else [])
    ++ (if (0 <? noise_test_count params)%Z then [name_noise] else []).
Proof.
  unfold enabled_tests.
  destruct (0 <? frame_rate_test_duration params)%Z,
           (0 <? stability_test_duration params)%Z,
           (0 <? noise_test_count params)%Z; reflexivity.
Qed.

(** X3.  [run_all_tests] only ever appends.  When the camera is set up,
    the tester's list is the old list followed by one result per enabled
    procedure, named in the fixed order basic, frame rate, repeatability,
    stability, noise: between two and five of them, the basic and the
    repeatability result always among them; the list returned is the
    tester's whole list.  When set-up fails it returns the empty list
    (not the tester's list), runs nothing and leaves the list as it
    was. *)
Theorem run_all_tests_appends_in_order (ps : Procedures F)
  (self : Tester F) (w : World F) :
  let params := test_params self in
  let names :=
    [name_basic]
    ++ (if (0 <? frame_rate_test_duration params)%Z then [name_frame_rate] else [])
    ++ [name_repeatability]
    ++ (if (0 <? stability_test_duration params)%Z then [name_stability] else [])
    ++ (if (0 <? noise_test_count params)%Z then [name_noise] else []) in
  let returned := fst (fst (run_all_tests ps self w)) in
  let self' := snd (fst (run_all_tests ps self w)) in
  (fst (fst (setup_camera self w)) = true ->
     exists new,
       test_results self' = test_results self ++ new /\
       returned = test_results self' /\
       map (@test_name F) new = names /\
       2 <= length new <= 5 /\
       In name_basic (map (@test_name F) new) /\
       In name_repeatability (map (@test_name F) new)) /\
  (fst (fst (setup_camera self w)) = false ->
     returned = [] /\
     test_results self' = test_results self /\
     snd (run_all_tests ps self w) = snd (setup_camera self w)).
Proof.
  intros params names returned self'.
  pose proof (setup_camera_results self w) as Er.
  pose proof (setup_camera_params self w) as Ep.
  destruct (setup_camera self w) as [[ok self0] w0] eqn:Hs.
  cbn [fst snd] in *. split; intros ->.
  - exists (results_of (enabled_tests ps (test_params self)) self0 w0).
    assert (Hret : returned
                   = test_results self
                     ++ results_of (enabled_tests ps (test_params self)) self0 w0).
    { unfold returned. now apply run_all_tests_appends. }
    assert (Hself : test_results self' = returned).
    { unfold self', returned. now rewrite (@run_all_tests_loop _ _ ps _ _ _ _ Hs). }
    assert (Hnames : map (@test_name F)
                       (results_of (enabled_tests ps (test_params self)) self0 w0)
                     = names).
    { rewrite results_of_names. apply enabled_tests_names. }
    split; [congruence |]. split; [congruence |]. split; [exact Hnames |].
    rewrite <- (length_map (@test_name F)), Hnames. unfold names.
    destruct (0 <? frame_rate_test_duration params)%Z,
             (0 <? stability_test_duration params)%Z,
             (0 <? noise_test_count params)%Z; simpl; repeat split; auto; lia.
  - unfold returned, self', run_all_tests. rewrite Hs. cbn [negb fst snd].
    repeat split. exact Er.
Qed.

(** ** Release *)

Lemma setup_camera_handle (self : Tester F) (w : World F) :
  (is_connected self = true -> handle_set self = true) ->
  is_connected (snd (fst (setup_camera self w))) = true ->
  handle_set (snd (fst (setup_camera self w))) = true.
Proof.
  intros Hinv. unfold setup_camera.
  repeat match goal with
         | |- context [match ?x with _ => _ end] => destruct x; try exact Hinv
         end; cbn; auto.
Qed.

Lemma run_all_tests_connection (ps : Procedures F) (self : Tester F) (w : World F) :
  is_connected (snd (fst (run_all_tests ps self w)))
  = is_connected (snd (fst (setup_camera self w))) /\
  handle (snd (fst (run_all_tests ps self w)))
  = handle (snd (fst (setup_camera self w))).
Proof.
  destruct (setup_camera self w) as [[ok self0] w0] eqn:Hs. destruct ok.
  - rewrite (@run_all_tests_loop _ _ ps _ _ _ _ Hs). cbn [fst snd].
    apply run_tests_connection.
  - unfold run_all_tests. rewrite Hs. cbn. now split.
Qed.

Lemma close_disconnects (stream_off device_close : SdkResult Z)
  (self : Tester F) (w : World F) :
  (is_connected self = true -> handle_set self = true) ->
  is_connected (fst (close stream_off device_close self w)) = false.
Proof.
  intros Hinv. unfold close. destruct (is_connected self) eqn:Ec.
  - rewrite (Hinv eq_refl). cbn [andb].
    destruct stream_off, device_close; reflexivity.
  - cbn [andb fst]. exact Ec.
Qed.

(** X4.  [close] releases the connection whatever [DeviceStreamOff] and
    [Close] answer, keeps the results, and is idempotent: closing again
    changes nothing and sleeps no more.  After it no acquisition reads
    the device.  (For a tester whose handle is set whenever it is
    connected, as [setup_camera] leaves it.) *)
Theorem close_releases (stream_off device_close stream_off' device_close' : SdkResult Z)
  (self : Tester F) (w : World F) :
  (is_connected self = true -> handle_set self = true) ->
  let self' := fst (close stream_off device_close self w) in
  let w' := snd (close stream_off device_close self w) in
  is_connected self' = false /\
  (is_connected self = true -> handle self' = None /\ w' = sleep lit_0_5 w) /\
  (is_connected self = false -> self' = self /\ w' = w) /\
  test_results self' = test_results self /\
  close stream_off' device_close' self' w' = (self', w') /\
  capture_single_frame self' w' = (None, w').
Proof.
  intros Hinv self' w'. unfold self', w', close.
  destruct (is_connected self) eqn:Ec.
  - rewrite (Hinv eq_refl). cbn [andb].
    destruct stream_off, device_close; cbn [fst snd released is_connected handle
                                             test_results andb];
      repeat split; try discriminate; reflexivity.
  - cbn [andb fst snd]. rewrite Ec. cbn [andb].
    repeat split; try discriminate; try assumption.
    unfold capture_single_frame. now rewrite Ec.
Qed.

(** X5.  However the run goes, [main] ends with the connection released:
    whatever the procedures do, whether or not writing the outputs
    raises, and also when [setup_camera] fails after it has opened the
    device. *)
Theorem main_releases_the_device (ps : Procedures F) (id : string)
  (stream_off device_close : SdkResult Z) (io : list bool) (w : World F) :
  is_connected (fst (fst (main ps id stream_off device_close io w))) = false.
Proof.
  unfold main.
  pose proof (run_all_tests_connection ps (new_tester id) w) as [Hc Hh].
  assert (Hinv : is_connected (snd (fst (run_all_tests ps (new_tester id) w))) = true ->
                 handle_set (snd (fst (run_all_tests ps (new_tester id) w))) = true).
  { unfold handle_set. rewrite Hc, Hh. apply setup_camera_handle. discriminate. }
  destruct (run_all_tests ps (new_tester id) w) as [[results tester1] w1].
  cbn [fst snd] in Hinv.
  destruct (write_outputs tester1 w1 io) as [[ok written] io1].
  pose proof (@close_disconnects stream_off device_close tester1 w1 Hinv)
    as Hreleased.
  destruct (is_connected tester1) eqn:Ec.
  - destruct (close stream_off device_close tester1 w1) as [tester2 w2].
    exact Hreleased.
  - exact Ec.
Qed.

(** ** Persistence *)

Lemma result_value_injective (r1 r2 : TestResult F) :
  result_value r1 = result_value r2 -> r1 = r2.
Proof.
  destruct r1 as [n1 s1 d1 e1 t1], r2 as [n2 s2 d2 e2 t2].
  unfold result_value. cbn. intros E.
  injection E as En Es Et Ee Ed. subst.
  destruct e1, e2; try discriminate; try (injection Ee as ->); reflexivity.
Qed.

Lemma map_result_value_injective (l1 l2 : list (TestResult F)) :
  map result_value l1 = map result_value l2 -> l1 = l2.
Proof.
  revert l2. induction l1 as [|r1 l1 IH]; intros [|r2 l2] E;
    try discriminate; [reflexivity |].
  cbn [map] in E.
  assert (Er : result_value r1 = result_value r2) by congruence.
  assert (El : map result_value l1 = map result_value l2) by congruence.
  rewrite (result_value_injective Er), (IH l2 El). reflexivity.
Qed.

(** X6.  The record that [save_results] writes loses nothing: it lists one
    entry per result, in run order, and two records are equal only if the
    results (name, success flag, duration, error message, absent or not,
    and data), the device id, the parameters and the time stamp all
    agree. *)
Theorem save_data_lossless (self1 self2 : Tester F) (w1 w2 : World F) :
  save_data self1 w1 = save_data self2 w2 ->
  test_results self1 = test_results self2 /\
  device_id self1 = device_id self2 /\
  test_params self1 = test_params self2 /\
  now w1 = now w2 /\
  exists entries,
    lookup (KStr "results") (save_data self1 w1) = Some (VList entries) /\
    length entries = length (test_results self1) /\
    forall k r, nth_error (test_results self1) k = Some r ->
                nth_error entries k = Some (result_value r).
Proof.
  unfold save_data, params_value. intros E.
  assert (Eres : map result_value (test_results self1)
                 = map result_value (test_results self2)) by congruence.
  assert (Eid : device_id self1 = device_id self2) by congruence.
  assert (Enow : now w1 = now w2) by congruence.
  apply map_result_value_injective in Eres.
  split; [exact Eres |]. split; [exact Eid |]. split.
  - destruct (test_params self1), (test_params self2). cbn in E. congruence.
  - split; [exact Enow |].
    exists (map result_value (test_results self1)).
    split; [reflexivity |]. split; [apply length_map |].
    intros k r Hk. now apply map_nth_error.
Qed.

(** The tester's list after a run: what was returned, at least two
    results longer than before, when the camera was set up; untouched when
    it was not. *)
Lemma run_all_tests_result_list (ps : Procedures F) (self : Tester F) (w : World F) :
  (fst (fst (setup_camera self w)) = true ->
     test_results (snd (fst (run_all_tests ps self w)))
     = fst (fst (run_all_tests ps self w)) /\
     length (test_results self) + 2
     <= length (test_results (snd (fst (run_all_tests ps self w))))) /\
  (fst (fst (setup_camera self w)) = false ->
     test_results (snd (fst (run_all_tests ps self w))) = test_results self).
Proof.
  pose proof (setup_camera_results self w) as Er.
  destruct (setup_camera self w) as [[ok self0] w0] eqn:Hs.
  cbn [fst snd] in *. split; intros ->.
  - assert (Hself : test_results (snd (fst (run_all_tests ps self w)))
                    = fst (fst (run_all_tests ps self w))).
    { now rewrite (@run_all_tests_loop _ _ ps _ _ _ _ Hs). }
    split; [exact Hself |]. rewrite Hself.
    rewrite (run_all_tests_appends ps _ _ Hs), length_app.
    rewrite <- (length_map (@test_name F)
                  (results_of (enabled_tests ps (test_params self)) self0 w0)).
    rewrite results_of_names, enabled_tests_names.
    destruct (0 <? frame_rate_test_duration (test_params self))%Z,
             (0 <? stability_test_duration (test_params self))%Z,
             (0 <? noise_test_count (test_params self))%Z; simpl; lia.
  - unfold run_all_tests. rewrite Hs. cbn [negb fst snd]. exact Er.
Qed.

(** X7.  When the file system takes the two writes, [main] leaves exactly
    one record and one report, both of the tester's final result list:
    the results of the run when the camera was set up, and the empty list
    when it was not (an empty record is still written).  When the first
    write fails and there is no result, nothing is written. *)
Theorem main_persists_results (ps : Procedures F) (id : string)
  (stream_off device_close : SdkResult Z) (io : list bool) (w : World F) :
  let run := run_all_tests ps (new_tester id) w in
  let tester1 := snd (fst run) in
  let w1 := snd run in
  let written := snd (main ps id stream_off device_close io w) in
  (fst (next_write io) = true ->
   fst (next_write (snd (next_write io))) = true ->
   written = [SavedRecord (ftrunc (now w1)) (save_data tester1 w1);
              SavedReport (ftrunc (now w1)) (test_results tester1)]) /\
  (fst (next_write io) = false -> test_results tester1 = [] -> written = []) /\
  (fst (fst (setup_camera (new_tester id) w)) = true ->
   test_results tester1 = fst (fst run) /\ 2 <= length (test_results tester1)) /\
  (fst (fst (setup_camera (new_tester id) w)) = false ->
   test_results tester1 = []).
Proof.
  intros run tester1 w1 written.
  pose proof (run_all_tests_result_list ps (new_tester id) w) as [Hok Hfail].
  fold run in Hok, Hfail. fold tester1 in Hok, Hfail.
  assert (Hwritten : written
                     = let '(ok, out, io1) := write_outputs tester1 w1 io in
                       if ok then out
                       else match test_results tester1 with
                            | [] => out
                            | _ :: _ => out ++ snd (fst (write_outputs tester1 w1 io1))
                            end).
  { unfold written, main, tester1, w1, run.
    destruct (run_all_tests ps (new_tester id) w) as [[results t1] w1'].
    cbn [fst snd].
    destruct (write_outputs t1 w1' io) as [[ok out] io1].
    destruct (is_connected t1);
      [destruct (close stream_off device_close t1 w1') |]; reflexivity. }
  split; [| split; [| split]].
  - intros H1 H2. rewrite Hwritten. unfold write_outputs.
    destruct (next_write io) as [saved io1]. cbn [fst snd] in H1, H2. subst saved.
    destruct (next_write io1) as [reported io2]. cbn [fst] in H2. subst reported.
    reflexivity.
  - intros H1 Hnil. rewrite Hwritten. unfold write_outputs.
    destruct (next_write io) as [saved io1]. cbn [fst] in H1. subst saved.
    now rewrite Hnil.
  - intros Hs. destruct (Hok Hs) as [Hret Hlen].
    split; [exact Hret |]. cbn [new_tester test_results length] in Hlen. lia.
  - intros Hs. exact (Hfail Hs).
Qed.

End RunTheory.

Lemma run_all_tests_appends_in_order_witness :
  fst (fst (setup_camera (new_tester "207000159351") (bench_world (F:=float) [])))
  = true /\
  exists new,
    test_results (snd (fst (run_all_tests mock_procedures
                              (new_tester "207000159351") (bench_world (F:=float) []))))
    = test_results (new_tester (F:=float) "207000159351") ++ new /\
    length new = 5.
Proof.
  split; [vm_compute; reflexivity |].
  destruct (@run_all_tests_appends_in_order float Binary64 mock_procedures
              (new_tester "207000159351") (bench_world [])) as [Hok _].
  destruct Hok as (new & Hnew & _ & Hnames & _); [vm_compute; reflexivity |].
  exists new. split; [exact Hnew |].
  rewrite <- (length_map (@test_name float)), Hnames. reflexivity.
Defined.

Lemma close_releases_witness :
  is_connected (fst (close (SdkError "off") (SdkError "close")
                       (bench_tester (F:=float) short_params) (bench_world [])))
  = false.
Proof.
  apply (@close_releases float Binary64 (SdkError "off") (SdkError "close")
           (SdkOk 0%Z) (SdkOk 0%Z) (bench_tester short_params) (bench_world [])).
  reflexivity.
Defined.

Lemma save_data_lossless_witness :
  exists entries,
    lookup (KStr "results")
      (save_data (snd (fst (run_all_tests mock_procedures
                              (new_tester "207000159351") (bench_world (F:=float) []))))
         (bench_world [])) = Some (VList entries) /\
    length entries = 5.
Proof.
  destruct (@save_data_lossless float
              (snd (fst (run_all_tests mock_procedures (new_tester "207000159351")
                           (bench_world []))))
              (snd (fst (run_all_tests mock_procedures (new_tester "207000159351")
                           (bench_world []))))
              (bench_world []) (bench_world []) eq_refl)
    as (_ & _ & _ & _ & entries & Hlookup & Hlen & _).
  exists entries. split; [exact Hlookup |]. rewrite Hlen. reflexivity.
Defined.

Lemma main_persists_results_witness :
  snd (main mock_procedures "207000159351" (SdkOk 0%Z) (SdkOk 0%Z) [true; true]
         (bench_world (F:=float) []))
  = [SavedRecord
       (ftrunc (now (snd (run_all_tests mock_procedures (new_tester "207000159351")
                            (bench_world (F:=float) [])))))
       (save_data
          (snd (fst (run_all_tests mock_procedures (new_tester "207000159351")
                       (bench_world []))))
          (snd (run_all_tests mock_procedures (new_tester "207000159351")
                  (bench_world []))));
     SavedReport
       (ftrunc (now (snd (run_all_tests mock_procedures (new_tester "207000159351")
                            (bench_world (F:=float) [])))))
       (test_results
          (snd (fst (run_all_tests mock_procedures (new_tester "207000159351")
                       (bench_world [])))))].
Proof.
  apply (@main_persists_results float Binary64 mock_procedures "207000159351"
           (SdkOk 0%Z) (SdkOk 0%Z) [true; true] (bench_world []));
    reflexivity.
Defined.

(* ------------------------------------------------------------------ *)
(** * The frame-rate procedure *)

Section FrameRate.
Context {F : Type} `{Float64 F}.

(** What a finished loop has counted. *)
Lemma frame_rate_loop_counts turns (self : Tester F) end_time
  frame_times sc tc (w : World F) frame_times' sc' tc' w' :
  frame_rate_loop turns self end_time frame_times sc tc w
  = Some (frame_times', sc', tc', w') ->
  (sc' - sc = Z.of_nat (length frame_times') - Z.of_nat (length frame_times))%Z /\
  (0 <= sc' - sc <= tc' - tc)%Z /\
  fltb (now w') end_time = false /\
  (length frame_times < length frame_times' -> fltb (now w) end_time = true).
Proof.
  revert frame_times sc tc w.
  induction turns as [|turns IH]; intros frame_times sc tc w; cbn [frame_rate_loop];
    destruct (fltb (now w) end_time) eqn:Econd; try discriminate;
    try (intros E; injection E as <- <- <- <-; repeat split; try lia; assumption).
  destruct (capture_single_frame self w) as [[depth_data |] w1]; intros E;
    apply IH in E; destruct E as (Hlen & Hcount & Hexit & _).
  - rewrite length_app in Hlen. cbn [length] in Hlen.
    repeat split; try lia; assumption.
  - repeat split; try lia; assumption.
Qed.

End FrameRate.

Section FrameRateReal.

Local Open Scope R_scope.

Lemma lit_0_5_real : @lit_0_5 R Exact = 1 / 2.
Proof. reflexivity. Qed.


(** The loop comes to an end: each turn uses up a scripted read or lets
    at least half a second pass. *)
Lemma frame_rate_loop_terminates turns k (self : Tester R) end_time
  frame_times sc tc (w : World R) :
  is_connected self = true ->
  nonneg_latencies w ->
  end_time - now w <= INR k / 2 ->
  (length (reads w) + k <= turns)%nat ->
  frame_rate_loop turns self end_time frame_times sc tc w <> None.
Proof.
  intros Hconn. revert k frame_times sc tc w.
  induction turns as [|turns IH]; intros k frame_times sc tc w Hw Hk Hturns;
    cbn [frame_rate_loop fltb Exact];
    destruct (Rltb (now w) end_time) eqn:Econd; try discriminate.
  - apply Rltb_true in Econd.
    assert (k = 0%nat) by lia. subst k. simpl in Hk. lra.
  - apply Rltb_true in Econd.
    unfold capture_single_frame, DeviceStreamRead. rewrite Hconn. cbn [negb].
    unfold nonneg_latencies in Hw.
    destruct (reads w) as [|[latency answer] rest] eqn:Er.
    + (* the script is used up: a five-second timeout *)
      destruct k as [|k]; [simpl in Hk; lra |].
      apply (IH k); cbn [set_clock reads now fadd of_int Exact length Nat.add].
      * constructor.
      * rewrite S_INR in Hk. lra.
      * simpl in Hturns. lia.
    + inversion Hw as [|? ? Hl Hrest]; subst. cbn [fst] in Hl.
      cbn [length] in Hturns.
      destruct answer as [[|frame frames] | msg].
      * apply (IH k); cbn [set_clock reads now fadd Exact]; try assumption; try lra; lia.
      * destruct (first_depth_frame (frame :: frames)).
        -- apply (IH k); unfold sleep; rewrite lit_0_5_real;
             cbn [set_clock reads now fadd Exact]; try assumption; try lra; lia.
        -- apply (IH k); cbn [set_clock reads now fadd Exact];
             try assumption; try lra; lia.
      * apply (IH k); cbn [set_clock reads now fadd Exact]; try assumption; try lra; lia.
Qed.

(** More turns than the loop takes change nothing. *)
Lemma frame_rate_loop_stable turns extra (self : Tester R) end_time
  frame_times sc tc (w : World R) r :
  frame_rate_loop turns self end_time frame_times sc tc w = Some r ->
  frame_rate_loop (turns + extra) self end_time frame_times sc tc w = Some r.
Proof.
  revert frame_times sc tc w.
  induction turns as [|turns IH]; intros frame_times sc tc w;
    cbn [Nat.add frame_rate_loop].
  - destruct (fltb (now w) end_time) eqn:Econd; [discriminate |].
    intros E. destruct extra; cbn [frame_rate_loop]; now rewrite Econd.
  - destruct (fltb (now w) end_time); [| auto].
    destruct (capture_single_frame self w) as [[depth_data |] w1]; apply IH.
Qed.

(** A finished run returns a dictionary: no quotient of the report has a
    zero divisor. *)
Lemma test_frame_rate_within_returns (turns : nat) (self : Tester R) (w w' : World R)
  (o : Outcome (dict R)) :
  test_frame_rate_within turns self w = Some (o, w') ->
  exists d, o = Returns d.
Proof.
  unfold test_frame_rate_within.
  generalize (frame_rate_test_duration (test_params self)). intros duration.
  destruct (frame_rate_loop turns self (fadd (now w) (of_int duration)) [] 0%Z 0%Z w)
    as [[[[frame_times sc] tc] w1] |] eqn:Eloop; [| discriminate].
  intros E. injection E as <- <-.
  destruct (frame_rate_loop_counts _ _ _ _ _ _ _ Eloop) as (_ & Hcount & _ & Hentry).
  cbn [length] in Hentry. cbn [fadd fltb of_int Exact] in Hentry.
  unfold frame_rate_report, py_truediv.
  assert (Erate : (if (0 <? tc)%Z then (tc =? 0)%Z else false) = false).
  { destruct (0 <? tc)%Z eqn:Etc; [| reflexivity].
    apply Z.ltb_lt in Etc. apply Z.eqb_neq. lia. }
  destruct frame_times as [|t0 rest].
  - destruct (0 <? tc)%Z; [rewrite Erate |]; eexists; reflexivity.
  - assert (Hin : Rltb (now w) (now w + IZR duration) = true)
      by (apply Hentry; simpl; lia).
    apply Rltb_true in Hin.
    assert (Hpos : (0 < duration)%Z) by (apply lt_IZR; lra).
    destruct (duration =? 0)%Z eqn:E0; [apply Z.eqb_eq in E0; lia |].
    destruct (0 <? tc)%Z; [rewrite Erate |]; eexists; reflexivity.
Qed.

(** X9.  On a connected tester, with reads that take no negative time,
    [test_frame_rate] comes to an end: its loop makes no more turns than
    there are scripted reads plus two per second of the duration, and a
    larger bound gives the same outcome.  (Real arithmetic.) *)
Theorem test_frame_rate_terminates (self : Tester R) (w : World R) :
  is_connected self = true ->
  nonneg_latencies w ->
  let turns := (length (reads w)
                + 2 * Z.to_nat (frame_rate_test_duration (test_params self)))%nat in
  exists d w',
    test_frame_rate_within turns self w = Some (Returns d, w') /\
    forall extra,
      test_frame_rate_within (turns + extra) self w = Some (Returns d, w').
Proof.
  intros Hconn Hw turns.
  set (duration := frame_rate_test_duration (test_params self)).
  assert (Hloop : frame_rate_loop turns self (fadd (now w) (of_int duration))
                    [] 0%Z 0%Z w <> None).
  { apply (@frame_rate_loop_terminates turns (2 * Z.to_nat duration));
      [exact Hconn | exact Hw | | unfold turns; fold duration; lia].
    cbn [fadd of_int Exact]. rewrite mult_INR. simpl (INR 2).
    destruct (Z.le_gt_cases 0 duration) as [Hd | Hd].
    - rewrite INR_IZR_INZ, Z2Nat.id by exact Hd. lra.
    - replace (Z.to_nat duration) with 0%nat by lia.
      apply IZR_lt in Hd. simpl. lra. }
  destruct (frame_rate_loop turns self (fadd (now w) (of_int duration)) [] 0%Z 0%Z w)
    as [r |] eqn:Eloop; [| congruence].
  assert (Hwithin : exists o w',
             test_frame_rate_within turns self w = Some (o, w')).
  { unfold test_frame_rate_within. fold duration. rewrite Eloop.
    destruct r as [[[frame_times sc] tc] w1]. eauto. }
  destruct Hwithin as (o & w' & Ewithin).
  destruct (test_frame_rate_within_returns _ _ _ Ewithin) as (d & ->).
  exists d, w'. split; [exact Ewithin |].
  intros extra. unfold test_frame_rate_within in *. fold duration in Ewithin |- *.
  rewrite (frame_rate_loop_stable _ extra _ _ _ _ _ _ Eloop).
  now rewrite Eloop in Ewithin.
Qed.

End FrameRateReal.


Lemma test_frame_rate_terminates_witness :
  exists d w',
    test_frame_rate_within
      (length (reads (bench_world (F:=R) []))
       + 2 * Z.to_nat (frame_rate_test_duration
                         (test_params (bench_tester (F:=R) default_params))))
      (bench_tester default_params) (bench_world [])
    = Some (Returns d, w').
Proof.
  destruct (@test_frame_rate_terminates (bench_tester default_params) (bench_world [])
              eq_refl (Forall_nil _)) as (d & w' & E & _).
  exists d, w'. exact E.
Defined.

(* ------------------------------------------------------------------ *)
(** * What a repeatability run collects *)

Section RepeatabilityRun.
Context {F : Type} `{Float64 F}.

Lemma repeat_frames_length n (self : Tester F) (w : World F) :
  length (repeat_frames n self w) = n.
Proof.
  revert w. induction n as [|n IH]; intros w; simpl; [reflexivity |].
  now rewrite IH.
Qed.

Lemma acquired_length_le (frames : list (option Frame)) :
  length (acquired frames) <= length frames.
Proof.
  unfold acquired. induction frames as [|[f |] frames IH]; simpl; lia.
Qed.

(** The loop records the acquired frames one after the other and counts
    them. *)
Lemma repeat_loop_as_feed n (self : Tester F) ys xs pd sc (w : World F) :
  fst (fst (repeat_loop n self ys xs pd sc w))
  = feed_points self ys xs (repeat_frames n self w) pd /\
  snd (fst (repeat_loop n self ys xs pd sc w))
  = (sc + Z.of_nat (length (acquired (repeat_frames n self w))))%Z.
Proof.
  revert pd sc w. induction n as [|n IH]; intros pd sc w;
    cbn [repeat_loop repeat_frames].
  - cbn [fst snd acquired flat_map length]. split; [reflexivity | lia].
  - destruct (capture_single_frame self (sleep (of_int 1) w)) as [[depth_data |] w'];
      cbn [fst snd].
    + destruct (IH (record_points self depth_data ys xs pd) (sc + 1)%Z w')
        as [IHp IHc].
      split; [exact IHp |]. rewrite IHc.
      unfold acquired. cbn [flat_map app length]. lia.
    + destruct (IH pd sc w') as [IHp IHc].
      split; [exact IHp |]. rewrite IHc. reflexivity.
Qed.

Lemma record_point_valid self depth_data y x (s : list F) :
  Forall (valid_sample self) s ->
  Forall (valid_sample self) (record_point self depth_data y x s).
Proof.
  intros Hs. unfold record_point.
  destruct (_ && _); [| exact Hs].
  destruct (valid_raw (pixel depth_data y x)) eqn:Ev; [| exact Hs].
  apply Forall_app. split; [exact Hs |]. constructor; [| constructor].
  exists (pixel depth_data y x). split; [now apply valid_raw_spec | reflexivity].
Qed.

Lemma record_points_valid self depth_data ys xs (pd : list (list F)) :
  Forall (Forall (valid_sample self)) pd ->
  Forall (Forall (valid_sample self)) (record_points self depth_data ys xs pd).
Proof.
  intros Hpd. revert ys xs.
  induction Hpd as [|s pd Hs Hpd IH]; intros ys xs.
  - destruct ys, xs; constructor.
  - destruct ys as [|y ys], xs as [|x xs]; cbn [record_points];
      try (constructor; assumption).
    constructor; [now apply record_point_valid | apply IH].
Qed.

Lemma feed_points_valid self ys xs frames (pd : list (list F)) :
  Forall (Forall (valid_sample self)) pd ->
  Forall (Forall (valid_sample self)) (feed_points self ys xs frames pd).
Proof.
  revert pd. unfold feed_points.
  induction frames as [|[f |] frames IH]; intros pd Hpd; cbn [fold_left].
  - exact Hpd.
  - apply IH. now apply record_points_valid.
  - now apply IH.
Qed.

Lemma feed_points_bound self ys xs frames (pd : list (list F)) m :
  Forall (fun s => length s <= m) pd ->
  Forall (fun s => length s <= m + length (acquired frames))
         (feed_points self ys xs frames pd).
Proof.
  revert pd m. unfold feed_points, acquired.
  induction frames as [|[f |] frames IH]; intros pd m Hpd;
    cbn [fold_left flat_map app length].
  - rewrite Nat.add_0_r. exact Hpd.
  - replace (m + S (length (flat_map
                              (fun depth : option Frame =>
                                 match depth with Some f0 => [f0] | None => [] end)
                              frames)))
      with (S m + length (flat_map
                            (fun depth : option Frame =>
                               match depth with Some f0 => [f0] | None => [] end)
                            frames)) by lia.
    apply IH. now apply record_points_bound.
  - now apply IH.
Qed.

Lemma select_points_target_le (w : World F) mask :
  snd (select_points w mask) <= 25.
Proof.
  unfold select_points.
  destruct (25 <=? length (fst (np_where mask))) eqn:E; cbn [snd]; [lia |].
  apply Nat.leb_gt in E. lia.
Qed.

(** X11.  Every sample that a repeatability run collects is the
    millimetre value (raw reading times the session's scale factor, or
    times 0.016) of a raw reading strictly between 0 and 65535: no raw
    unit and no invalid reading reaches the sample sequences. *)
Theorem repeatability_samples_are_valid_depths (self : Tester F) (w : World F)
  ys xs point_data :
  repeatability_samples self w = Some (ys, xs, point_data) ->
  Forall (Forall (fun sample =>
                    exists v : Z, (0 < v < 65535)%Z /\
                                  sample = to_mm self (of_int v)))
         point_data.
Proof.
  unfold repeatability_samples.
  destruct (capture_single_frame self w) as [[initial_depth |] w1]; [| discriminate].
  destruct (negb (np_any (valid_mask initial_depth))); [discriminate |].
  destruct (select_points w1 (valid_mask initial_depth)) as [[ys' xs'] t].
  set (n := Z.to_nat (repeatability_test_count (test_params self))).
  pose proof (repeat_loop_as_feed n self ys' xs' (repeat [] t) 0%Z w1) as [Efeed _].
  destruct (repeat_loop n self ys' xs' (repeat [] t) 0%Z w1) as [[pd sc] w2].
  cbn [fst] in Efeed. intros E. injection E as <- <- <-. rewrite Efeed.
  apply (@feed_points_valid self ys' xs' (repeat_frames n self w1) (repeat [] t)).
  apply Forall_forall. intros s Hs. apply repeat_spec in Hs. subst. constructor.
Qed.

Lemma analyse_points_length_le i0 ys xs (pd : list (list F)) :
  length (analyse_points i0 ys xs pd) <= length pd.
Proof.
  revert i0 ys xs. induction pd as [|s pd IH]; intros i0 ys xs.
  - destruct ys, xs; simpl; lia.
  - destruct ys as [|y ys], xs as [|x xs]; cbn [analyse_points length]; try lia.
    rewrite length_app. specialize (IH (S i0) ys xs).
    destruct (2 <=? length s); simpl; lia.
Qed.

(** X12.  The counts of a repeatability report that is not an error:
    [success_count] is at least 2 and at most the configured count; at
    most 25 points were targeted; [valid_points] is the length of
    [point_analysis], at least 1 and at most [target_points]; and every
    analysed point has an id below [target_points] and between 2 and
    [success_count] measurements. *)
Theorem repeatability_counts (self : Tester F) (w : World F) (d : dict F) :
  choice_contract w ->
  fst (test_repeatability self w) = Returns d ->
  lookup (KStr "error") d = None ->
  exists (sc : Z) (target : nat) (point_analysis : list PointStats),
    lookup (KStr "success_count") d = Some (VInt sc) /\
    lookup (KStr "target_points") d = Some (vnat target) /\
    lookup (KStr "valid_points") d = Some (vnat (length point_analysis)) /\
    lookup (KStr "point_analysis") d
    = Some (VList (map point_value point_analysis)) /\
    (2 <= sc <= repeatability_test_count (test_params self))%Z /\
    1 <= length point_analysis <= target /\
    target <= 25 /\
    Forall (fun p => point_id p < target /\
                     2 <= measurement_count p /\
                     (Z.of_nat (measurement_count p) <= sc)%Z)
           point_analysis.
Proof.
  intros Hc. unfold test_repeatability.
  pose proof (capture_choice_contract self Hc) as Hc1.
  destruct (capture_single_frame self w) as [[initial_depth |] w1];
    [| intros E; injection E as <-; discriminate].
  cbn [snd] in Hc1.
  destruct (negb (np_any (valid_mask initial_depth)));
    [intros E; injection E as <-; discriminate |].
  pose proof (select_points_lengths (valid_mask initial_depth) Hc1) as Hsel.
  pose proof (select_points_target_le w1 (valid_mask initial_depth)) as Htarget.
  destruct (select_points w1 (valid_mask initial_depth)) as [[ys xs] t].
  cbn [fst snd] in Hsel, Htarget. destruct Hsel as [Hly Hlx].
  set (count := repeatability_test_count (test_params self)).
  set (n := Z.to_nat count).
  pose proof (repeat_loop_as_feed n self ys xs (repeat [] t) 0%Z w1) as [Efeed Ecount].
  pose proof (repeat_loop_length n self ys xs (repeat [] t) 0%Z w1) as Hlen.
  pose proof (@feed_points_bound self ys xs (repeat_frames n self w1) (repeat [] t) 0) as Hb.
  pose proof (acquired_length_le (repeat_frames n self w1)) as Hacq.
  rewrite repeat_frames_length in Hacq.
  destruct (repeat_loop n self ys xs (repeat [] t) 0%Z w1) as [[pd sc] w2].
  cbn [fst snd] in *. rewrite repeat_length in Hlen.
  assert (Hbound : Forall (fun s : list F => (Z.of_nat (length s) <= sc)%Z) pd).
  { rewrite Efeed. eapply Forall_impl; [| apply Hb].
    - simpl. intros s Hs. lia.
    - apply Forall_forall. intros s Hs. apply repeat_spec in Hs. subst. simpl. lia. }
  assert (Hy : length ys = length pd) by congruence.
  assert (Hx : length xs = length pd) by congruence.
  unfold repeatability_report.
  pose proof (analyse_points_length_le 0 ys xs pd) as Hpa_len.
  assert (Hpa : forall p, In p (analyse_points 0 ys xs pd) ->
                  point_id p < t /\ 2 <= measurement_count p /\
                  (Z.of_nat (measurement_count p) <= sc)%Z).
  { intros p Hp. apply (analyse_points_in 0 ys xs pd p Hy Hx) in Hp.
    destruct Hp as (j & Hj & Hlong & ->).
    cbn [point_stats point_id measurement_count Nat.add].
    split; [lia |]. split; [exact Hlong |].
    rewrite Forall_forall in Hbound. apply Hbound. now apply nth_In. }
  destruct (analyse_points 0 ys xs pd) as [|p pa] eqn:Epa.
  - cbn [length Nat.eqb]. intros E. injection E as <-. discriminate.
  - cbn [length Nat.eqb].
    destruct (Hpa p (or_introl eq_refl)) as (_ & Hp2 & Hpsc).
    assert (Hsc : (2 <= sc <= count)%Z) by lia.
    unfold py_truediv. destruct (count =? 0)%Z eqn:E0; [apply Z.eqb_eq in E0; lia |].
    intros E _. injection E as <-.
    exists sc, t, (p :: pa).
    split; [reflexivity |]. split; [reflexivity |]. split; [reflexivity |].
    split; [reflexivity |]. split; [exact Hsc |].
    split; [cbn [length] in *; lia |]. split; [exact Htarget |].
    apply Forall_forall. exact Hpa.
Qed.

End RepeatabilityRun.

Lemma repeatability_samples_are_valid_depths_witness :
  match repeatability_samples (bench_tester (F:=float) short_params)
          (bench_world (repeat (delivers [[1000; 0]; [2000; 3000]]%Z) 4)) with
  | Some (_, _, point_data) =>
      point_data = [[10; 10; 10]; [20; 20; 20]; [30; 30; 30]]%float /\
      Forall (Forall (fun sample =>
                        exists v : Z,
                          (0 < v < 65535)%Z /\
                          sample = to_mm (bench_tester (F:=float) short_params)
                                     (of_int v)))
             point_data
  | None => False
  end.
Proof.
  pose proof (@repeatability_samples_are_valid_depths float Binary64
                (bench_tester short_params)
                (bench_world (repeat (delivers [[1000; 0]; [2000; 3000]]%Z) 4))) as Hv.
  destruct (repeatability_samples (bench_tester (F:=float) short_params)
              (bench_world (repeat (delivers [[1000; 0]; [2000; 3000]]%Z) 4)))
    as [[[ys xs] pd] |] eqn:E.
  - split; [| exact (Hv ys xs pd eq_refl)].
    vm_compute in E. injection E as _ _ <-. reflexivity.
  - vm_compute in E. discriminate.
Defined.

Lemma repeatability_counts_witness :
  exists d,
    fst (test_repeatability (bench_tester (F:=float) short_params)
           (bench_world (repeat (delivers [[1000; 0]; [2000; 3000]]%Z) 4)))
    = Returns d /\
    lookup (KStr "success_count") d = Some (VInt 3) /\
    lookup (KStr "target_points") d = Some (VInt 3).
Proof.
  destruct (fst (test_repeatability (bench_tester (F:=float) short_params)
                   (bench_world (repeat (delivers [[1000; 0]; [2000; 3000]]%Z) 4))))
    as [d | msg] eqn:E; [| vm_compute in E; discriminate].
  destruct (@repeatability_counts float Binary64 (bench_tester short_params)
              (bench_world (repeat (delivers [[1000; 0]; [2000; 3000]]%Z) 4)) d
              (bench_choice_contract _) E) as (sc & target & pa & Hsc & Ht & _).
  { vm_compute in E. injection E as <-. reflexivity. }
  exists d. split; [reflexivity |].
  vm_compute in E. injection E as <-. split; reflexivity.
Defined.

(* ------------------------------------------------------------------ *)
(** * Repeatability of a scene that does not change *)

Section ConstantSceneAny.
Context {F : Type} `{Float64 F}.

(** The selected points are valid pixels of the seed frame, and there is
    at least one when the seed frame has a valid region. *)
Lemma select_points_valid (w : World F) (seed : Frame) :
  choice_contract w ->
  np_any (valid_mask seed) = true ->
  0 < snd (select_points w (valid_mask seed)) /\
  Forall (fun q => valid_raw (pixel seed (fst q) (snd q)) = true)
         (points_of (select_points w (valid_mask seed))).
Proof.
  intros Hc Hany. apply np_any_count in Hany.
  pose proof (np_where_lengths (valid_mask seed)) as [Hly Hlx].
  assert (Hin : forall q, In q (where_rows 0 (valid_mask seed)) ->
                          valid_raw (pixel seed (fst q) (snd q)) = true).
  { intros q Hq. apply where_rows_in in Hq. destruct Hq as [_ Hq].
    rewrite Nat.sub_0_r, mask_at_valid_mask in Hq. exact Hq. }
  unfold points_of, select_points. rewrite Hly.
  destruct (25 <=? mask_count (valid_mask seed)) eqn:Hcase; cbn [fst snd].
  - split; [lia |]. apply Nat.leb_le in Hcase.
    destruct (Hc _ 25 Hcase) as (_ & _ & Hlt).
    unfold np_where. cbn [fst snd]. rewrite combine_take_idx.
    apply Forall_forall. intros q Hq. apply in_map_iff in Hq.
    destruct Hq as (i & <- & Hi). apply Hin. apply nth_In.
    rewrite where_rows_length. rewrite Forall_forall in Hlt. now apply Hlt.
  - split; [lia |]. rewrite np_where_pairs. apply Forall_forall. exact Hin.
Qed.

(** On a rectangular frame a valid pixel passes the bounds check of the
    recording loop. *)
Lemma record_point_valid_pixel (self : Tester F) (seed : Frame) y x (s : list F) :
  rectangular seed ->
  valid_raw (pixel seed y x) = true ->
  record_point self seed y x s = s ++ [to_mm self (of_int (pixel seed y x))].
Proof.
  intros Hrect Hv. unfold record_point. rewrite Hv.
  assert (Hin : y < length seed /\ x < length (nth y seed [])).
  { pose proof (proj1 (valid_mask_exact seed y x)) as Hex.
    rewrite mask_at_valid_mask in Hex. destruct (Hex Hv) as (Hy & Hx & _). now split. }
  destruct Hin as [Hy Hx].
  assert (Hrow : length (nth y seed []) = length (hd [] seed)).
  { unfold rectangular in Hrect. rewrite Forall_forall in Hrect.
    apply Hrect. now apply nth_In. }
  unfold shape. cbn [fst snd].
  assert (E1 : (y <? length seed) = true) by now apply Nat.ltb_lt.
  assert (E2 : (x <? length (hd [] seed)) = true) by (apply Nat.ltb_lt; lia).
  now rewrite E1, E2.
Qed.

(** Recording one more copy of the seed frame adds one more copy of each
    point's value. *)
Lemma record_points_constant (self : Tester F) (seed : Frame) ys xs k :
  rectangular seed ->
  length ys = length xs ->
  Forall (fun q => valid_raw (pixel seed (fst q) (snd q)) = true) (combine ys xs) ->
  record_points self seed ys xs
    (map (fun q => repeat (to_mm self (of_int (pixel seed (fst q) (snd q)))) k)
         (combine ys xs))
  = map (fun q => repeat (to_mm self (of_int (pixel seed (fst q) (snd q)))) (S k))
        (combine ys xs).
Proof.
  intros Hrect. revert xs.
  induction ys as [|y ys IH]; intros [|x xs] Hlen Hvalid; try discriminate;
    [reflexivity |].
  cbn [combine map record_points]. inversion Hvalid as [|? ? Hv Hrest]; subst.
  cbn [fst snd] in Hv. f_equal.
  - rewrite record_point_valid_pixel by assumption. symmetry. apply repeat_cons.
  - apply IH; [simpl in Hlen; lia | exact Hrest].
Qed.

Lemma feed_points_constant (self : Tester F) (seed : Frame) ys xs n k :
  rectangular seed ->
  length ys = length xs ->
  Forall (fun q => valid_raw (pixel seed (fst q) (snd q)) = true) (combine ys xs) ->
  feed_points self ys xs (repeat (Some seed) n)
    (map (fun q => repeat (to_mm self (of_int (pixel seed (fst q) (snd q)))) k)
         (combine ys xs))
  = map (fun q => repeat (to_mm self (of_int (pixel seed (fst q) (snd q)))) (k + n))
        (combine ys xs).
Proof.
  intros Hrect Hlen Hvalid. revert k.
  induction n as [|n IH]; intros k.
  - now rewrite Nat.add_0_r.
  - cbn [repeat]. unfold feed_points in *. cbn [fold_left].
    rewrite record_points_constant by assumption. rewrite IH.
    now replace (S k + n) with (k + S n) by lia.
Qed.

Lemma all_equal_repeat {T} (a : T) (l : list T) :
  Forall (fun b => b = a) l -> l = repeat a (length l).
Proof.
  induction 1 as [|b l -> _ IH]; simpl; [reflexivity |]. now rewrite <- IH.
Qed.

Lemma analyse_points_all i0 ys xs (pd : list (list F)) :
  length ys = length pd -> length xs = length pd ->
  Forall (fun s => 2 <= length s) pd ->
  length (analyse_points i0 ys xs pd) = length pd.
Proof.
  revert i0 ys xs. induction pd as [|s pd IH]; intros i0 ys xs Hy Hx Hall.
  - destruct ys, xs; reflexivity.
  - destruct ys as [|y ys]; [discriminate |]. destruct xs as [|x xs]; [discriminate |].
    inversion Hall as [|? ? Hs Hrest]; subst.
    cbn [analyse_points]. apply Nat.leb_le in Hs. rewrite Hs.
    cbn [app length]. f_equal. apply IH; simpl in *; try lia. exact Hrest.
Qed.

Lemma np_max_constant (c : F) n : 0 < n -> np_max (repeat c n) = c.
Proof.
  destruct n as [|n]; [lia |]. intros _. cbn [repeat np_max].
  induction n as [|n IH]; cbn [repeat fold_left]; [reflexivity |].
  unfold fmax at 2. now destruct (fltb c c).
Qed.

Lemma np_min_constant (c : F) n : 0 < n -> np_min (repeat c n) = c.
Proof.
  destruct n as [|n]; [lia |]. intros _. cbn [repeat np_min].
  induction n as [|n IH]; cbn [repeat fold_left]; [reflexivity |].
  unfold fmin at 2. now destruct (fltb c c).
Qed.

Lemma combine_as_seq (ys xs : list nat) :
  length ys = length xs ->
  combine ys xs = map (fun k => (nth k ys 0, nth k xs 0)) (seq 0 (length ys)).
Proof.
  revert xs. induction ys as [|y ys IH]; intros [|x xs] Hlen; try discriminate;
    [reflexivity |].
  cbn [combine length seq map nth]. f_equal.
  rewrite <- seq_shift, map_map. apply IH. simpl in Hlen. lia.
Qed.

(** When every point qualifies, the analysis has one entry per point. *)
Lemma analyse_points_all_eq i0 ys xs (pd : list (list F)) :
  length ys = length pd -> length xs = length pd ->
  Forall (fun s => 2 <= length s) pd ->
  analyse_points i0 ys xs pd
  = map (fun j => point_stats (i0 + j) (nth j xs 0) (nth j ys 0) (nth j pd []))
        (seq 0 (length pd)).
Proof.
  revert i0 ys xs. induction pd as [|s pd IH]; intros i0 ys xs Hy Hx Hall.
  - destruct ys, xs; reflexivity.
  - destruct ys as [|y ys]; [discriminate |]. destruct xs as [|x xs]; [discriminate |].
    inversion Hall as [|? ? Hs Hrest]; subst.
    cbn [analyse_points length seq map nth]. apply Nat.leb_le in Hs. rewrite Hs.
    cbn [app]. rewrite Nat.add_0_r. f_equal.
    rewrite <- seq_shift, map_map.
    rewrite (IH (S i0) ys xs); [| simpl in Hy; lia | simpl in Hx; lia | exact Hrest].
    apply map_ext. intros j. cbn [nth]. now rewrite Nat.add_succ_r.
Qed.

(** X13.  A repeatability run in which the scene does not change: the
    seed frame is rectangular with a valid region, and each of the
    [count] >= 2 acquisitions returns the seed frame again.  Then the run
    returns a report that is not an error; every selected point is
    analysed ([valid_points] is the number of selected points), from
    [count] samples that all equal the millimetre value of the point's
    pixel in the seed frame, which are also the samples kept in
    [raw_depth_data]; each point is a valid pixel of the seed frame and
    its [depth_range] is that value minus itself. *)
Theorem repeatability_of_constant_scene (self : Tester F) (w w1 : World F)
  (seed : Frame) :
  choice_contract w ->
  capture_single_frame self w = (Some seed, w1) ->
  rectangular seed ->
  np_any (valid_mask seed) = true ->
  (2 <= repeatability_test_count (test_params self))%Z ->
  Forall (fun depth => depth = Some seed)
    (repeat_frames (Z.to_nat (repeatability_test_count (test_params self))) self w1) ->
  let count := repeatability_test_count (test_params self) in
  let sel := select_points w1 (valid_mask seed) in
  let ys := fst (fst sel) in
  let xs := snd (fst sel) in
  let sample k := to_mm self (of_int (pixel seed (nth k ys 0) (nth k xs 0))) in
  let samples := map (fun k => repeat (sample k) (Z.to_nat count)) (seq 0 (snd sel)) in
  let point_analysis :=
    map (fun k => point_stats k (nth k xs 0) (nth k ys 0)
                    (repeat (sample k) (Z.to_nat count)))
        (seq 0 (snd sel)) in
  exists d,
    fst (test_repeatability self w) = Returns d /\
    lookup (KStr "error") d = None /\
    lookup (KStr "success_count") d = Some (VInt count) /\
    lookup (KStr "valid_points") d = Some (vnat (snd sel)) /\
    lookup (KStr "point_analysis") d = Some (VList (map point_value point_analysis)) /\
    lookup (KStr "raw_depth_data") d = Some (raw_depth_data samples) /\
    Forall (fun p =>
              measurement_count p = Z.to_nat count /\
              valid_raw (pixel seed (snd (coordinates p)) (fst (coordinates p))) = true /\
              depth_range p = fsub (sample (point_id p)) (sample (point_id p)))
           point_analysis.
Proof.
  intros Hc Hcap Hrect Hany Hcount Hframes. cbv zeta.
  set (count := repeatability_test_count (test_params self)) in *.
  set (n := Z.to_nat count) in *.
  assert (Hn : 2 <= n) by (unfold n; lia).
  pose proof (capture_choice_contract self Hc) as Hc1. rewrite Hcap in Hc1.
  cbn [snd] in Hc1.
  unfold test_repeatability. rewrite Hcap, Hany. cbn [negb]. fold count. fold n.
  destruct (select_points_valid seed Hc1 Hany) as [Htarget Hvalid].
  pose proof (select_points_lengths (valid_mask seed) Hc1) as [Hly Hlx].
  unfold points_of in Hvalid.
  destruct (select_points w1 (valid_mask seed)) as [[ys xs] t].
  cbn [fst snd] in *.
  assert (Hlen : length ys = length xs) by congruence.
  pose proof (combine_as_seq ys xs Hlen) as Hcomb. rewrite Hly in Hcomb.
  pose proof (repeat_loop_as_feed n self ys xs (repeat [] t) 0%Z w1) as [Efeed Ecount].
  assert (Eframes : repeat_frames n self w1 = repeat (Some seed) n).
  { rewrite (all_equal_repeat Hframes), repeat_frames_length. reflexivity. }
  rewrite Eframes in Efeed, Ecount.
  assert (Einit : repeat (@nil F) t
                  = map (fun q => repeat (to_mm self (of_int (pixel seed (fst q) (snd q)))) 0)
                        (combine ys xs)).
  { rewrite Hcomb, map_map. cbn [repeat]. clear. generalize 0.
    induction t as [|t IH]; intros a; cbn [repeat seq map];
      [reflexivity | now rewrite <- IH]. }
  assert (Efed : feed_points self ys xs (repeat (Some seed) n) (repeat [] t)
                 = map (fun k => repeat (to_mm self
                                           (of_int (pixel seed (nth k ys 0) (nth k xs 0)))) n)
                       (seq 0 t)).
  { rewrite Einit. rewrite feed_points_constant by assumption.
    cbn [Nat.add]. now rewrite Hcomb, map_map. }
  rewrite Efed in Efeed. clear Efed Einit.
  assert (Eacq : length (acquired (repeat (Some seed) n)) = n).
  { clear. unfold acquired. induction n; simpl; congruence. }
  rewrite Eacq in Ecount.
  destruct (repeat_loop n self ys xs (repeat [] t) 0%Z w1) as [[pd sc] w2].
  cbn [fst snd] in Efeed, Ecount |- *.
  assert (Esc : sc = count) by (unfold n in Ecount; lia).
  assert (Hpd_len : length pd = t) by (rewrite Efeed, length_map; apply length_seq).
  assert (Hy : length ys = length pd) by congruence.
  assert (Hx : length xs = length pd) by congruence.
  assert (Hall : Forall (fun s : list F => 2 <= length s) pd).
  { rewrite Efeed. apply Forall_map, Forall_forall. intros k _.
    now rewrite repeat_length. }
  assert (Epa : analyse_points 0 ys xs pd
                = map (fun k => point_stats k (nth k xs 0) (nth k ys 0)
                                  (repeat (to_mm self
                                     (of_int (pixel seed (nth k ys 0) (nth k xs 0)))) n))
                      (seq 0 t)).
  { rewrite (analyse_points_all_eq 0 ys xs Hy Hx Hall), Hpd_len.
    apply map_ext_in. intros k Hk. apply in_seq in Hk. cbn [Nat.add]. f_equal.
    rewrite Efeed.
    rewrite (nth_indep _ []
               (repeat (to_mm self (of_int (pixel seed (nth 0 ys 0) (nth 0 xs 0)))) n))
      by (rewrite length_map, length_seq; lia).
    rewrite (map_nth (fun k => repeat (to_mm self
                        (of_int (pixel seed (nth k ys 0) (nth k xs 0)))) n)).
    rewrite seq_nth by lia. reflexivity. }
  unfold repeatability_report. rewrite Epa, length_map, length_seq.
  destruct (t =? 0) eqn:Et; [apply Nat.eqb_eq in Et; lia |].
  unfold py_truediv.
  destruct (count =? 0)%Z eqn:E0; [apply Z.eqb_eq in E0; lia |].
  eexists. split; [reflexivity |]. split; [reflexivity |].
  split; [cbn; now rewrite Esc |]. split; [reflexivity |]. split; [reflexivity |].
  split; [cbn; now rewrite Efeed |].
  apply Forall_forall. intros p Hp. apply in_map_iff in Hp.
  destruct Hp as (k & <- & Hk). apply in_seq in Hk.
  cbn [point_stats measurement_count coordinates depth_range point_id fst snd].
  rewrite repeat_length, np_max_constant, np_min_constant by lia.
  split; [reflexivity |]. split; [| reflexivity].
  rewrite Forall_forall in Hvalid.
  apply (Hvalid (nth k ys 0, nth k xs 0)).
  rewrite Hcomb. apply in_map_iff. exists k. split; [reflexivity |].
  apply in_seq. lia.
Qed.

End ConstantSceneAny.

Lemma repeatability_of_constant_scene_witness :
  exists d,
    fst (test_repeatability (bench_tester (F:=float) short_params)
           (bench_world (repeat (delivers [[1000; 0]; [2000; 3000]]%Z) 4)))
    = Returns d /\
    lookup (KStr "valid_points") d = Some (VInt 3) /\
    lookup (KStr "raw_depth_data") d
    = Some (VDict [(KInt 0, VList [VFloat 10; VFloat 10; VFloat 10]);
                   (KInt 1, VList [VFloat 20; VFloat 20; VFloat 20]);
                   (KInt 2, VList [VFloat 30; VFloat 30; VFloat 30])]%float).
Proof.
  destruct (@repeatability_of_constant_scene float Binary64
              (bench_tester short_params)
              (bench_world (repeat (delivers [[1000; 0]; [2000; 3000]]%Z) 4))
              (snd (capture_single_frame (bench_tester (F:=float) short_params)
                      (bench_world (repeat (delivers [[1000; 0]; [2000; 3000]]%Z) 4))))
              [[1000; 0]; [2000; 3000]]%Z)
    as (d & Hd & _ & _ & Hvp & _ & Hraw & _).
  - apply bench_choice_contract.
  - reflexivity.
  - repeat constructor.
  - reflexivity.
  - simpl. lia.
  - repeat constructor.
  - exists d. split; [exact Hd |]. split; [exact Hvp |].
    rewrite Hraw. vm_compute. reflexivity.
Defined.

(** On binary64 the mean of equal samples need not be the sample, so a
    still scene does not give a standard deviation of exactly 0: three
    frames that read 10 at their one pixel, scale factor 0.01. *)
Example constant_scene_binary64 :
  match fst (test_repeatability (bench_tester (F:=float) short_params)
               (bench_world (repeat (delivers [[10%Z]]) 4))) with
  | Returns d =>
      lookup (KStr "overall_stats") d
      = Some (VDict (overall_stats
                       [point_stats 0 0 0 (repeat (0.1)%float 3)])) /\
      depth_range (point_stats 0 0 0 (repeat (0.1)%float 3)) = 0%float /\
      fltb 0%float (std_depth (point_stats 0 0 0 (repeat (0.1)%float 3))) = true
  | Raises _ => False
  end.
Proof. vm_compute. repeat split. Qed.

(* ------------------------------------------------------------------ *)
(** * What a stability run records *)

Section StabilityRecord.
Context {F : Type} `{Float64 F}.

Lemma capture_reads (self : Tester F) (w : World F) :
  is_connected self = true ->
  reads (snd (capture_single_frame self w)) = tl (reads w).
Proof.
  intros Hconn. unfold capture_single_frame, DeviceStreamRead. rewrite Hconn.
  cbn [negb].
  destruct (reads w) as [|[latency [[|frame frames] | msg]] rest]; reflexivity.
Qed.

Lemma stability_step_reads (self : Tester F) start_time interval
  (ms : list Measurement) (w : World F) :
  is_connected self = true ->
  reads (snd (stability_step self start_time interval ms w)) = tl (reads w).
Proof.
  intros Hconn. pose proof (capture_reads self w Hconn) as E.
  unfold stability_step.
  destruct (capture_single_frame self w) as [depth w1]. cbn [snd] in *.
  now destruct (fltb (fsub (now w1) (now w)) interval).
Qed.

(** One read per turn. *)
Lemma stability_loop_reads turns (self : Tester F) start_time duration interval
  (ms : list Measurement) (w : World F) ms' w' :
  is_connected self = true ->
  stability_loop turns self start_time duration interval ms w = Some (ms', w') ->
  reads w'
  = skipn (length (stability_frames turns self start_time duration interval w))
          (reads w).
Proof.
  intros Hconn. revert ms w.
  induction turns as [|turns IH]; intros ms w;
    cbn [stability_loop stability_frames];
    destruct (fltb (fsub (now w) start_time) (of_int duration));
    try discriminate;
    try (intros E; injection E as <- <-; reflexivity).
  pose proof (stability_step_world self start_time interval ms w) as Ew.
  pose proof (stability_step_reads self start_time interval ms w Hconn) as Er.
  destruct (stability_step self start_time interval ms w) as [ms1 w1].
  cbn [snd] in Ew, Er. intros E. apply IH in E. rewrite E, <- Ew, Er.
  cbn [length]. destruct (reads w); cbn [tl skipn];
    [now rewrite skipn_nil | reflexivity].
Qed.

(** Every measurement comes from a frame with a valid region. *)
Lemma stability_loop_measurements turns (self : Tester F) start_time duration interval
  (ms : list Measurement) (w : World F) ms' w' :
  stability_loop turns self start_time duration interval ms w = Some (ms', w') ->
  Forall (fun m => 1 <= m_valid_pixels m <= m_total_pixels m) ms ->
  Forall (fun m => 1 <= m_valid_pixels m <= m_total_pixels m) ms'.
Proof.
  revert ms w. induction turns as [|turns IH]; intros ms w; cbn [stability_loop];
    destruct (fltb (fsub (now w) start_time) (of_int duration));
    try discriminate;
    try (intros E; injection E as <- <-; auto).
  unfold stability_step.
  destruct (capture_single_frame self w) as [[depth_data |] w1].
  - destruct (np_any (valid_mask depth_data)) eqn:Hany.
    + intros E Hms. apply (IH _ _ E). apply Forall_app. split; [exact Hms |].
      constructor; [| constructor]. cbn [measure m_valid_pixels m_total_pixels].
      split; [apply np_any_count in Hany; lia | apply mask_count_le_size].
    + intros E Hms. apply (IH _ _ E Hms).
  - intros E Hms. apply (IH _ _ E Hms).
Qed.

(** X14.  A stability run that has ended.  Its loop was left because the
    comparison of the elapsed time with [duration] came out false; on a
    connected tester it issued one read per turn; it holds one measurement
    per acquired frame with a valid region, each with at least one valid
    pixel and no more valid pixels than pixels.  When it returns its
    dictionary, [total_measurements] counts all the measurements while
    [measurements] keeps the first 50 of them. *)
Theorem stability_run_record (turns : nat) (self : Tester F) (w w' : World F)
  (o : Outcome (dict F)) :
  test_stability_within turns self w = Some (o, w') ->
  let duration := stability_test_duration (test_params self) in
  let acquired := stability_frames turns self (now w) duration lit_1_0 w in
  fltb (fsub (now w') (now w)) (of_int duration) = false /\
  (is_connected self = true -> reads w' = skipn (length acquired) (reads w)) /\
  exists measurements,
    stability_loop turns self (now w) duration lit_1_0 [] w = Some (measurements, w') /\
    length measurements = length (filter carries_valid_region acquired) /\
    Forall (fun m => 1 <= m_valid_pixels m <= m_total_pixels m) measurements /\
    forall d,
      o = Returns d ->
      lookup (KStr "duration") d = Some (VInt duration) /\
      lookup (KStr "total_measurements") d = Some (vnat (length measurements)) /\
      lookup (KStr "measurements") d
      = Some (VList (map measurement_value (firstn 50 measurements))) /\
      length (firstn 50 measurements) = Nat.min 50 (length measurements).
Proof.
  unfold test_stability_within. cbv zeta.
  generalize (stability_test_duration (test_params self)). intros duration.
  destruct (stability_loop turns self (now w) duration lit_1_0 [] w)
    as [[ms w1] |] eqn:Eloop; [| discriminate].
  intros E. injection E as <- <-.
  split; [exact (stability_loop_exit _ _ _ _ _ _ _ Eloop) |].
  split; [intros Hconn; exact (stability_loop_reads _ _ _ _ _ _ _ Hconn Eloop) |].
  exists ms. split; [reflexivity |].
  split; [exact (stability_loop_count _ _ _ _ _ _ _ Eloop) |].
  split; [eapply stability_loop_measurements; [exact Eloop | constructor] |].
  intros d. unfold stability_report. destruct ms as [|m ms].
  - intros E. injection E as <-. repeat split.
  - destruct (py_truediv _ _) as [rate | msg]; [| discriminate].
    intros E. injection E as <-.
    split; [reflexivity |]. split; [reflexivity |]. split; [reflexivity |].
    apply length_firstn.
Qed.

End StabilityRecord.

Lemma stability_run_record_witness :
  exists o w',
    test_stability_within 3 (bench_tester (F:=float) short_params)
      (bench_world (repeat (delivers [[1000; 0]; [2000; 3000]]%Z) 2))
    = Some (o, w') /\
    reads w' = [] /\
    exists measurements,
      stability_loop 3 (bench_tester (F:=float) short_params) (of_int 0) 3 lit_1_0 []
        (bench_world (repeat (delivers [[1000; 0]; [2000; 3000]]%Z) 2))
      = Some (measurements, w') /\
      length measurements = 2.
Proof.
  destruct (test_stability_within 3 (bench_tester (F:=float) short_params)
              (bench_world (repeat (delivers [[1000; 0]; [2000; 3000]]%Z) 2)))
    as [[o w'] |] eqn:Erun; [| vm_compute in Erun; discriminate].
  destruct (@stability_run_record float Binary64 3 (bench_tester short_params)
              (bench_world (repeat (delivers [[1000; 0]; [2000; 3000]]%Z) 2))
              w' o Erun) as (_ & Hreads & ms & Eloop & Hlen & _).
  exists o, w'. split; [reflexivity |]. split.
  - rewrite (Hreads eq_refl). vm_compute. reflexivity.
  - exists ms. split; [exact Eloop |]. rewrite Hlen. vm_compute. reflexivity.
Defined.

(** On binary64 the turns are not bounded by the duration.  A one-second
    run that starts at clock reading 0.4 with reads of a quarter of a
    second: after the first turn the elapsed time is 0.9999999999999999,
    so the loop turns again, records a second measurement and reports a
    success rate of 2. *)
Example stability_binary64_second_turn :
  test_stability_within 1 (bench_tester (F:=float) one_second_params)
    (sleep 0.4%float (bench_world (repeat (delivers (uniform_frame 2 2 1000)) 3)))
  = None /\
  match test_stability_within 2 (bench_tester (F:=float) one_second_params)
          (sleep 0.4%float
             (bench_world (repeat (delivers (uniform_frame 2 2 1000)) 3))) with
  | Some (Returns d, _) =>
      lookup (KStr "total_measurements") d = Some (VInt 2) /\
      lookup (KStr "success_rate") d = Some (VFloat 2%float)
  | _ => False
  end.
Proof. vm_compute. repeat split. Qed.

(* ------------------------------------------------------------------ *)
(** * Outcomes of the noise and the basic procedure *)

Section MoreOutcomes.
Context {F : Type} `{Float64 F}.




Lemma device_info_none (self : Tester F) (dev_list : list Device) :
  device_info self dev_list = VNone
  <-> Forall (fun dev => dev_id dev <> device_id self) dev_list.
Proof.
  unfold device_info. induction dev_list as [|dev rest IH]; cbn [find].
  - split; [constructor | reflexivity].
  - destruct (String.eqb (dev_id dev) (device_id self)) eqn:E.
    + apply String.eqb_eq in E. split; [discriminate |].
      intros Hall. inversion Hall; subst. contradiction.
    + apply String.eqb_neq in E. rewrite IH. split.
      * intros Hrest. now constructor.
      * intros Hall. now inversion Hall.
Qed.

(** X16.  The basic test under [run_test].  It is recorded as a success
    exactly when [ListDevice] answers: a failed acquisition, a frame
    without a valid region or a device missing from the list leave [None]
    in the dictionary and do not fail the test.  When [ListDevice] raises
    no frame is read. *)
Theorem basic_functionality_outcomes (self : Tester F) (w : World F) (name : string) :
  let r := fst (fst (run_test test_basic_functionality name self w)) in
  let w' := snd (run_test test_basic_functionality name self w) in
  (success r = true <-> exists dev_list, sdk_ListDevice w = SdkOk dev_list) /\
  (forall msg, sdk_ListDevice w = SdkError msg ->
     error_message r = Some msg /\ data r = [] /\ w' = w) /\
  (forall dev_list, sdk_ListDevice w = SdkOk dev_list ->
     keys (data r) = [KStr "device_info"; KStr "single_capture"; KStr "depth_stats"] /\
     w' = snd (capture_single_frame self w) /\
     (lookup (KStr "device_info") (data r) = Some VNone
      <-> Forall (fun dev => dev_id dev <> device_id self) dev_list) /\
     (fst (capture_single_frame self w) = None ->
        lookup (KStr "single_capture") (data r) = Some VNone /\
        lookup (KStr "depth_stats") (data r) = Some VNone) /\
     (forall depth_data,
        fst (capture_single_frame self w) = Some depth_data ->
        lookup (KStr "single_capture") (data r) = Some (single_capture depth_data) /\
        (lookup (KStr "depth_stats") (data r) = Some VNone
         <-> np_any (valid_mask depth_data) = false))).
Proof.
  cbv zeta. unfold run_test, test_basic_functionality.
  destruct (sdk_ListDevice w) as [dev_list | msg].
  - pose proof (device_info_none self dev_list) as Hinfo.
    assert (Hsome : Some (device_info self dev_list) = Some VNone
                    <-> Forall (fun dev => dev_id dev <> device_id self) dev_list).
    { rewrite <- Hinfo. split; congruence. }
    destruct (capture_single_frame self w) as [[depth_data |] w1];
      cbn [fst snd result_of success data error_message].
    + split; [split; [intros _; now exists dev_list | reflexivity] |].
      split; [discriminate |].
      intros dl E. injection E as <-.
      split; [reflexivity |]. split; [reflexivity |].
      split; [exact Hsome |]. split; [discriminate |].
      intros dd E. injection E as <-. split; [reflexivity |].
      cbn [lookup key_eqb String.eqb Ascii.eqb Bool.eqb]. unfold depth_stats.
      destruct (np_any (valid_mask depth_data)); split; intros; try discriminate;
        reflexivity.
    + split; [split; [intros _; now exists dev_list | reflexivity] |].
      split; [discriminate |].
      intros dl E. injection E as <-.
      split; [reflexivity |]. split; [reflexivity |].
      split; [exact Hsome |]. split; [intros _; split; reflexivity |].
      discriminate.
  - cbn [fst snd result_of success data error_message].
    split; [split; [discriminate | intros (dl & E); discriminate] |].
    split; [| discriminate].
    intros msg' E. injection E as <-. repeat split.
Qed.

End MoreOutcomes.


Lemma basic_functionality_outcomes_witness :
  success (fst (fst (run_test test_basic_functionality name_basic
                       (bench_tester (F:=float) short_params) (bench_world []))))
  = true.
Proof.
  apply (@basic_functionality_outcomes float Binary64 (bench_tester short_params)
           (bench_world []) name_basic).
  exists [bench_device]. reflexivity.
Defined.
